(** * optical-prescription-utils: validation and conversion of optical prescriptions

    A shallow embedding of [src/EyeTestValidator.ts] and
    [src/ContactLensValidator.ts].

    The TypeScript [number] type is IEEE-754 binary64.  It is modelled by the
    [spec_float] type of the standard library, instantiated at precision 53
    and maximal exponent 1024, so that every rounding of the source is the
    rounding of the model.  The built-in operations the two classes call
    ([Math.round], [Math.abs], [%], [toFixed], [String], [parseFloat],
    [Number], [trim]) are written out after their ECMAScript definitions in
    module [JS]; the two classes follow in modules [EyeTestValidator] and
    [ContactLensValidator]. *)

From Stdlib Require Import ZArith QArith Qround Qabs Lia String Ascii List Bool.
From Stdlib Require Import Floats.SpecFloat DecimalString.
From stdpp Require Import gmap strings.

Local Open Scope Z_scope.

(** ** The host language *)

Module JS.

(** *** Numbers *)

Definition number : Type := spec_float.

Definition prec : Z := 53.
Definition emax : Z := 1024.

Definition NaN : number := S754_nan.

(** The binary64 value nearest to the rational [p / q] (ties to even). The
    division algorithm of [SpecFloat] rounds correctly whatever the size of
    the two integer mantissas. *)
Definition of_ratio (p : Z) (q : positive) : number :=
  match p with
  | Z0 => S754_zero false
  | Zpos m => SFdiv prec emax (S754_finite false m 0) (S754_finite false q 0)
  | Zneg m => SFdiv prec emax (S754_finite true m 0) (S754_finite false q 0)
  end.

(** The binary64 value nearest to the integer [n]. *)
Definition of_Z (n : Z) : number := binary_normalize prec emax n 0 false.

(** The binary64 value of the decimal literal [m * 10 ^ e]. *)
Definition of_decimal (m : Z) (e : Z) : number :=
  match e with
  | Zneg k => of_ratio m (10 ^ k)%positive
  | _ => of_Z (m * 10 ^ e)
  end.

Definition add : number -> number -> number := SFadd prec emax.
Definition sub : number -> number -> number := SFsub prec emax.
Definition mul : number -> number -> number := SFmul prec emax.
Definition div : number -> number -> number := SFdiv prec emax.
Definition neg : number -> number := SFopp.

(** [x < y], [x <= y], [x > y], [x >= y], [x === y]: all false on NaN. *)
Definition lt (x y : number) : bool := SFltb x y.
Definition le (x y : number) : bool := SFleb x y.
Definition gt (x y : number) : bool := SFltb y x.
Definition ge (x y : number) : bool := SFleb y x.
Definition strict_eq (x y : number) : bool := SFeqb x y.

Definition isNaN (x : number) : bool :=
  match x with S754_nan => true | _ => false end.

Definition is_finite (x : number) : bool :=
  match x with S754_zero _ | S754_finite _ _ _ => true | _ => false end.

(** A well-formed binary64 value: the mantissa and exponent of a finite
    value are the canonical ones. *)
Definition valid (x : number) : bool := valid_binary prec emax x.

(** A value whose mantissa fits 53 bits and whose exponent is not below
    the least one. Every well-formed value is so. *)
Definition representable (x : number) : bool :=
  match x with
  | S754_finite _ m e => (Zpos (digits2_pos m) <=? 53) && (-1074 <=? e)
  | _ => true
  end.

(** ToBoolean on a number: [+0], [-0] and NaN are falsy. *)
Definition truthy (x : number) : bool :=
  match x with
  | S754_zero _ | S754_nan => false
  | _ => true
  end.

Definition Math_abs : number -> number := SFabs.

(** The signed integer mantissa of a finite value. *)
Definition signed (s : bool) (m : positive) : Z := cond_Zopp s (Zpos m).

(** [Math.round]: values that are not finite or already integral are
    returned as they are; otherwise the nearest integer, a tie going to
    the one closer to +infinity, with a zero result keeping the sign of
    the argument. *)
Definition Math_round (x : number) : number :=
  match x with
  | S754_finite s m e =>
      if 0 <=? e then x
      else
        match (2 * signed s m + 2 ^ (- e)) / 2 ^ (1 - e) with
        | Z0 => S754_zero s
        | n => of_Z n
        end
  | _ => x
  end.

(** [n % d]: the remainder of the truncating division, exact, with the sign
    of the dividend. *)
Definition rem (n d : number) : number :=
  match n with
  | S754_nan | S754_infinity _ => NaN
  | S754_zero _ =>
      match d with
      | S754_nan | S754_zero _ => NaN
      | _ => n
      end
  | S754_finite sn mn en =>
      match d with
      | S754_nan | S754_zero _ => NaN
      | S754_infinity _ => n
      | S754_finite _ md ed =>
          let ez := Z.min en ed in
          match (Zpos mn * 2 ^ (en - ez)) mod (Zpos md * 2 ^ (ed - ez)) with
          | Z0 => S754_zero sn
          | r => binary_normalize prec emax (cond_Zopp sn r) ez false
          end
      end
  end.

(** The exact value of a finite number, as a rational. *)
Definition exact (x : number) : Q :=
  match x with
  | S754_finite s m e =>
      match e with
      | Zneg k => Qmake (signed s m) (2 ^ k)%positive
      | _ => Qmake (signed s m * 2 ^ e) 1
      end
  | _ => Qmake 0 1
  end.

(** The exact value of a finite number counted in units of [2 ^ -1074],
    the spacing of the smallest binary64 values: an integer. *)
Definition scaled (x : number) : Z :=
  match x with
  | S754_finite s m e => signed s m * 2 ^ (e + 1074)
  | _ => 0
  end.

(** *** Strings

    Strings are sequences of code units, each an [ascii], so that only the
    code units below 256 occur. *)

Definition string_of_N (n : N) : string := NilZero.string_of_uint (N.to_uint n).

Fixpoint zeros (k : nat) : string :=
  match k with
  | O => EmptyString
  | S k' => String "0" (zeros k')
  end.

Definition pad_left (k : nat) (s : string) : string :=
  zeros (k - String.length s) +:+ s.

(** The integer nearest to [m * 2 ^ e * 10 ^ f], the larger one on a tie. *)
Definition scaled_round (m : positive) (e : Z) (f : nat) : N :=
  Z.to_N
    match e with
    | Zneg k => (2 * (Zpos m * 10 ^ Z.of_nat f) + 2 ^ Zpos k) / 2 ^ (Zpos k + 1)
    | _ => Zpos m * 2 ^ e * 10 ^ Z.of_nat f
    end.

(** The decimal digits of [n / 10 ^ f] with [f] digits after the point. *)
Definition fixed_digits (n : N) (f : nat) : string :=
  let p := (10 ^ N.of_nat f)%N in
  string_of_N (n / p) +:+
  match f with
  | O => EmptyString
  | _ => String "." (pad_left f (string_of_N (n mod p)))
  end.

(** The decimal exponent of [p / q]: the [n] with
    [10 ^ (n - 1) <= p / q < 10 ^ n]. *)
Fixpoint leading_zeros (fuel : nat) (p q : Z) : Z :=
  match fuel with
  | O => 0
  | S fuel' => if q <=? 10 * p then 1 else 1 + leading_zeros fuel' (10 * p) q
  end.

Definition decimal_exponent (p q : Z) : Z :=
  if q <=? p then Z.of_nat (String.length (string_of_N (Z.to_N (p / q))))
  else 1 - leading_zeros 400 p q.

(** Number::toString looks for the shortest digit string [s] of [k] digits
    with [s * 10 ^ (n - k)] reading back as [x]; when two candidates of the
    same length read back as [x], the one nearer to [x] is taken. *)
Definition shortest_candidate (x : number) (p q n0 k : Z) : option (Z * Z) :=
  let sh := k - n0 in
  let P := if 0 <=? sh then p * 10 ^ sh else p in
  let Q := if 0 <=? sh then q else q * 10 ^ (- sh) in
  let lo := P / Q in
  let r := P mod Q in
  let ok_lo := (0 <? lo) && SFeqb (of_decimal lo (n0 - k)) x in
  let ok_hi := SFeqb (of_decimal (lo + 1) (n0 - k)) x in
  let pick_hi :=
    if ok_hi && ok_lo then (Q <? 2 * r) || ((Q =? 2 * r) && Z.odd lo)
    else ok_hi in
  if pick_hi then
    Some (if lo + 1 =? 10 ^ k then (10 ^ (k - 1), n0 + 1) else (lo + 1, n0))
  else if ok_lo then Some (lo, n0)
  else None.

(** Seventeen digits always suffice for a binary64 value. *)
Fixpoint shortest_digits (fuel : nat) (x : number) (p q n0 k : Z) : Z * Z * Z :=
  match shortest_candidate x p q n0 k with
  | Some (s, n) => (s, n, k)
  | None =>
      match fuel with
      | O => (10 ^ (k - 1), n0, k)
      | S fuel' => shortest_digits fuel' x p q n0 (k + 1)
      end
  end.

Definition exponent_suffix (n : Z) : string :=
  String "e" (String (if n - 1 <? 0 then "-"%char else "+"%char)
    (string_of_N (Z.to_N (Z.abs (n - 1))))).

Definition toString_pos (m : positive) (e : Z) : string :=
  let p := match e with Zneg _ => Zpos m | _ => Zpos m * 2 ^ e end in
  let q := match e with Zneg k => 2 ^ Zpos k | _ => 1 end in
  let '(s, n, k) :=
    shortest_digits 16 (S754_finite false m e) p q (decimal_exponent p q) 1 in
  let digits := string_of_N (Z.to_N s) in
  if (k <=? n) && (n <=? 21) then digits +:+ zeros (Z.to_nat (n - k))
  else if (0 <? n) && (n <=? 21) then
    substring 0 (Z.to_nat n) digits +:+
    String "." (substring (Z.to_nat n) (Z.to_nat (k - n)) digits)
  else if (-6 <? n) && (n <=? 0) then
    String "0" (String "." (zeros (Z.to_nat (- n)) +:+ digits))
  else if k =? 1 then digits +:+ exponent_suffix n
  else
    substring 0 1 digits +:+
    String "." (substring 1 (Z.to_nat (k - 1)) digits) +:+ exponent_suffix n.

(** [String(x)] for a number [x]. *)
Definition toString (x : number) : string :=
  match x with
  | S754_nan => "NaN"
  | S754_zero _ => "0"
  | S754_infinity s => if s then "-Infinity" else "Infinity"
  | S754_finite s m e =>
      (if s then "-" else "") +:+ toString_pos m e
  end.

(** [x.toFixed(f)], for [0 <= f <= 100]. *)
Definition toFixed (x : number) (f : nat) : string :=
  match x with
  | S754_zero _ => fixed_digits 0 f
  | S754_finite s m e =>
      if ge (Math_abs x) (of_Z (10 ^ 21)) then toString x
      else (if s then "-" else "") +:+ fixed_digits (scaled_round m e f) f
  | _ => toString x
  end.

(** White space and line terminators, for [trim] and the numeric parsers:
    tab, line feed, vertical tab, form feed, carriage return, space and the
    no-break space (the other ones lie above 255). *)
Definition is_space (c : ascii) : bool :=
  match nat_of_ascii c with
  | 9%nat | 10%nat | 11%nat | 12%nat | 13%nat | 32%nat | 160%nat => true
  | _ => false
  end.

Fixpoint trim_start (s : string) : string :=
  match s with
  | String c r => if is_space c then trim_start r else s
  | EmptyString => s
  end.

Fixpoint trim_end (s : string) : string :=
  match s with
  | String c r =>
      match trim_end r with
      | EmptyString => if is_space c then EmptyString else String c EmptyString
      | r' => String c r'
      end
  | EmptyString => s
  end.

Definition trim (s : string) : string := trim_end (trim_start s).

(** ToBoolean on a string: only the empty string is falsy. *)
Definition nonempty (s : string) : bool :=
  match s with EmptyString => false | _ => true end.

Definition digit_of (base : N) (c : ascii) : option N :=
  let n := N_of_ascii c in
  let d :=
    if (48 <=? n)%N && (n <=? 57)%N then Some (n - 48)%N
    else if (97 <=? n)%N && (n <=? 122)%N then Some (n - 87)%N
    else if (65 <=? n)%N && (n <=? 90)%N then Some (n - 55)%N
    else None in
  match d with
  | Some v => if (v <? base)%N then Some v else None
  | None => None
  end.

(** Reads the longest run of digits, continuing the value [acc]; returns
    the value, the number of digits read and the rest. *)
Fixpoint read_digits (base : N) (s : string) (acc : N) (cnt : nat)
  : N * nat * string :=
  match s with
  | String c r =>
      match digit_of base c with
      | Some d => read_digits base r (acc * base + d)%N (S cnt)
      | None => (acc, cnt, s)
      end
  | EmptyString => (acc, cnt, s)
  end.

(** An optional exponent part; without one the string is left untouched. *)
Definition read_exponent (s : string) : Z * string :=
  match s with
  | String c r =>
      if Ascii.eqb c "e" || Ascii.eqb c "E" then
        let '(sg, r1) :=
          match r with
          | String "+" r' => (false, r')
          | String "-" r' => (true, r')
          | _ => (false, r)
          end in
        let '(v, n, r2) := read_digits 10 r1 0 0 in
        match n with
        | O => (0, s)
        | _ => (cond_Zopp sg (Z.of_N v), r2)
        end
      else (0, s)
  | EmptyString => (0, s)
  end.

(** The longest prefix that is a StrDecimalLiteral, with its value. *)
Definition read_unsigned (sg : bool) (s : string) : option (number * string) :=
  let finite (m : N) (e : Z) : number :=
    match m with
    | N0 => S754_zero sg
    | _ => of_decimal (cond_Zopp sg (Z.of_N m)) e
    end in
  if String.prefix "Infinity" s then
    Some (S754_infinity sg, substring 8 (String.length s - 8) s)
  else
    let '(ip, ni, r1) := read_digits 10 s 0 0 in
    match r1 with
    | String "." r2 =>
        let '(fp, nf, r3) := read_digits 10 r2 ip 0 in
        match ni, nf with
        | O, O => None
        | _, _ =>
            let '(ex, r4) := read_exponent r3 in
            Some (finite fp (ex - Z.of_nat nf), r4)
        end
    | _ =>
        match ni with
        | O => None
        | _ => let '(ex, r4) := read_exponent r1 in Some (finite ip ex, r4)
        end
    end.

Definition read_signed (s : string) : option (number * string) :=
  match s with
  | String "+" r => read_unsigned false r
  | String "-" r => read_unsigned true r
  | _ => read_unsigned false s
  end.

(** [parseFloat(s)]: leading white space is skipped and the longest
    numeric prefix is read; NaN when there is none. *)
Definition parseFloat (s : string) : number :=
  match read_signed (trim_start s) with
  | Some (x, _) => x
  | None => NaN
  end.

(** A binary, octal or hexadecimal integer literal, without its prefix. *)
Definition read_radix (base : N) (s : string) : number :=
  match read_digits base s 0 0 with
  | (_, O, _) => NaN
  | (v, _, EmptyString) => of_Z (Z.of_N v)
  | _ => NaN
  end.

(** [Number(s)] for a string [s]: the whole trimmed string has to be a
    numeric literal; the empty string is [+0]. *)
Definition StringToNumber (s : string) : number :=
  match trim s with
  | EmptyString => S754_zero false
  | String "0" (String "x" r) | String "0" (String "X" r) => read_radix 16 r
  | String "0" (String "o" r) | String "0" (String "O" r) => read_radix 8 r
  | String "0" (String "b" r) | String "0" (String "B" r) => read_radix 2 r
  | t =>
      match read_signed t with
      | Some (x, EmptyString) => x
      | _ => NaN
      end
  end.

(** *** Dynamically typed values *)

Inductive value :=
| VUndefined
| VNull
| VNum (x : number)
| VStr (s : string).

(** [Number(v)] *)
Definition ToNumber (v : value) : number :=
  match v with
  | VUndefined => NaN
  | VNull => S754_zero false
  | VNum x => x
  | VStr s => StringToNumber s
  end.

(** [String(v)] *)
Definition ToString (v : value) : string :=
  match v with
  | VUndefined => "undefined"
  | VNull => "null"
  | VNum x => toString x
  | VStr s => s
  end.

(** [a ?? b] *)
Definition nullish {A} (o : option A) (d : A) : A :=
  match o with
  | Some a => a
  | None => d
  end.

End JS.

(** JavaScript objects are finite maps from property names to values; a
    property that is not there reads as [undefined]. *)
Definition prop (o : gmap string JS.value) (key : string) : JS.value :=
  match o !! key with
  | Some v => v
  | None => JS.VUndefined
  end.

(** ** src/EyeTestValidator.ts *)

Module EyeTestValidator.
Import JS.

Definition isMultipleOfQuarter (value : number) : bool :=
  strict_eq (rem (Math_round (mul value (of_Z 100))) (of_Z 25)) (of_Z 0).

Definition formatPower (value : number) : string :=
  let absValue := Math_abs value in
  let fixed := toFixed absValue 2 in
  let sign := if ge value (of_Z 0) then "+" else "-" in
  let formattedValue :=
    if lt absValue (of_Z 10) then String "0" fixed else fixed in
  sign +:+ formattedValue.

Definition validateSPH (value : number) : option string :=
  if negb (isMultipleOfQuarter value) then None
  else if lt value (of_Z (-60)) || gt value (of_Z 60) then None
  else Some (formatPower value).

Definition validateCYL (value : number) : option string :=
  if negb (isMultipleOfQuarter value) then None
  else if lt value (of_Z (-15)) || gt value (of_Z 15) then None
  else Some (formatPower value).

Definition validateAxis (value : number) : option number :=
  if lt value (of_Z 0) || gt value (of_Z 180) then None
  else Some (Math_round value).

Definition validatePD (value : number) : option number :=
  let num := value in
  if negb (isNaN num) && ge num (of_Z 19) && le num (of_Z 85)
  then Some num else None.

Definition validateADD (value : number) : option string :=
  if negb (isMultipleOfQuarter value) then None
  else if lt value (of_decimal 25 (-2)) || gt value (of_Z 6) then None
  else Some (formatPower value).

Definition validateSG (value : JS.value) : option number :=
  let num := ToNumber value in
  if negb (isNaN num) && ge num (of_Z 7) && le num (of_Z 50)
  then Some num else None.

Definition validateVertexDistance (value : JS.value) : option number :=
  let num := ToNumber value in
  if negb (isNaN num) && ge num (of_Z 10) && le num (of_Z 15)
  then Some num else None.

Record transformed := { sph : string; cyl : string; axis : number }.

Definition transformSphCylAxis (sph cyl axis : number) : option transformed :=
  let sphNum := sph in
  let cylNum := cyl in
  let axisNum := axis in
  if negb (truthy cylNum) || le cylNum (of_Z 0) then None
  else
    let newCyl := neg (Math_abs cylNum) in
    let newSph := add sphNum cylNum in
    let newAxis :=
      if gt axisNum (of_Z 90) then sub axisNum (of_Z 90)
      else add axisNum (of_Z 90) in
    let newAxis := nullish (validateAxis newAxis) newAxis in
    Some {| sph := formatPower newSph;
            cyl := formatPower newCyl;
            axis := newAxis |}.

(** [v !== null && v !== undefined && v !== ""] *)
Definition supplied (v : JS.value) : bool :=
  match v with
  | VNull | VUndefined | VStr EmptyString => false
  | _ => true
  end.

Definition checkSphCylAxisCombo (sph cyl axis : JS.value) : bool :=
  let sphValue := if supplied sph then Some (ToNumber sph) else None in
  let cylValue := if supplied cyl then Some (ToNumber cyl) else None in
  let axisValue := if supplied axis then Some (ToNumber axis) else None in
  let hasSph := match sphValue with Some _ => true | None => false end in
  let hasCyl :=
    match cylValue with
    | Some c => negb (strict_eq c (of_Z 0))
    | None => false
    end in
  let hasAxis := match axisValue with Some _ => true | None => false end in
  if hasSph && negb hasCyl && negb hasAxis then true
  else if hasSph && hasCyl && hasAxis then true
  else if hasCyl && hasAxis then true
  else if negb hasSph && negb hasCyl && negb hasAxis then false
  else false.

Record validation := {
  valid : bool;
  errors : list string;
  formatted : gmap string JS.value
}.

Definition combo_message : string :=
  "CYL and AXIS must be entered together, or both left empty.".
Definition sph_message : string :=
  "SPH must be multiple of 0.25 and between -60.00 and +60.00.".
Definition cyl_message : string :=
  "CYL must be multiple of 0.25 and between -15.00 and +15.00.".
Definition axis_message : string :=
  "AXIS must be an integer between 0 and 180.".
Definition add_message : string :=
  "ADD must be multiple of 0.25 and between +0.25 and +6.00.".
Definition pd_message : string :=
  "PD must be an integer between 19 and 85.".
Definition sg_message : string :=
  "SG must be between 7 and 50.".
Definition vd_message : string :=
  "Vertex Distance must be between 10 and 15.".

(** The two accumulators of [validatePrescription]. *)
Definition acc : Type := list string * gmap string JS.value.

Definition push (msg : string) (a : acc) : acc := (fst a ++ [msg], snd a).
Definition store (key : string) (v : JS.value) (a : acc) : acc :=
  (fst a, <[key := v]> (snd a)).

(** A field validated to a string: [if (!s) errors.push(msg) else formatted[key] = s] *)
Definition check_string (key msg : string) (r : option string) (a : acc) : acc :=
  match r with
  | None | Some EmptyString => push msg a
  | Some s => store key (VStr s) a
  end.

(** A field validated to a number: [if (n === null) errors.push(msg) else formatted[key] = n] *)
Definition check_number (key msg : string) (r : option number) (a : acc) : acc :=
  match r with
  | None => push msg a
  | Some n => store key (VNum n) a
  end.

Definition validatePrescription (data : gmap string JS.value) : validation :=
  let errors : list string := [] in
  let formatted : gmap string JS.value := ∅ in
  if negb (checkSphCylAxisCombo
             (prop data "sphere") (prop data "cylinder") (prop data "axis"))
  then {| valid := false; errors := errors ++ [combo_message];
          formatted := formatted |}
  else
    let a : acc := (errors, formatted) in
    let a :=
      if supplied (prop data "sphere")
      then check_string "sphere" sph_message
             (validateSPH (ToNumber (prop data "sphere"))) a
      else a in
    let a :=
      if supplied (prop data "cylinder")
      then check_string "cylinder" cyl_message
             (validateCYL (ToNumber (prop data "cylinder"))) a
      else a in
    let a :=
      if supplied (prop data "axis")
      then check_number "axis" axis_message
             (validateAxis (ToNumber (prop data "axis"))) a
      else a in
    let a :=
      if supplied (prop data "add")
      then check_string "add" add_message
             (validateADD (ToNumber (prop data "add"))) a
      else a in
    let a :=
      if supplied (prop data "pd")
      then check_number "pd" pd_message
             (validatePD (ToNumber (prop data "pd"))) a
      else a in
    let a :=
      if supplied (prop data "sg")
      then check_number "sg" sg_message (validateSG (prop data "sg")) a
      else a in
    let a :=
      if supplied (prop data "vertexDistance")
      then check_number "vertexDistance" vd_message
             (validateVertexDistance (prop data "vertexDistance")) a
      else a in
    {| valid := Nat.eqb (List.length (fst a)) 0;
       errors := fst a;
       formatted := snd a |}.

End EyeTestValidator.

(** ** src/ContactLensValidator.ts *)

Module ContactLensValidator.
Import JS.

Definition isMultipleOfQuarter (value : number) : bool :=
  strict_eq (rem value (of_decimal 25 (-2))) (of_Z 0).

Definition formatPower (value : number) : string :=
  let fixed := toFixed (Math_abs value) 2 in
  let sign :=
    if gt value (of_Z 0) then "+"
    else if lt value (of_Z 0) then "-"
    else "+" in
  if lt (Math_abs value) (of_Z 10) then sign +:+ String "0" fixed
  else sign +:+ fixed.

Definition formatNumberCustom (value : JS.value) : JS.value :=
  let num :=
    match value with
    | VNum x => x
    | _ => parseFloat (ToString value)
    end in
  if isMultipleOfQuarter num then VStr (formatPower num)
  else VStr "".

Definition roundToNearestQuarter (num : number) : number :=
  div (Math_round (mul num (of_Z 4))) (of_Z 4).

Definition sphericalEquivalent (sphere cylinder : number) : number :=
  parseFloat (toFixed (add sphere (div cylinder (of_Z 2))) 2).

Definition sphericWithoutVertexDistance (sphere vertexDistance : number) : number :=
  div sphere
    (sub (of_Z 1) (mul (div vertexDistance (of_Z 1000)) sphere)).

(** The [for ... in] loop rewrites every property in place. *)
Definition formatResultToQuarter (value : gmap string JS.value)
  : gmap string JS.value :=
  formatNumberCustom <$> value.

(** [String(data[key] ?? dflt).trim()] *)
Definition field (data : gmap string JS.value) (key dflt : string) : string :=
  trim (ToString
          match prop data key with
          | VNull | VUndefined => VStr dflt
          | v => v
          end).

(** [s ? parseFloat(s) : dflt] *)
Definition parse_or (s : string) (dflt : number) : number :=
  if nonempty s then parseFloat s else dflt.

Definition convertToSpheric (data : gmap string JS.value) : gmap string JS.value :=
  let sphere := field data "SPH" "0" in
  let cylinder := field data "CY" "0" in
  let axis := field data "AX" "0" in
  let vertexDistance := field data "BV" "12" in
  let add := field data "ADD" "0" in
  let sph := parse_or sphere (of_Z 0) in
  let cyl := parse_or cylinder (of_Z 0) in
  let ax := parse_or axis (of_Z 0) in
  let bv := parse_or vertexDistance (of_Z 12) in
  let addValue := parse_or add (of_Z 0) in
  let totalSphere :=
    if negb (strict_eq (Math_abs cyl) (of_Z 0))
    then sphericalEquivalent sph cyl else sph in
  let sphereContactLens :=
    if gt (Math_abs totalSphere) (of_Z 4)
    then sphericWithoutVertexDistance totalSphere bv
    else totalSphere in
  let nearestValue := roundToNearestQuarter sphereContactLens in
  let value : gmap string JS.value :=
    <["ADD" := VNum addValue]> (<["SPH" := VNum nearestValue]> ∅) in
  let value := formatResultToQuarter value in
  let value := <["Exact SPH" := VStr (formatPower sphereContactLens)]> value in
  let value := <["AX" := VStr ""]> value in
  let value := <["BV" := VNum bv]> value in
  value.

Definition convertToToric (data : gmap string JS.value) : gmap string JS.value :=
  let sphere := field data "SPH" "0" in
  let cylinder := field data "CY" "0" in
  let axis := field data "AX" "0" in
  let vertexDistance := field data "BV" "12" in
  let add := field data "ADD" "0" in
  let sph := parse_or sphere (of_Z 0) in
  let cyl := parse_or cylinder (of_Z 0) in
  let ax := parse_or axis (of_Z 0) in
  let bv := parse_or vertexDistance (of_Z 12) in
  let addValue := parse_or add (of_Z 0) in
  let spherPower := sphericWithoutVertexDistance sph bv in
  let cylinderPower :=
    sub (sphericWithoutVertexDistance (JS.add sph cyl) bv) spherPower in
  let nearestCylinder := roundToNearestQuarter cylinderPower in
  let nearestSphere := roundToNearestQuarter spherPower in
  let value : gmap string JS.value :=
    <["ADD" := VNum addValue]>
      (<["CY" := VNum nearestCylinder]> (<["SPH" := VNum nearestSphere]> ∅)) in
  let value := formatResultToQuarter value in
  let value := <["AX" := VStr (toFixed ax 0)]> value in
  let value := <["Exact SPH" := VStr (formatPower spherPower)]> value in
  let value := <["Exact CY" := VStr (formatPower cylinderPower)]> value in
  let value := <["BV" := VNum bv]> value in
  value.

End ContactLensValidator.

(** ** Notions the specification is worded with *)

Module Reference.
Import JS.

(** The nearest integer, the larger one on a tie. *)
Definition round_half_up (q : Q) : Z := Qfloor (q + (1 # 2)).

(** The nearest integer, the one away from zero on a tie. *)
Definition round_half_away (q : Q) : Z :=
  if Qle_bool 0 q then Qfloor (q + (1 # 2)) else - Qfloor (- q + (1 # 2)).

(** [q] is an integer multiple of one quarter. *)
Definition quarter_multiple (q : Q) : Prop := exists k : Z, q == k # 4.

Definition quarter_multipleb (q : Q) : bool :=
  (Qnum q * 4) mod Zpos (Qden q) =? 0.

(** The test [round(x * 100) % 25 == 0], read on integers: the product,
    formed in binary64, is finite and its nearest integer is divisible by
    25. *)
Definition hundredths_divisible_by_25 (x : number) : Prop :=
  is_finite (mul x (of_Z 100)) = true /\
  round_half_up (exact (mul x (of_Z 100))) mod 25 = 0.

Definition is_digit (c : ascii) : bool :=
  (48 <=? N_of_ascii c)%N && (N_of_ascii c <=? 57)%N.

Definition is_sign (c : ascii) : bool :=
  Ascii.eqb c "+" || Ascii.eqb c "-".

(** The pattern [^[+-]\d{2}\.\d{2}$]. *)
Definition power_pattern (s : string) : bool :=
  match s with
  | String c0 (String d1 (String d2 (String p (String d3 (String d4 EmptyString))))) =>
      is_sign c0 && is_digit d1 && is_digit d2 && Ascii.eqb p "." &&
      is_digit d3 && is_digit d4
  | _ => false
  end.

(** Exactly two decimal digits. *)
Definition two_digits (s : string) : bool :=
  match s with
  | String a (String b EmptyString) => is_digit a && is_digit b
  | _ => false
  end.

(** The first character of a formatted power. *)
Definition sign_of (s : string) : option ascii := String.get 0 s.

(** The lens power of [convertToSpheric] as the specification words it:
    the total sphere is [sph + cyl / 2] itself when the cylinder is not 0,
    compensated exactly when its magnitude exceeds 4. *)
Definition lens_power_as_worded (sph cyl bv : number) : number :=
  let total :=
    if strict_eq (Math_abs cyl) (of_Z 0) then sph
    else add sph (div cyl (of_Z 2)) in
  if gt (Math_abs total) (of_Z 4)
  then div total (sub (of_Z 1) (mul (div bv (of_Z 1000)) total))
  else total.

(** A JavaScript object literal. *)
Definition object (l : list (string * value)) : gmap string value :=
  list_to_map l.

(** The numeric reading of an input field: [String(data[key] ?? dflt)],
    trimmed, parsed when it is not empty. *)
Definition input (data : gmap string value) (key dflt : string) (z : number)
  : number :=
  ContactLensValidator.parse_or (ContactLensValidator.field data key dflt) z.

(** What one field of a prescription adds to the error list. *)
Definition reported {A : Type} (given : bool) (r : option A) (msg : string)
  : list string :=
  if given then match r with None => [msg] | Some _ => [] end else [].

(** The binary64 value of [k / 4], proper or zero. *)
Definition quarter_checked (P : number -> bool) (k : Z) : bool :=
  valid (of_ratio k 4) && is_finite (of_ratio k 4) &&
  (scaled (of_ratio k 4) =? k * 2 ^ 1072) && P (of_ratio k 4) &&
  ((negb (k =? 0)) || P (S754_zero true)).

(** The outcome of a power validator on [y] is [formatPower(y)], of the
    expected shape. *)
Definition accepted_well_formed (f : number -> option string) (y : number)
  : bool :=
  match f y with
  | Some s => String.eqb s (EyeTestValidator.formatPower y) && power_pattern s
  | None => false
  end.

(** The formatted power of [y] reads back as [y] and validates to itself. *)
Definition reads_back (y : number) : bool :=
  strict_eq (StringToNumber (EyeTestValidator.formatPower y)) y &&
  strict_eq (parseFloat (ContactLensValidator.formatPower y)) y &&
  match EyeTestValidator.validateSPH (StringToNumber (EyeTestValidator.formatPower y)) with
  | Some s => String.eqb s (EyeTestValidator.formatPower y)
  | None => false
  end.

(** [y] is read back, from its decimal text and from its formatted power,
    as [y]. *)
Definition read_as_written (y : number) : bool :=
  nonempty (trim (toString y)) &&
  strict_eq (parseFloat (trim (toString y))) y &&
  nonempty (trim (ContactLensValidator.formatPower y)) &&
  strict_eq (parseFloat (trim (ContactLensValidator.formatPower y))) y.

(** The binary64 value of the integer [n], proper or zero. *)
Definition integer_checked (P : Z -> number -> bool) (n : Z) : bool :=
  valid (of_Z n) && is_finite (of_Z n) &&
  (scaled (of_Z n) =? n * 2 ^ 1074) && P n (of_Z n) &&
  ((negb (n =? 0)) || P n (S754_zero true)).

(** For [y] a whole number [n] of degrees, the axis [transformSphCylAxis]
    computes from it is [n + 90] or [n - 90]. *)
Definition turned_axis_checked (n : Z) (y : number) : bool :=
  let turned :=
    if gt y (of_Z 90) then sub y (of_Z 90) else add y (of_Z 90) in
  let a := nullish (EyeTestValidator.validateAxis turned) turned in
  let expected := of_Z (if n <=? 90 then n + 90 else n - 90) in
  valid a && is_finite a && negb (scaled a =? 0) &&
  (scaled a =? scaled expected).

(** Equality of two numbers as data (so that [-0] and [+0] differ). *)
Definition same (a b : number) : bool :=
  match a, b with
  | S754_zero s, S754_zero t => Bool.eqb s t
  | S754_infinity s, S754_infinity t => Bool.eqb s t
  | S754_nan, S754_nan => true
  | S754_finite s m e, S754_finite t n f =>
      Bool.eqb s t && Pos.eqb m n && Z.eqb e f
  | _, _ => false
  end.

(** The formatted power of [z] is read by [Number] as [z]. *)
Definition parsed_back (z : number) : bool :=
  let n := StringToNumber (EyeTestValidator.formatPower z) in
  valid n && is_finite n && (scaled n =? scaled z).

(** Compensating the power [D] for the vertex distance [b] gives a finite
    power: closer to zero for a minus lens, larger for a plus lens. *)
Definition compensation_checked (b D : number) : bool :=
  let p := ContactLensValidator.sphericWithoutVertexDistance D b in
  valid p && is_finite p &&
  (if lt D (of_Z 0) then lt D p && lt p (of_Z 0)
   else if gt D (of_Z 0) then lt D p
   else strict_eq p (of_Z 0)).

(** So it is for the vertex distance [b] and every power from -60 to 60. *)
Definition compensations_checked (_ : Z) (b : number) : bool :=
  forallb (fun i =>
             let k := -240 + Z.of_nat i in
             compensation_checked b (of_ratio k 4) &&
             (negb (k =? 0) || compensation_checked b (S754_zero true)))
          (seq 0 481).

(** Half of [k2] quarters is [k2] eighths, formed without rounding. *)
Definition half_checked (k2 : Z) : bool :=
  let h := div (of_ratio k2 4) (of_Z 2) in
  valid h && is_finite h && (scaled h =? k2 * 2 ^ 1071).

(** Printing [j] eighths with two decimals and reading the text back gives
    the hundredths nearest to it, away from zero on a tie; rounding that to
    a quarter gives the quarter nearest to [j] eighths, away from zero on a
    tie. *)
Definition equivalent_checked (j : Z) : bool :=
  let v := parseFloat (toFixed (of_ratio j 8) 2) in
  valid (of_ratio j 8) && is_finite (of_ratio j 8) &&
  (scaled (of_ratio j 8) =? j * 2 ^ 1071) &&
  same v (of_ratio (round_half_away (25 * j # 2)) 100) &&
  same (ContactLensValidator.roundToNearestQuarter v)
       (of_ratio (round_half_away (j # 2)) 4).

End Reference.

(** ** Properties *)

Import JS Reference.

Module E := EyeTestValidator.
Module C := ContactLensValidator.

(** *** Comparisons *)

Lemma SFcompare_swap (x y : number) :
  SFcompare y x = option_map CompOpp (SFcompare x y).
Proof.
  destruct x as [sx | sx | | sx mx ex], y as [sy | sy | | sy my ey];
    simpl; try reflexivity;
    try (destruct sx; reflexivity); try (destruct sy; reflexivity);
    try (destruct sx, sy; reflexivity).
  pose proof (Pos.compare_antisym mx my) as Hm. unfold Pos.compare in Hm.
  destruct sx, sy; simpl; try reflexivity;
    rewrite (Z.compare_antisym ex ey), Hm;
    destruct (ex ?= ey); simpl; reflexivity.
Qed.

Lemma le_not_gt (x y : number) : le x y = true -> gt x y = false.
Proof.
  unfold le, gt, SFleb, SFltb. rewrite (SFcompare_swap x y).
  destruct (SFcompare x y) as [[ | | ] | ]; simpl; congruence.
Qed.

(** *** Transposition *)

Lemma falsy_or_nonpositive (c : number) :
  negb (truthy c) || le c (of_Z 0) = true <->
  isNaN c = true \/ le c (of_Z 0) = true.
Proof.
  destruct c as [s | s | | s m e]; simpl; try destruct s; simpl;
    intuition congruence.
Qed.

(** C2 (as amended). [transformSphCylAxis(sph, cyl, axis)] is null exactly
    when [cyl] is NaN or [cyl <= 0]; otherwise the sphere is
    [formatPower(sph + cyl)], the cylinder [formatPower(-|cyl|)], and the
    axis is [axis + 90] when [axis <= 90] and [axis - 90] when [axis > 90],
    passed through [validateAxis] and kept as computed when that returns
    null. [transformSphCylAxis(-2, 1, 90)] is
    [{sph: "-01.00", cyl: "-01.00", axis: 180}], and a zero cylinder gives
    null whatever the sphere and axis. *)
Theorem transformSphCylAxis_spec (sph cyl axis : number) :
  (E.transformSphCylAxis sph cyl axis = None <->
     isNaN cyl = true \/ le cyl (of_Z 0) = true) /\
  (forall r, E.transformSphCylAxis sph cyl axis = Some r ->
     let turned :=
       if gt axis (of_Z 90) then sub axis (of_Z 90) else add axis (of_Z 90) in
     E.sph r = E.formatPower (add sph cyl) /\
     E.cyl r = E.formatPower (neg (Math_abs cyl)) /\
     E.axis r = nullish (E.validateAxis turned) turned /\
     (le axis (of_Z 90) = true -> turned = add axis (of_Z 90)) /\
     (gt axis (of_Z 90) = true -> turned = sub axis (of_Z 90))) /\
  E.transformSphCylAxis (of_Z (-2)) (of_Z 1) (of_Z 90) =
    Some {| E.sph := "-01.00"; E.cyl := "-01.00"; E.axis := of_Z 180 |} /\
  E.transformSphCylAxis sph (of_Z 0) axis = None /\
  E.transformSphCylAxis sph (S754_zero true) axis = None.
Proof.
  split; [| split; [| split; [| split]]].
  - unfold E.transformSphCylAxis.
    rewrite <- falsy_or_nonpositive.
    destruct (negb (truthy cyl) || le cyl (of_Z 0)); split;
      intros; congruence.
  - intros r. unfold E.transformSphCylAxis.
    destruct (negb (truthy cyl) || le cyl (of_Z 0)); [discriminate |].
    intros [= <-]. cbn [E.sph E.cyl E.axis].
    repeat split; trivial.
    + intros H. now rewrite (le_not_gt _ _ H).
    + intros H. now rewrite H.
  - vm_compute. reflexivity.
  - reflexivity.
  - reflexivity.
Qed.

(** *** Whole-prescription validation *)

(** C7. When the sphere/cylinder/axis combination check fails,
    [validatePrescription] returns at once: [valid] is false, [errors]
    holds the combination message alone and [formatted] is empty. This is
    so for [{sphere: -3.5, cylinder: 1.0, axis: null}]. *)
Theorem validatePrescription_combo_failure :
  (forall data : gmap string value,
     E.checkSphCylAxisCombo
       (prop data "sphere") (prop data "cylinder") (prop data "axis") = false ->
     E.validatePrescription data =
       {| E.valid := false; E.errors := [E.combo_message]; E.formatted := ∅ |}) /\
  E.validatePrescription
    (object [("sphere", VNum (of_decimal (-35) (-1)));
             ("cylinder", VNum (of_Z 1)); ("axis", VNull)]) =
    {| E.valid := false;
       E.errors := ["CYL and AXIS must be entered together, or both left empty."];
       E.formatted := ∅ |}.
Proof.
  split.
  - intros data H. unfold E.validatePrescription. now rewrite H.
  - vm_compute. reflexivity.
Qed.

(** C10. A cylinder that is supplied with the numeric value 0 counts as
    absent in [checkSphCylAxisCombo]: with a sphere and an axis supplied the
    check fails and [validatePrescription] returns the combination error;
    with a sphere supplied and no axis the check passes. *)
Theorem zero_cylinder_counts_as_absent
  (data : gmap string value) (sph cyl axis : value)
  (Hsph : E.supplied sph = true)
  (Hcyl : strict_eq (ToNumber cyl) (of_Z 0) = true) :
  E.checkSphCylAxisCombo sph cyl axis = E.checkSphCylAxisCombo sph VNull axis /\
  (E.supplied axis = true -> E.checkSphCylAxisCombo sph cyl axis = false) /\
  (E.supplied axis = false -> E.checkSphCylAxisCombo sph cyl axis = true) /\
  (prop data "sphere" = sph -> prop data "cylinder" = cyl ->
   prop data "axis" = axis -> E.supplied axis = true ->
   E.validatePrescription data =
     {| E.valid := false; E.errors := [E.combo_message]; E.formatted := ∅ |}).
Proof.
  assert (Hcombo : E.checkSphCylAxisCombo sph cyl axis = negb (E.supplied axis)).
  { unfold E.checkSphCylAxisCombo. rewrite Hsph.
    destruct (E.supplied cyl); [rewrite Hcyl |];
      destruct (E.supplied axis); reflexivity. }
  repeat split.
  - rewrite Hcombo. unfold E.checkSphCylAxisCombo. rewrite Hsph.
    destruct (E.supplied axis); reflexivity.
  - intros H. now rewrite Hcombo, H.
  - intros H. now rewrite Hcombo, H.
  - intros <- <- <- H. unfold E.validatePrescription.
    now rewrite Hcombo, H.
Qed.

Lemma zero_cylinder_counts_as_absent_witness :
  let data := object [("sphere", VNum (of_decimal (-35) (-1)));
                      ("cylinder", VNum (of_Z 0)); ("axis", VNum (of_Z 90))] in
  E.checkSphCylAxisCombo (prop data "sphere") (prop data "cylinder")
    (prop data "axis") = false /\
  E.validatePrescription data =
    {| E.valid := false; E.errors := [E.combo_message]; E.formatted := ∅ |}.
Proof.
  intros data.
  destruct (zero_cylinder_counts_as_absent data
              (prop data "sphere") (prop data "cylinder") (prop data "axis")
              eq_refl eq_refl) as (_ & Hfail & _ & Hreject).
  split.
  - apply Hfail. reflexivity.
  - apply Hreject; reflexivity.
Defined.

(** C8, at the failing input. [validatePD(65.5)] returns 65.5, which is
    not an integer. *)
Theorem validatePD_accepts_a_non_integer :
  E.validatePD (of_decimal 655 (-1)) = Some (of_decimal 655 (-1)) /\
  exact (of_decimal 655 (-1)) == 131 # 2.
Proof. split; vm_compute; reflexivity. Qed.

(** *** Contact-lens conversion *)

(** C3 (as amended). [convertToSpheric] takes as total sphere the
    spherical equivalent rounded to hundredths ([sph + cyl / 2], rendered
    with two decimals and read back) when the cylinder is not 0 and the
    sphere otherwise, replaces it by
    [D / (1 - (bv / 1000) * D)] exactly when [|D| > 4], and rounds the
    outcome to a quarter for [SPH]; [Exact SPH] is the unrounded outcome
    and [AX] is empty. For [{SPH: -7, CY: -1, AX: 90, BV: 12}] the result
    has [SPH = "-07.00"], [Exact SPH = "-06.88"] and [AX = ""]. *)
Theorem convertToSpheric_spec :
  (forall data : gmap string value,
     let sph := input data "SPH" "0" (of_Z 0) in
     let cyl := input data "CY" "0" (of_Z 0) in
     let bv := input data "BV" "12" (of_Z 12) in
     let total :=
       if strict_eq (Math_abs cyl) (of_Z 0) then sph
       else parseFloat (toFixed (add sph (div cyl (of_Z 2))) 2) in
     let lens :=
       if gt (Math_abs total) (of_Z 4)
       then div total (sub (of_Z 1) (mul (div bv (of_Z 1000)) total))
       else total in
     C.convertToSpheric data !! "SPH" =
       Some (C.formatNumberCustom (VNum (C.roundToNearestQuarter lens))) /\
     C.convertToSpheric data !! "Exact SPH" = Some (VStr (C.formatPower lens)) /\
     C.convertToSpheric data !! "AX" = Some (VStr "") /\
     C.convertToSpheric data !! "BV" = Some (VNum bv)) /\
  (let r := C.convertToSpheric
              (object [("SPH", VNum (of_Z (-7))); ("CY", VNum (of_Z (-1)));
                       ("AX", VNum (of_Z 90)); ("BV", VNum (of_Z 12))]) in
   r !! "SPH" = Some (VStr "-07.00") /\
   r !! "Exact SPH" = Some (VStr "-06.88") /\
   r !! "AX" = Some (VStr "")).
Proof.
  split.
  - intros data sph cyl bv total lens.
    assert (Hlens : lens =
      (if gt (Math_abs
                (if negb (strict_eq (Math_abs cyl) (of_Z 0))
                 then C.sphericalEquivalent sph cyl else sph)) (of_Z 4)
       then C.sphericWithoutVertexDistance
              (if negb (strict_eq (Math_abs cyl) (of_Z 0))
               then C.sphericalEquivalent sph cyl else sph) bv
       else if negb (strict_eq (Math_abs cyl) (of_Z 0))
            then C.sphericalEquivalent sph cyl else sph)).
    { subst lens total. unfold C.sphericalEquivalent, C.sphericWithoutVertexDistance.
      destruct (strict_eq (Math_abs cyl) (of_Z 0)); reflexivity. }
    unfold C.convertToSpheric, C.formatResultToQuarter.
    fold (input data "SPH" "0" (of_Z 0)) (input data "CY" "0" (of_Z 0))
         (input data "BV" "12" (of_Z 12)).
    fold sph cyl bv. rewrite <- Hlens.
    split; [| split; [| split]].
    + rewrite !lookup_insert_ne by discriminate.
      rewrite lookup_fmap, lookup_insert_ne by discriminate.
      now rewrite lookup_insert_eq.
    + rewrite !lookup_insert_ne by discriminate. now rewrite lookup_insert_eq.
    + rewrite lookup_insert_ne by discriminate. now rewrite lookup_insert_eq.
    + now rewrite lookup_insert_eq.
  - vm_compute. repeat split.
Qed.

(** C4. [convertToToric] compensates the two principal meridians
    separately: the sphere power is the compensated sphere, the cylinder
    power is the compensated [sph + cyl] minus the sphere power, each is
    rounded to a quarter on its own, and [AX] is the axis printed without
    decimals. For [{SPH: -5, CY: -1, AX: 90, BV: 12}] the result has
    [SPH = "-04.75"], [CY = "-01.00"] and [AX = "90"]. *)
Theorem convertToToric_spec :
  (forall data : gmap string value,
     let sph := input data "SPH" "0" (of_Z 0) in
     let cyl := input data "CY" "0" (of_Z 0) in
     let ax := input data "AX" "0" (of_Z 0) in
     let bv := input data "BV" "12" (of_Z 12) in
     let compensate (D : number) :=
       div D (sub (of_Z 1) (mul (div bv (of_Z 1000)) D)) in
     let spherePower := compensate sph in
     let cylinderPower := sub (compensate (add sph cyl)) spherePower in
     C.convertToToric data !! "SPH" =
       Some (C.formatNumberCustom (VNum (C.roundToNearestQuarter spherePower))) /\
     C.convertToToric data !! "CY" =
       Some (C.formatNumberCustom (VNum (C.roundToNearestQuarter cylinderPower))) /\
     C.convertToToric data !! "AX" = Some (VStr (toFixed ax 0)) /\
     C.convertToToric data !! "Exact SPH" = Some (VStr (C.formatPower spherePower)) /\
     C.convertToToric data !! "Exact CY" = Some (VStr (C.formatPower cylinderPower)) /\
     C.convertToToric data !! "BV" = Some (VNum bv)) /\
  (let r := C.convertToToric
              (object [("SPH", VNum (of_Z (-5))); ("CY", VNum (of_Z (-1)));
                       ("AX", VNum (of_Z 90)); ("BV", VNum (of_Z 12))]) in
   r !! "SPH" = Some (VStr "-04.75") /\
   r !! "CY" = Some (VStr "-01.00") /\
   r !! "AX" = Some (VStr "90")).
Proof.
  split.
  - intros data sph cyl ax bv compensate spherePower cylinderPower.
    unfold C.convertToToric, C.formatResultToQuarter,
      C.sphericWithoutVertexDistance.
    fold (input data "SPH" "0" (of_Z 0)) (input data "CY" "0" (of_Z 0))
         (input data "AX" "0" (of_Z 0)) (input data "BV" "12" (of_Z 12)).
    fold sph cyl ax bv. fold (compensate sph) (compensate (add sph cyl)).
    fold spherePower. fold cylinderPower.
    split; [| split; [| split; [| split; [| split]]]].
    + rewrite !lookup_insert_ne by discriminate.
      rewrite lookup_fmap, !lookup_insert_ne by discriminate.
      now rewrite lookup_insert_eq.
    + rewrite !lookup_insert_ne by discriminate.
      rewrite lookup_fmap, lookup_insert_ne by discriminate.
      now rewrite lookup_insert_eq.
    + rewrite !lookup_insert_ne by discriminate. now rewrite lookup_insert_eq.
    + rewrite !lookup_insert_ne by discriminate. now rewrite lookup_insert_eq.
    + rewrite lookup_insert_ne by discriminate. now rewrite lookup_insert_eq.
    + now rewrite lookup_insert_eq.
  - vm_compute. repeat split.
Qed.

(** *** Where the code departs from the wording *)

(** C2 fails at a NaN cylinder: the result is null although [NaN <= 0] is
    false. *)
Lemma transformSphCylAxis_null_on_NaN :
  E.transformSphCylAxis (of_Z (-2)) NaN (of_Z 90) = None /\
  le NaN (of_Z 0) = false.
Proof. split; reflexivity. Qed.

(** C3 fails where rounding the spherical equivalent to hundredths
    matters. For [{SPH: 8.5, CY: 0.25, BV: 12}] the equivalent 8.625 is
    first rounded to 8.63, which compensates to ["+09.75"], while 8.625
    itself compensates to ["+09.50"]. For [{SPH: 4, CY: 0.01}] the
    equivalent 4.005 exceeds 4, but it is rounded to 4 and not
    compensated. *)
Lemma convertToSpheric_rounds_the_equivalent :
  (let data := object [("SPH", VNum (of_decimal 85 (-1)));
                       ("CY", VNum (of_decimal 25 (-2)));
                       ("BV", VNum (of_Z 12))] in
   C.formatNumberCustom
     (VNum (C.roundToNearestQuarter
              (lens_power_as_worded (of_decimal 85 (-1)) (of_decimal 25 (-2))
                 (of_Z 12)))) = VStr "+09.50" /\
   C.convertToSpheric data !! "SPH" = Some (VStr "+09.75")) /\
  (let data := object [("SPH", VNum (of_Z 4));
                       ("CY", VNum (of_decimal 1 (-2)))] in
   gt (Math_abs (add (of_Z 4) (div (of_decimal 1 (-2)) (of_Z 2)))) (of_Z 4)
   = true /\
   C.formatPower
     (lens_power_as_worded (of_Z 4) (of_decimal 1 (-2)) (of_Z 12))
   = "+04.21"%string /\
   C.convertToSpheric data !! "Exact SPH" = Some (VStr "+04.00") /\
   C.convertToSpheric data !! "SPH" = Some (VStr "+04.00")).
Proof. repeat split; vm_compute; reflexivity. Qed.

(** C1 fails at 0.251: its hundredths round to 25, so the validator's
    helper accepts it, while the converter's helper, which takes the
    remainder by 0.25 directly, rejects it. *)
Lemma isMultipleOfQuarter_helpers_differ :
  is_finite (of_decimal 251 (-3)) = true /\
  hundredths_divisible_by_25 (of_decimal 251 (-3)) /\
  E.isMultipleOfQuarter (of_decimal 251 (-3)) = true /\
  C.isMultipleOfQuarter (of_decimal 251 (-3)) = false.
Proof. repeat split. Qed.

(** C5 fails at -0.125: four times it is -0.5, which rounds away from zero
    to -1, that is to -0.25, but [roundToNearestQuarter(-0.125)] is [-0]. *)
Lemma roundToNearestQuarter_tie_below_zero :
  round_half_away (exact (of_decimal (-125) (-3)) * 4) = -1 /\
  C.roundToNearestQuarter (of_decimal (-125) (-3)) = S754_zero true /\
  ~ exact (C.roundToNearestQuarter (of_decimal (-125) (-3))) ==
      round_half_away (exact (of_decimal (-125) (-3)) * 4) # 4.
Proof. repeat split. vm_compute. discriminate. Qed.

(** C6 fails at 0.251, which is not a multiple of 0.25 and is accepted. *)
Lemma validateSPH_accepts_a_non_multiple :
  ~ quarter_multiple (exact (of_decimal 251 (-3))) /\
  quarter_multipleb (exact (of_decimal 251 (-3))) = false /\
  (inject_Z (-60) <= exact (of_decimal 251 (-3)) <= inject_Z 60)%Q /\
  E.validateSPH (of_decimal 251 (-3)) = Some "+00.25"%string.
Proof.
  split; [| repeat split; vm_compute; (reflexivity || discriminate)].
  intros [k Hk].
  change (exact (of_decimal 251 (-3)))
    with (4521614025879978 # 18014398509481984) in Hk.
  unfold Qeq in Hk. cbn [Qnum Qden] in Hk. lia.
Qed.

(** C9 fails at 100 and at 9.996: three digits come before the point. *)
Lemma formatPower_three_integer_digits :
  E.formatPower (of_Z 100) = "+100.00"%string /\
  C.formatPower (of_Z 100) = "+100.00"%string /\
  power_pattern "+100.00" = false /\
  E.formatPower (of_decimal 9996 (-3)) = "+010.00"%string /\
  C.formatPower (of_decimal 9996 (-3)) = "+010.00"%string /\
  power_pattern "+010.00" = false.
Proof. repeat split. Qed.

(** *** Binary64 representation *)

Section Representation.

Lemma fexp_value (k : Z) : fexp prec emax k = Z.max (k - 53) (-1074).
Proof. reflexivity. Qed.

Lemma digits2_pos_bounds (m : positive) :
  2 ^ (Zpos (digits2_pos m) - 1) <= Zpos m < 2 ^ Zpos (digits2_pos m).
Proof.
  induction m as [p IH | p IH | ]; cbn [digits2_pos].
  - rewrite Pos2Z.inj_succ, Z.pow_succ_r by lia.
    replace (Z.succ (Zpos (digits2_pos p)) - 1) with
      (Z.succ (Zpos (digits2_pos p) - 1)) by lia.
    rewrite Z.pow_succ_r by lia. lia.
  - rewrite Pos2Z.inj_succ, Z.pow_succ_r by lia.
    replace (Z.succ (Zpos (digits2_pos p)) - 1) with
      (Z.succ (Zpos (digits2_pos p) - 1)) by lia.
    rewrite Z.pow_succ_r by lia. lia.
  - cbn. lia.
Qed.

Lemma digits2_pos_le (m : positive) (k : Z) :
  Zpos m < 2 ^ k -> Zpos (digits2_pos m) <= k.
Proof.
  intros H. destruct (Z.le_gt_cases (Zpos (digits2_pos m)) k) as [ | Hk]; trivial.
  pose proof (digits2_pos_bounds m) as [Hlo _].
  assert (0 <= k).
  { destruct (Z.neg_nonneg_cases k); trivial.
    rewrite Z.pow_neg_r in H by trivial. lia. }
  assert (2 ^ k <= 2 ^ (Zpos (digits2_pos m) - 1))
    by (apply Z.pow_le_mono_r; lia).
  lia.
Qed.

Lemma digits2_pos_ge (m : positive) (k : Z) :
  2 ^ k <= Zpos m -> k < Zpos (digits2_pos m).
Proof.
  intros H. destruct (Z.lt_ge_cases k (Zpos (digits2_pos m))) as [ | Hk]; trivial.
  pose proof (digits2_pos_bounds m) as [_ Hhi].
  assert (2 ^ Zpos (digits2_pos m) <= 2 ^ k)
    by (apply Z.pow_le_mono_r; lia).
  lia.
Qed.

(** Shifting a mantissa to the left. *)
Lemma iter_xO_value (m d : positive) :
  Zpos (Pos.iter xO m d) = Zpos m * 2 ^ Zpos d.
Proof.
  induction d as [ | d IH] using Pos.peano_ind.
  - cbn. lia.
  - rewrite Pos.iter_succ, Pos2Z.inj_succ, Z.pow_succ_r by lia.
    change (Zpos (Pos.iter xO m d)~0) with (2 * Zpos (Pos.iter xO m d)).
    rewrite IH. ring.
Qed.

Lemma iter_xO_digits (m d : positive) :
  digits2_pos (Pos.iter xO m d) = (digits2_pos m + d)%positive.
Proof.
  induction d as [ | d IH] using Pos.peano_ind.
  - cbn. lia.
  - rewrite Pos.iter_succ. cbn [digits2_pos]. rewrite IH. lia.
Qed.

(** What it means for a mantissa and an exponent to be the canonical
    ones. *)
Lemma bounded_inv (m : positive) (e : Z) :
  bounded prec emax m e = true ->
  -1074 <= e <= 971 /\ Zpos (digits2_pos m) <= 53 /\
  (e = -1074 \/ Zpos (digits2_pos m) = 53).
Proof.
  unfold bounded, canonical_mantissa. rewrite fexp_value.
  intros H. apply andb_prop in H as [H1 H2].
  apply Z.eqb_eq in H1. apply Z.leb_le in H2.
  change (emax - prec) with 971 in H2. lia.
Qed.

Lemma bounded_mantissa (m : positive) (e : Z) :
  bounded prec emax m e = true -> Zpos m < 2 ^ 53.
Proof.
  intros H. apply bounded_inv in H as (_ & Hd & _).
  pose proof (digits2_pos_bounds m) as [_ Hhi].
  assert (2 ^ Zpos (digits2_pos m) <= 2 ^ 53) by (apply Z.pow_le_mono_r; lia).
  lia.
Qed.

End Representation.

(** *** Exact values and the order *)

Section Order.

Lemma pow2_pos (k : Z) : 0 <= k -> 0 < 2 ^ k.
Proof. intros. apply Z.pow_pos_nonneg; lia. Qed.

Lemma exact_scaled (x : number) :
  valid x = true -> exact x == scaled x # (2 ^ 1074)%positive.
Proof.
  destruct x as [s | s | | s m e]; try reflexivity.
  intros H. apply bounded_inv in H as (He & _).
  destruct e as [ | k | k]; unfold exact, scaled, Qeq; cbn [Qnum Qden];
    rewrite ?Pos2Z.inj_pow.
  - rewrite Z.add_0_l. lia.
  - rewrite Z.pow_add_r by lia. lia.
  - replace (2 ^ 1074) with (2 ^ (Zneg k + 1074) * 2 ^ Zpos k).
    + ring.
    + rewrite <- Z.pow_add_r by lia. f_equal. lia.
Qed.

Lemma compare_magnitude (m1 m2 : positive) (e1 e2 : Z) :
  bounded prec emax m1 e1 = true -> bounded prec emax m2 e2 = true ->
  match e1 ?= e2 with
  | Eq => Pos.compare_cont Eq m1 m2
  | Lt => Lt
  | Gt => Gt
  end = (Zpos m1 * 2 ^ (e1 + 1074) ?= Zpos m2 * 2 ^ (e2 + 1074)).
Proof.
  intros H1 H2.
  pose proof (bounded_mantissa _ _ H1) as Hm1.
  pose proof (bounded_mantissa _ _ H2) as Hm2.
  apply bounded_inv in H1 as (He1 & Hd1 & Hn1).
  apply bounded_inv in H2 as (He2 & Hd2 & Hn2).
  assert (Hlow : forall m, Zpos (digits2_pos m) = 53 -> 2 ^ 52 <= Zpos m).
  { intros m Hm. pose proof (digits2_pos_bounds m) as [Hlo _].
    now rewrite Hm in Hlo. }
  destruct (Z.compare_spec e1 e2) as [-> | Hlt | Hgt].
  - rewrite <- Zmult_compare_compat_r by (apply Z.lt_gt, pow2_pos; lia).
    reflexivity.
  - symmetry. apply Z.compare_lt_iff.
    replace (e2 + 1074) with ((e2 - e1) + (e1 + 1074)) by lia.
    rewrite (Z.pow_add_r 2 (e2 - e1) (e1 + 1074)) by lia.
    assert (2 ^ 1 <= 2 ^ (e2 - e1)) by (apply Z.pow_le_mono_r; lia).
    assert (2 ^ 52 <= Zpos m2) by (apply Hlow; lia).
    assert (Zpos m1 < Zpos m2 * 2 ^ (e2 - e1)).
    { change (2 ^ 1) with 2 in *. change (2 ^ 52) with 4503599627370496 in *.
      change (2 ^ 53) with 9007199254740992 in *. nia. }
    rewrite Z.mul_assoc. apply Z.mul_lt_mono_pos_r; [apply pow2_pos; lia | trivial].
  - symmetry. apply Z.compare_gt_iff.
    replace (e1 + 1074) with ((e1 - e2) + (e2 + 1074)) by lia.
    rewrite (Z.pow_add_r 2 (e1 - e2) (e2 + 1074)) by lia.
    assert (2 ^ 1 <= 2 ^ (e1 - e2)) by (apply Z.pow_le_mono_r; lia).
    assert (2 ^ 52 <= Zpos m1) by (apply Hlow; lia).
    assert (Zpos m2 < Zpos m1 * 2 ^ (e1 - e2)).
    { change (2 ^ 1) with 2 in *. change (2 ^ 52) with 4503599627370496 in *.
      change (2 ^ 53) with 9007199254740992 in *. nia. }
    rewrite Z.mul_assoc.
    apply Z.mul_lt_mono_pos_r; [apply pow2_pos; lia | trivial].
Qed.

(** On well-formed finite values the comparison of the language is the
    comparison of the exact values. *)
Lemma SFcompare_scaled (x y : number) :
  valid x = true -> valid y = true ->
  is_finite x = true -> is_finite y = true ->
  SFcompare x y = Some (scaled x ?= scaled y).
Proof.
  destruct x as [sx | sx | | sx mx ex], y as [sy | sy | | sy my ey];
    try discriminate; intros Vx Vy _ _; cbn [SFcompare scaled]; f_equal.
  - pose proof (bounded_inv _ _ Vy) as (He & _).
    pose proof (pow2_pos (ey + 1074) ltac:(lia)).
    destruct sy; cbn [signed cond_Zopp]; symmetry;
      [apply Z.compare_gt_iff | apply Z.compare_lt_iff]; nia.
  - pose proof (bounded_inv _ _ Vx) as (He & _).
    pose proof (pow2_pos (ex + 1074) ltac:(lia)).
    destruct sx; cbn [signed cond_Zopp]; symmetry;
      [apply Z.compare_lt_iff | apply Z.compare_gt_iff]; nia.
  - pose proof (bounded_inv _ _ Vx) as (Hex & _).
    pose proof (bounded_inv _ _ Vy) as (Hey & _).
    pose proof (pow2_pos (ex + 1074) ltac:(lia)).
    pose proof (pow2_pos (ey + 1074) ltac:(lia)).
    pose proof (compare_magnitude mx my ex ey Vx Vy) as Hc.
    destruct sx, sy; cbn [signed cond_Zopp].
    + rewrite !Z.mul_opp_l, Z.compare_opp.
      rewrite (Z.compare_antisym (Zpos mx * 2 ^ (ex + 1074))), <- Hc.
      destruct (ex ?= ey); reflexivity.
    + symmetry. apply Z.compare_lt_iff. nia.
    + symmetry. apply Z.compare_gt_iff. nia.
    + exact Hc.
Qed.

End Order.

(** *** Rounding to binary64 *)

Section Rounding.

Lemma iter_pos_nat {A} (f : A -> A) (p : positive) (x : A) :
  SpecFloat.iter_pos f p x = Nat.iter (Pos.to_nat p) f x.
Proof.
  revert x. induction p as [p IH | p IH | ]; intros x; cbn [SpecFloat.iter_pos].
  - rewrite !IH, Pos2Nat.inj_xI.
    replace (S (2 * Pos.to_nat p)) with (Pos.to_nat p + S (Pos.to_nat p))%nat by lia.
    now rewrite Nat.iter_add, Nat.iter_succ_r.
  - rewrite !IH, Pos2Nat.inj_xO.
    replace (2 * Pos.to_nat p)%nat with (Pos.to_nat p + Pos.to_nat p)%nat by lia.
    now rewrite Nat.iter_add.
  - reflexivity.
Qed.

Lemma shr_1_m (mrs : shr_record) :
  0 <= shr_m mrs -> shr_m (shr_1 mrs) = shr_m mrs / 2.
Proof.
  destruct mrs as [m r s]. cbn [shr_m]. intros Hm.
  destruct m as [ | [p | p | ] | p]; cbn [shr_1 shr_m]; try lia.
  - reflexivity.
  - apply (Z.div_unique _ 2 _ 1); lia.
  - apply (Z.div_unique _ 2 _ 0); lia.
  - reflexivity.
Qed.

Lemma shr_iter_m (n : nat) (mrs : shr_record) :
  0 <= shr_m mrs ->
  shr_m (Nat.iter n shr_1 mrs) = shr_m mrs / 2 ^ Z.of_nat n.
Proof.
  intros Hm. induction n as [ | n IH].
  - cbn. now rewrite Z.div_1_r.
  - cbn [Nat.iter nat_rect]. rewrite shr_1_m.
    + change (nat_rect _ mrs (fun _ => shr_1) n) with (Nat.iter n shr_1 mrs).
      rewrite IH, Nat2Z.inj_succ, Z.pow_succ_r by lia.
      rewrite Z.div_div by (try apply pow2_pos; lia).
      f_equal. lia.
    + change (nat_rect _ mrs (fun _ => shr_1) n) with (Nat.iter n shr_1 mrs).
      rewrite IH. apply Z.div_pos; [trivial | apply pow2_pos; lia].
Qed.

Lemma shr_iter_exact (n : nat) (k : Z) :
  0 <= k ->
  Nat.iter n shr_1 (Build_shr_record (k * 2 ^ Z.of_nat n) false false) =
  Build_shr_record k false false.
Proof.
  intros Hk. revert k Hk. induction n as [ | n IH]; intros k Hk.
  - cbn [Nat.iter nat_rect]. f_equal. cbn. lia.
  - rewrite Nat.iter_succ_r.
    replace (shr_1 (Build_shr_record (k * 2 ^ Z.of_nat (S n)) false false))
      with (Build_shr_record (k * 2 ^ Z.of_nat n) false false).
    + now apply IH.
    + rewrite Nat2Z.inj_succ, Z.pow_succ_r by lia.
      pose proof (pow2_pos (Z.of_nat n) ltac:(lia)) as Hp.
      destruct (k * 2 ^ Z.of_nat n) as [ | q | q] eqn:E.
      * replace (k * (2 * 2 ^ Z.of_nat n)) with 0 by lia. reflexivity.
      * replace (k * (2 * 2 ^ Z.of_nat n)) with (Zpos q~0) by lia. reflexivity.
      * nia.
Qed.

(** A mantissa with trailing zeros loses them exactly. *)
Lemma shr_exact (k n e : Z) :
  0 <= k -> 0 <= n ->
  shr (Build_shr_record (k * 2 ^ n) false false) e n =
  (Build_shr_record k false false, e + n).
Proof.
  intros Hk Hn. destruct n as [ | p | p]; try lia.
  - cbn [shr]. rewrite Z.mul_1_r, Z.add_0_r. reflexivity.
  - cbn [shr]. rewrite iter_pos_nat.
    rewrite <- (positive_nat_Z p), shr_iter_exact by trivial.
    reflexivity.
Qed.

Lemma Zdigits2_shift (k : positive) (n : Z) :
  0 <= n -> Zdigits2 (Zpos k * 2 ^ n) = Zpos (digits2_pos k) + n.
Proof.
  intros Hn. destruct n as [ | p | p]; try lia.
  - rewrite Z.mul_1_r. cbn. lia.
  - rewrite <- iter_xO_value. cbn [Zdigits2]. rewrite iter_xO_digits. lia.
Qed.

(** Rounding a mantissa whose excess bits are all zero is exact. *)
Lemma binary_round_aux_exact (s : bool) (k : positive) (n e : Z) :
  0 <= n ->
  fexp prec emax (Zpos (digits2_pos k) + n + e) = e + n ->
  binary_round_aux prec emax s (Zpos k * 2 ^ n) e loc_Exact =
  if e + n <=? 971 then S754_finite s k (e + n) else S754_infinity s.
Proof.
  intros Hn Hf. unfold binary_round_aux, shr_fexp.
  rewrite Zdigits2_shift, Hf by trivial.
  replace (e + n - e) with n by lia.
  cbn [shr_record_of_loc]. rewrite shr_exact by lia.
  cbn [shr_m loc_of_shr_record round_nearest_even Zdigits2].
  replace (Zpos (digits2_pos k) + (e + n)) with (Zpos (digits2_pos k) + n + e) by lia.
  rewrite Hf, Z.sub_diag. cbn [shr_record_of_loc shr shr_m]. reflexivity.
Qed.

(** Normalising an integer mantissa that fits 53 bits is exact. *)
Lemma binary_round_exact (s : bool) (m : positive) (e : Z) :
  Zpos (digits2_pos m) <= 53 -> -1074 <= e ->
  exists mz ez,
    binary_round prec emax s m e =
      (if ez <=? 971 then S754_finite s mz ez else S754_infinity s) /\
    Zpos mz * 2 ^ (ez + 1074) = Zpos m * 2 ^ (e + 1074) /\
    bounded prec emax mz ez = (ez <=? 971) /\
    ez = fexp prec emax (Zpos (digits2_pos m) + e).
Proof.
  intros Hd He. unfold binary_round, shl_align.
  pose proof (fexp_value (Zpos (digits2_pos m) + e)) as Hf.
  destruct (fexp prec emax (Zpos (digits2_pos m) + e) - e) as [ | p | p] eqn:E;
    try lia.
  - exists m, e.
    pose proof (binary_round_aux_exact s m 0 e ltac:(lia)) as H.
    rewrite Z.mul_1_r, !Z.add_0_r in H. rewrite H by lia.
    repeat split; try lia.
    unfold bounded, canonical_mantissa.
    replace (fexp prec emax (Zpos (digits2_pos m) + e)) with e by lia.
    now rewrite Z.eqb_refl.
  - exists (Pos.iter xO m p), (fexp prec emax (Zpos (digits2_pos m) + e)).
    set (fe := fexp prec emax (Zpos (digits2_pos m) + e)) in *.
    assert (Hdz : Zpos (digits2_pos (Pos.iter xO m p)) + fe =
                  Zpos (digits2_pos m) + e)
      by (rewrite iter_xO_digits; lia).
    pose proof (binary_round_aux_exact s (Pos.iter xO m p) 0 fe ltac:(lia)) as H.
    rewrite Z.mul_1_r, !Z.add_0_r in H. rewrite H by (rewrite Hdz; reflexivity).
    repeat split.
    + rewrite iter_xO_value.
      replace (e + 1074) with (Zpos p + (fe + 1074)) by lia.
      rewrite (Z.pow_add_r 2 (Zpos p)) by lia. ring.
    + unfold bounded, canonical_mantissa. rewrite Hdz. fold fe.
      now rewrite Z.eqb_refl.
Qed.

Lemma round_nearest_even_nonneg (m : Z) (l : location) :
  0 <= m -> 0 <= round_nearest_even m l.
Proof.
  intros Hm. destruct l as [ | [ | | ]]; cbn [round_nearest_even]; try lia.
  destruct (Z.even m); lia.
Qed.

Lemma shr_fexp_m_nonneg (m e : Z) (l : location) :
  0 <= m -> 0 <= shr_m (fst (shr_fexp prec emax m e l)).
Proof.
  intros Hm. unfold shr_fexp, shr.
  assert (Hs : shr_m (shr_record_of_loc m l) = m)
    by (destruct l as [ | [ | | ]]; reflexivity).
  destruct (fexp prec emax (Zdigits2 m + e) - e) as [ | p | p]; cbn [fst];
    try (rewrite Hs; exact Hm).
  rewrite iter_pos_nat, shr_iter_m by (rewrite Hs; exact Hm).
  rewrite Hs. apply Z.div_pos; [trivial | apply pow2_pos; lia].
Qed.

Lemma shr_fexp_representable (m1 e1 : Z) (m : positive) :
  0 <= m1 ->
  shr_m (fst (shr_fexp prec emax m1 e1 loc_Exact)) = Zpos m ->
  Zpos (digits2_pos m) <= 53 /\
  -1074 <= snd (shr_fexp prec emax m1 e1 loc_Exact).
Proof.
  intros Hm1. unfold shr_fexp, shr. cbn [shr_record_of_loc].
  pose proof (fexp_value (Zdigits2 m1 + e1)) as Hf.
  destruct (fexp prec emax (Zdigits2 m1 + e1) - e1) as [ | p | p] eqn:E;
    cbn [fst snd shr_m].
  - intros ->. cbn [Zdigits2] in *. lia.
  - rewrite iter_pos_nat, shr_iter_m by exact Hm1. cbn [shr_m].
    rewrite positive_nat_Z. intros Hq.
    split; [| lia].
    destruct m1 as [ | q | q]; try lia.
    { rewrite Z.div_0_l in Hq by lia. discriminate. }
    cbn [Zdigits2] in *.
    pose proof (digits2_pos_bounds q) as [_ Hhi].
    pose proof (pow2_pos (Zpos p) ltac:(lia)) as Hp.
    assert (Hge : 2 ^ Zpos p <= Zpos q).
    { destruct (Z.le_gt_cases (2 ^ Zpos p) (Zpos q)); trivial.
      rewrite Z.div_small in Hq by lia. discriminate. }
    assert (Hpd : Zpos p < Zpos (digits2_pos q)) by (now apply digits2_pos_ge).
    apply Z.le_trans with (Zpos (digits2_pos q) - Zpos p); [| lia].
    apply digits2_pos_le. rewrite <- Hq.
    apply Z.div_lt_upper_bound; trivial.
    rewrite <- Z.pow_add_r by lia.
    now replace (Zpos p + (Zpos (digits2_pos q) - Zpos p))
      with (Zpos (digits2_pos q)) by lia.
  - intros ->. cbn [Zdigits2] in *. lia.
Qed.

(** Whatever is rounded, the outcome fits the format. *)
Lemma binary_round_aux_representable (s : bool) (mx ex : Z) (lx : location) :
  0 <= mx -> representable (binary_round_aux prec emax s mx ex lx) = true.
Proof.
  intros Hmx. unfold binary_round_aux.
  pose proof (shr_fexp_m_nonneg mx ex lx Hmx) as H1.
  destruct (shr_fexp prec emax mx ex lx) as [mrs1 e1]. cbn [fst] in H1.
  pose proof (round_nearest_even_nonneg _ (loc_of_shr_record mrs1) H1) as H2.
  pose proof (shr_fexp_representable
                (round_nearest_even (shr_m mrs1) (loc_of_shr_record mrs1)) e1) as H3.
  destruct (shr_fexp prec emax
              (round_nearest_even (shr_m mrs1) (loc_of_shr_record mrs1)) e1
              loc_Exact) as [mrs2 e2].
  cbn [fst snd] in H3.
  destruct (shr_m mrs2) as [ | m | m]; try reflexivity.
  destruct (e2 <=? emax - prec); try reflexivity.
  destruct (H3 m H2 eq_refl) as [Hd He].
  cbn [representable]. apply andb_true_intro. split; lia.
Qed.

Lemma mul_representable (x y : number) : representable (mul x y) = true.
Proof.
  destruct x as [sx | sx | | sx mx ex], y as [sy | sy | | sy my ey];
    try reflexivity.
  apply binary_round_aux_representable. lia.
Qed.

End Rounding.

(** *** Integers, [Math.round] and [%] *)

Section Integers.

Lemma valid_representable (x : number) :
  valid x = true -> representable x = true.
Proof.
  destruct x as [s | s | | s m e]; try reflexivity.
  intros H. apply bounded_inv in H as (He & Hd & _).
  cbn [representable]. apply andb_true_intro. split; lia.
Qed.

Lemma representable_inv (s : bool) (m : positive) (e : Z) :
  representable (S754_finite s m e) = true ->
  Zpos m < 2 ^ 53 /\ -1074 <= e.
Proof.
  cbn [representable]. intros H. apply andb_prop in H as [Hd He].
  apply Z.leb_le in Hd, He. split; [| exact He].
  pose proof (digits2_pos_bounds m) as [_ Hhi].
  assert (2 ^ Zpos (digits2_pos m) <= 2 ^ 53) by (apply Z.pow_le_mono_r; lia).
  lia.
Qed.

(** A nonzero integer below [2 ^ 53] in magnitude is a binary64 value. *)
Lemma of_Z_exact (n : Z) :
  n <> 0 -> Z.abs n < 2 ^ 53 ->
  exists m e,
    of_Z n = S754_finite (n <? 0) m e /\
    bounded prec emax m e = true /\
    scaled (of_Z n) = n * 2 ^ 1074.
Proof.
  intros Hn Hb.
  assert (Hcase : forall s p, Zpos p < 2 ^ 53 ->
            exists m e, binary_round prec emax s p 0 = S754_finite s m e /\
                        bounded prec emax m e = true /\
                        Zpos m * 2 ^ (e + 1074) = Zpos p * 2 ^ 1074).
  { intros s p Hp.
    pose proof (digits2_pos_le p 53 Hp) as Hd.
    destruct (binary_round_exact s p 0 Hd ltac:(lia)) as (mz & ez & Hr & Hv & Hbd & Hez).
    rewrite fexp_value in Hez.
    assert (Hle : (ez <=? 971) = true) by (apply Z.leb_le; lia).
    rewrite Hle in Hr, Hbd. exists mz, ez. repeat split; trivial. }
  unfold of_Z, binary_normalize.
  destruct n as [ | p | p]; [congruence | |].
  - destruct (Hcase false p ltac:(lia)) as (m & e & Hr & Hbd & Hv).
    exists m, e. rewrite Hr. repeat split; trivial.
  - destruct (Hcase true p ltac:(lia)) as (m & e & Hr & Hbd & Hv).
    exists m, e. rewrite Hr. repeat split; trivial.
    cbn [scaled signed cond_Zopp]. lia.
Qed.

(** The integer nearest to a value with a fractional part stays below
    [2 ^ 53]. *)
Lemma nearest_integer_bound (s : bool) (m k : positive) :
  Zpos m < 2 ^ 53 ->
  Z.abs ((2 * signed s m + 2 ^ Zpos k) / (2 * 2 ^ Zpos k)) < 2 ^ 53.
Proof.
  intros Hm.
  assert (Hp : 2 <= 2 ^ Zpos k).
  { change 2 with (2 ^ 1) at 1. apply Z.pow_le_mono_r; lia. }
  assert (Hv : - 2 ^ 53 < signed s m < 2 ^ 53)
    by (destruct s; cbn [signed cond_Zopp]; lia).
  change (2 ^ 53) with 9007199254740992 in *.
  assert ((2 * signed s m + 2 ^ Zpos k) / (2 * 2 ^ Zpos k) < 9007199254740992)
    by (apply Z.div_lt_upper_bound; nia).
  assert (- 9007199254740992 < (2 * signed s m + 2 ^ Zpos k) / (2 * 2 ^ Zpos k)).
  { apply Z.lt_le_trans with (- 9007199254740991); [lia |].
    apply Z.div_le_lower_bound; nia. }
  lia.
Qed.

Lemma half_up_integer (n : Z) : (n * 2 + 1) / 2 = n.
Proof. symmetry. apply (Z.div_unique _ 2 _ 1); lia. Qed.

(** [Math.round] returns the integer nearest to its argument, the larger
    one on a tie, exactly. *)
Lemma Math_round_scaled (y : number) :
  representable y = true -> is_finite y = true ->
  is_finite (Math_round y) = true /\
  representable (Math_round y) = true /\
  scaled (Math_round y) = round_half_up (exact y) * 2 ^ 1074.
Proof.
  destruct y as [s | s | | s m e]; try discriminate; intros Hr _.
  - repeat split.
  - destruct (representable_inv _ _ _ Hr) as [Hm He].
    unfold Math_round, round_half_up, exact.
    destruct e as [ | k | k]; cbn [Z.leb Z.compare].
    + repeat split; trivial.
      cbn [scaled]. unfold Qplus, Qfloor. cbn [Qnum Qden].
      change (2 ^ 0) with 1. change (Zpos (1 * 2)) with 2.
      rewrite !Z.mul_1_r, half_up_integer. reflexivity.
    + repeat split; trivial.
      cbn [scaled]. unfold Qplus, Qfloor. cbn [Qnum Qden].
      change (Zpos (1 * 2)) with 2.
      rewrite !Z.mul_1_r, half_up_integer.
      rewrite Z.pow_add_r by lia. ring.
    + unfold Qplus, Qfloor. cbn [Qnum Qden].
      change (- Zneg k) with (Zpos k). change (1 - Zneg k) with (1 + Zpos k).
      rewrite Pos2Z.inj_mul, Pos2Z.inj_pow.
      rewrite (Z.pow_add_r 2 1 (Zpos k)) by lia. change (2 ^ 1) with 2.
      rewrite Z.mul_1_l.
      replace (signed s m * 2 + 2 ^ Zpos k) with (2 * signed s m + 2 ^ Zpos k) by ring.
      replace (2 ^ Zpos k * 2) with (2 * 2 ^ Zpos k) by ring.
      set (N := (2 * signed s m + 2 ^ Zpos k) / (2 * 2 ^ Zpos k)).
      assert (HN : Z.abs N < 2 ^ 53) by (apply nearest_integer_bound; exact Hm).
      destruct N as [ | p | p] eqn:EN.
      * repeat split.
      * destruct (of_Z_exact (Zpos p) ltac:(lia) HN) as (mz & ez & Ho & Hbd & Hs).
        rewrite Hs, Ho. repeat split.
        apply (valid_representable (S754_finite _ mz ez)). exact Hbd.
      * destruct (of_Z_exact (Zneg p) ltac:(lia) HN) as (mz & ez & Ho & Hbd & Hs).
        rewrite Hs, Ho. repeat split.
        apply (valid_representable (S754_finite _ mz ez)). exact Hbd.
Qed.

Lemma finite_nonzero_test (s : bool) (m : positive) (e : Z) :
  strict_eq (if e <=? 971 then S754_finite s m e else S754_infinity s) (of_Z 0)
  = false.
Proof. destruct (e <=? 971), s; reflexivity. Qed.

(** The remainder is zero exactly when the divisor divides the dividend. *)
Lemma rem_zero_test (n : number) (sd : bool) (md : positive) (ed : Z) :
  is_finite n = true -> representable n = true ->
  representable (S754_finite sd md ed) = true ->
  strict_eq (rem n (S754_finite sd md ed)) (of_Z 0) = true <->
  (scaled (S754_finite sd md ed) | scaled n).
Proof.
  intros Hf Hn Hd.
  destruct n as [sn | sn | | sn mn en]; try discriminate.
  - cbn [rem scaled]. split; [intros _; apply Z.divide_0_r | reflexivity].
  - destruct (representable_inv _ _ _ Hn) as [Hmn Hen].
    destruct (representable_inv _ _ _ Hd) as [Hmd Hed].
    cbn [rem].
    set (ez := Z.min en ed).
    set (a := Zpos mn * 2 ^ (en - ez)).
    set (b := Zpos md * 2 ^ (ed - ez)).
    set (c := 2 ^ (ez + 1074)).
    assert (Hc : 0 < c) by (apply pow2_pos; lia).
    assert (Ha : 0 < a) by (pose proof (pow2_pos (en - ez) ltac:(lia)); nia).
    assert (Hb : 0 < b) by (pose proof (pow2_pos (ed - ez) ltac:(lia)); nia).
    assert (Hsn : scaled (S754_finite sn mn en) = cond_Zopp sn (a * c)).
    { cbn [scaled]. subst a c. rewrite <- Z.mul_assoc, <- Z.pow_add_r by lia.
      replace (en - ez + (ez + 1074)) with (en + 1074) by lia.
      destruct sn; cbn [signed cond_Zopp]; lia. }
    assert (Hsd : scaled (S754_finite sd md ed) = cond_Zopp sd (b * c)).
    { cbn [scaled]. subst b c. rewrite <- Z.mul_assoc, <- Z.pow_add_r by lia.
      replace (ed - ez + (ez + 1074)) with (ed + 1074) by lia.
      destruct sd; cbn [signed cond_Zopp]; lia. }
    assert (Hdiv : (scaled (S754_finite sd md ed) | scaled (S754_finite sn mn en))
                   <-> a mod b = 0).
    { rewrite Hsn, Hsd, Z.mod_divide by lia.
      rewrite <- (Z.mul_divide_cancel_r b a c) by lia.
      destruct sn, sd; cbn [cond_Zopp];
        rewrite ?Z.divide_opp_l, ?Z.divide_opp_r; reflexivity. }
    rewrite Hdiv.
    pose proof (Z.mod_pos_bound a b Hb) as Hr.
    destruct (a mod b) as [ | r | r] eqn:E; [| | lia].
    + split; reflexivity.
    + assert (Hrd : Zpos (digits2_pos r) <= 53).
      { apply digits2_pos_le.
        destruct (Z.le_gt_cases en ed).
        - apply Z.le_lt_trans with a; [| subst a ez].
          + rewrite <- E. apply Z.mod_le; lia.
          + rewrite Z.min_l, Z.sub_diag, Z.mul_1_r by lia. exact Hmn.
        - apply Z.lt_trans with b; [lia | subst b ez].
          rewrite Z.min_r, Z.sub_diag, Z.mul_1_r by lia. exact Hmd. }
      assert (Hez : -1074 <= ez) by (subst ez; lia).
      assert (Hnz : strict_eq
                (binary_normalize prec emax (cond_Zopp sn (Zpos r)) ez false)
                (of_Z 0) = false).
      { destruct sn; cbn [cond_Zopp];
          [change (- Zpos r) with (Zneg r) |]; cbn [binary_normalize];
        match goal with
        | |- context [binary_round _ _ ?s r ez] =>
            destruct (binary_round_exact s r ez Hrd Hez) as (mz & e' & -> & _)
        end; apply finite_nonzero_test. }
      rewrite Hnz. split; discriminate.
Qed.

End Integers.

(** *** The order on exact values *)

Section ExactOrder.

Variables x y : number.
Hypothesis Vx : valid x = true.
Hypothesis Vy : valid y = true.
Hypothesis Fx : is_finite x = true.
Hypothesis Fy : is_finite y = true.

Lemma Qcompare_exact : (exact x ?= exact y)%Q = (scaled x ?= scaled y).
Proof.
  rewrite (exact_scaled x Vx), (exact_scaled y Vy).
  unfold Qcompare. cbn [Qnum Qden].
  symmetry. apply Zmult_compare_compat_r. reflexivity.
Qed.

Lemma lt_exact : lt x y = true <-> (exact x < exact y)%Q.
Proof.
  unfold lt, SFltb. rewrite (SFcompare_scaled x y Vx Vy Fx Fy).
  rewrite Qlt_alt, Qcompare_exact.
  destruct (scaled x ?= scaled y); split; congruence.
Qed.

Lemma le_exact : le x y = true <-> (exact x <= exact y)%Q.
Proof.
  unfold le, SFleb. rewrite (SFcompare_scaled x y Vx Vy Fx Fy).
  rewrite Qle_alt, Qcompare_exact.
  destruct (scaled x ?= scaled y); split; congruence.
Qed.

End ExactOrder.

Lemma exact_abs (x : number) : exact (Math_abs x) = Qabs (exact x).
Proof.
  destruct x as [s | s | | s m e]; try reflexivity.
  destruct e as [ | k | k], s; try reflexivity;
    cbn [Math_abs SFabs exact signed cond_Zopp Qabs]; f_equal;
    pose proof (pow2_pos (Zpos k) ltac:(lia));
    rewrite ?Z.mul_opp_l, ?Z.abs_opp, Z.abs_eq; trivial; nia.
Qed.

(** *** The two quarter tests *)

Lemma mul_finite_l (x y : number) : is_finite (mul x y) = true -> is_finite x = true.
Proof. destruct x, y; try reflexivity; discriminate. Qed.

(** The validator's test reads, on integers: the hundredths of [x], rounded,
    are divisible by 25. *)
Lemma validator_quarter_test (x : number) :
  E.isMultipleOfQuarter x = true <-> hundredths_divisible_by_25 x.
Proof.
  unfold E.isMultipleOfQuarter, hundredths_divisible_by_25.
  pose proof (mul_representable x (of_Z 100)) as Hr.
  destruct (is_finite (mul x (of_Z 100))) eqn:Hf.
  - destruct (Math_round_scaled _ Hr Hf) as (Hf' & Hr' & Hs).
    change (of_Z 25) with (S754_finite false 7036874417766400 (-48)).
    rewrite rem_zero_test by trivial. rewrite Hs.
    replace (scaled (S754_finite false 7036874417766400 (-48)))
      with (25 * 2 ^ 1074) by (vm_compute; reflexivity).
    rewrite Z.mul_divide_cancel_r by (apply Z.pow_nonzero; lia).
    rewrite <- Z.mod_divide by lia. tauto.
  - split; [| intros [? _]; discriminate].
    destruct (mul x (of_Z 100)); discriminate.
Qed.

(** The converter's test reads: [x] is an integer number of quarters. *)
Lemma converter_quarter_test (x : number) :
  valid x = true ->
  C.isMultipleOfQuarter x = true <->
  is_finite x = true /\ quarter_multiple (exact x).
Proof.
  intros Vx. unfold C.isMultipleOfQuarter.
  change (of_decimal 25 (-2)) with (S754_finite false 4503599627370496 (-54)).
  destruct (is_finite x) eqn:Hf.
  - rewrite rem_zero_test by (trivial; now apply valid_representable).
    replace (scaled (S754_finite false 4503599627370496 (-54)))
      with (2 ^ 1072) by (vm_compute; reflexivity).
    unfold quarter_multiple.
    assert (Hq : forall k, exact x == k # 4 <-> scaled x = k * 2 ^ 1072).
    { intros k. rewrite (exact_scaled x Vx). unfold Qeq. cbn [Qnum Qden].
      rewrite Pos2Z.inj_pow.
      change (2 ^ 1074) with (2 ^ 1072 * 4). lia. }
    split.
    + intros [k Hk]. split; trivial. exists k. now apply Hq.
    + intros [_ [k Hk]]. exists k. now apply Hq.
  - split; [| intros [? _]; discriminate].
    destruct x; discriminate.
Qed.

Lemma of_Z_value (c : Z) :
  Z.abs c < 2 ^ 53 ->
  valid (of_Z c) = true /\ is_finite (of_Z c) = true /\
  exact (of_Z c) == inject_Z c.
Proof.
  intros Hc. destruct (Z.eq_dec c 0) as [-> | Hnz].
  - repeat split.
  - destruct (of_Z_exact c Hnz Hc) as (m & e & Ho & Hb & Hs).
    assert (Hv : valid (of_Z c) = true) by (rewrite Ho; exact Hb).
    repeat split; trivial.
    + now rewrite Ho.
    + rewrite (exact_scaled _ Hv), Hs. unfold Qeq, inject_Z. cbn [Qnum Qden].
      rewrite Pos2Z.inj_pow. ring.
Qed.

(** C1 (as amended). The validator's [isMultipleOfQuarter(x)] is true
    exactly when [round(x * 100) mod 25 = 0]. The converter's
    [isMultipleOfQuarter(x)] is true exactly when [x] is finite and an
    integer multiple of 0.25. *)
Theorem isMultipleOfQuarter_spec (x : number) (Vx : valid x = true) :
  (E.isMultipleOfQuarter x = true <-> hundredths_divisible_by_25 x) /\
  (C.isMultipleOfQuarter x = true <->
     is_finite x = true /\ quarter_multiple (exact x)).
Proof.
  split.
  - apply validator_quarter_test.
  - now apply converter_quarter_test.
Qed.

Lemma isMultipleOfQuarter_spec_witness :
  hundredths_divisible_by_25 (of_decimal 251 (-3)) /\
  ~ quarter_multiple (exact (of_decimal 251 (-3))).
Proof.
  destruct (isMultipleOfQuarter_spec (of_decimal 251 (-3))) as [HE HC];
    [vm_compute; reflexivity |].
  split.
  - apply HE. vm_compute. reflexivity.
  - intros Hq.
    assert (H : C.isMultipleOfQuarter (of_decimal 251 (-3)) = true)
      by (apply HC; split; [vm_compute; reflexivity | exact Hq]).
    vm_compute in H. discriminate H.
Defined.

(** *** Range checks *)

Lemma within_range (x : number) (lo hi : Z) :
  valid x = true -> is_finite x = true ->
  Z.abs lo < 2 ^ 53 -> Z.abs hi < 2 ^ 53 ->
  lt x (of_Z lo) || gt x (of_Z hi) = false <->
  (inject_Z lo <= exact x <= inject_Z hi)%Q.
Proof.
  intros Vx Fx Hlo Hhi.
  destruct (of_Z_value lo Hlo) as (Vlo & Flo & Elo).
  destruct (of_Z_value hi Hhi) as (Vhi & Fhi & Ehi).
  pose proof (lt_exact x (of_Z lo) Vx Vlo Fx Flo) as H1.
  pose proof (lt_exact (of_Z hi) x Vhi Vx Fhi Fx) as H2.
  rewrite Elo in H1. rewrite Ehi in H2. unfold gt.
  rewrite orb_false_iff. split.
  - intros [Ha Hb]. split; apply Qnot_lt_le; intros Hc.
    + apply H1 in Hc. congruence.
    + apply H2 in Hc. unfold lt in Hc. congruence.
  - intros [Ha Hb]. split.
    + destruct (lt x (of_Z lo)); trivial.
      exfalso. apply (Qle_not_lt _ _ Ha). now apply H1.
    + destruct (SFltb (of_Z hi) x) eqn:E; trivial.
      exfalso. apply (Qle_not_lt _ _ Hb). now apply H2.
Qed.

(** C6 (as amended). [validateSPH(x)] is not null exactly when
    [round(x * 100) mod 25 = 0] and [-60 <= x <= 60], and then it is
    [formatPower(x)]; -60 and 60 are accepted, -60.25 and 60.25 are
    rejected. *)
Theorem validateSPH_spec (x : number) (Vx : valid x = true) :
  (E.validateSPH x <> None <->
     hundredths_divisible_by_25 x /\ (inject_Z (-60) <= exact x <= inject_Z 60)%Q) /\
  (forall s, E.validateSPH x = Some s -> s = E.formatPower x) /\
  E.validateSPH (of_Z (-60)) = Some "-60.00"%string /\
  E.validateSPH (of_Z 60) = Some "+60.00"%string /\
  E.validateSPH (of_decimal (-6025) (-2)) = None /\
  E.validateSPH (of_decimal 6025 (-2)) = None.
Proof.
  split; [| split; [| repeat split; vm_compute; reflexivity]].
  - unfold E.validateSPH. rewrite <- validator_quarter_test.
    destruct (E.isMultipleOfQuarter x) eqn:HQ; cbn [negb].
    + assert (Fx : is_finite x = true).
      { apply validator_quarter_test in HQ as [Hf _].
        now apply mul_finite_l in Hf. }
      pose proof (within_range x (-60) 60 Vx Fx ltac:(vm_compute; reflexivity)
                    ltac:(vm_compute; reflexivity)) as Hr.
      destruct (lt x (of_Z (-60)) || gt x (of_Z 60)).
      * split; [congruence |]. intros [_ H]. apply Hr in H. discriminate.
      * split; [| congruence]. intros _. split; trivial. now apply Hr.
    + split; [congruence |]. intros [H _]. discriminate.
  - intros s. unfold E.validateSPH.
    destruct (negb (E.isMultipleOfQuarter x)); [discriminate |].
    destruct (lt x (of_Z (-60)) || gt x (of_Z 60)); [discriminate |].
    congruence.
Qed.

Lemma validateSPH_spec_witness :
  E.validateSPH (of_decimal 125 (-2)) = Some "+01.25"%string /\
  (inject_Z (-60) <= exact (of_decimal 125 (-2)) <= inject_Z 60)%Q.
Proof.
  destruct (validateSPH_spec (of_decimal 125 (-2))) as (H & _);
    [vm_compute; reflexivity |].
  split.
  - vm_compute. reflexivity.
  - apply H. vm_compute. discriminate.
Defined.

(** *** Formatting *)

Section Formatting.

(** A property checked on every natural number below a bound. *)
Lemma checked_below (P : N -> bool) (b : N) :
  forallb (fun i => P (N.of_nat i)) (seq 0 (N.to_nat b)) = true ->
  forall n, (n < b)%N -> P n = true.
Proof.
  intros H n Hn. rewrite forallb_forall in H.
  rewrite <- (N2Nat.id n). apply H. apply in_seq. lia.
Qed.

Lemma two_digits_integer (a : N) :
  (10 <= a < 100)%N -> two_digits (string_of_N a) = true.
Proof.
  intros [Hlo Hhi].
  pose proof (checked_below
    (fun a => (a <? 10)%N || two_digits (string_of_N a)) 100
    ltac:(vm_compute; reflexivity) a Hhi) as H.
  cbv beta in H. apply N.ltb_ge in Hlo. now rewrite Hlo in H.
Qed.

Lemma two_digits_padded (a : N) :
  (a < 10)%N -> two_digits (String "0" (string_of_N a)) = true.
Proof.
  apply (checked_below (fun a => two_digits (String "0" (string_of_N a))) 10).
  vm_compute. reflexivity.
Qed.

Lemma two_digits_fraction (b : N) :
  (b < 100)%N -> two_digits (pad_left 2 (string_of_N b)) = true.
Proof.
  apply (checked_below (fun b => two_digits (pad_left 2 (string_of_N b))) 100).
  vm_compute. reflexivity.
Qed.

Lemma pattern_assembled (c : ascii) (s1 s2 : string) :
  is_sign c = true -> two_digits s1 = true -> two_digits s2 = true ->
  power_pattern (String c (s1 +:+ String "." s2)) = true.
Proof.
  intros Hc H1 H2.
  destruct s1 as [ | a1 [ | b1 [ | ? ?]]]; try discriminate.
  destruct s2 as [ | a2 [ | b2 [ | ? ?]]]; try discriminate.
  cbn [two_digits] in H1, H2.
  apply andb_prop in H1 as [? ?]. apply andb_prop in H2 as [? ?].
  cbv [String.append]. cbn [power_pattern].
  repeat match goal with Hd : _ = true |- _ => rewrite Hd; clear Hd end.
  reflexivity.
Qed.

Lemma fixed_digits_2 (n : N) :
  fixed_digits n 2 =
  string_of_N (n / 100) +:+ String "." (pad_left 2 (string_of_N (n mod 100))).
Proof. reflexivity. Qed.

Lemma padded_small (n : N) (sign : ascii) :
  is_sign sign = true -> (n < 1000)%N ->
  power_pattern (String sign (String "0" (fixed_digits n 2))) = true.
Proof.
  intros Hs Hn. rewrite fixed_digits_2.
  change (String "0" (?a +:+ ?b)) with (String "0" a +:+ b).
  apply pattern_assembled; trivial.
  - apply two_digits_padded. apply N.Div0.div_lt_upper_bound; lia.
  - apply two_digits_fraction. apply N.mod_lt. discriminate.
Qed.

Lemma unpadded_large (n : N) (sign : ascii) :
  is_sign sign = true -> (1000 <= n < 10000)%N ->
  power_pattern (String sign (fixed_digits n 2)) = true.
Proof.
  intros Hs [Hlo Hhi]. rewrite fixed_digits_2.
  apply pattern_assembled; trivial.
  - apply two_digits_integer. split.
    + apply N.div_le_lower_bound; lia.
    + apply N.Div0.div_lt_upper_bound; lia.
  - apply two_digits_fraction. apply N.mod_lt. discriminate.
Qed.

(** The hundredths of a positive value, rounded, against a threshold. *)
Lemma scaled_round_below (m : positive) (e : Z) (H : Z) :
  (exact (S754_finite false m e) < (2 * H - 1) # 200)%Q ->
  (scaled_round m e 2 < Z.to_N H)%N.
Proof.
  destruct e as [ | k | k]; unfold scaled_round, exact, Qlt;
    cbn [Qnum Qden signed cond_Zopp]; change (10 ^ Z.of_nat 2) with 100;
    intros Hq.
  - change (2 ^ 0) with 1 in *. lia.
  - pose proof (pow2_pos (Zpos k) ltac:(lia)). nia.
  - rewrite Pos2Z.inj_pow in Hq.
    rewrite (Z.pow_add_r 2 (Zpos k) 1) by lia. change (2 ^ 1) with 2.
    pose proof (pow2_pos (Zpos k) ltac:(lia)) as Hp.
    assert (Hd : (2 * (Zpos m * 100) + 2 ^ Zpos k) / (2 ^ Zpos k * 2) < H)
      by (apply Z.div_lt_upper_bound; nia).
    assert (0 <= (2 * (Zpos m * 100) + 2 ^ Zpos k) / (2 ^ Zpos k * 2))
      by (apply Z.div_pos; nia).
    lia.
Qed.

Lemma scaled_round_above (m : positive) (e : Z) (H : Z) :
  (H # 100 <= exact (S754_finite false m e))%Q ->
  (Z.to_N H <= scaled_round m e 2)%N.
Proof.
  destruct e as [ | k | k]; unfold scaled_round, exact, Qle;
    cbn [Qnum Qden signed cond_Zopp]; change (10 ^ Z.of_nat 2) with 100;
    intros Hq.
  - change (2 ^ 0) with 1 in *. lia.
  - pose proof (pow2_pos (Zpos k) ltac:(lia)). nia.
  - rewrite Pos2Z.inj_pow in Hq.
    rewrite (Z.pow_add_r 2 (Zpos k) 1) by lia. change (2 ^ 1) with 2.
    pose proof (pow2_pos (Zpos k) ltac:(lia)) as Hp.
    assert (Hd : H <= (2 * (Zpos m * 100) + 2 ^ Zpos k) / (2 ^ Zpos k * 2))
      by (apply Z.div_le_lower_bound; nia).
    lia.
Qed.

End Formatting.

Section FormatPower.

Variables (s : bool) (m : positive) (e : Z).
Let x : number := S754_finite s m e.
Hypothesis Vx : valid x = true.

Lemma valid_abs : valid (Math_abs x) = true.
Proof. exact Vx. Qed.

Lemma below_toFixed_limit :
  (Qabs (exact x) < inject_Z 100)%Q ->
  ge (Math_abs x) (of_Z (10 ^ 21)) = false.
Proof.
  intros Hq. rewrite <- exact_abs in Hq.
  destruct (ge (Math_abs x) (of_Z (10 ^ 21))) eqn:E; trivial.
  exfalso. unfold ge in E. fold (le (of_Z (10 ^ 21)) (Math_abs x)) in E.
  apply (le_exact (of_Z (10 ^ 21)) (Math_abs x)) in E;
    [| vm_compute; reflexivity | exact valid_abs | reflexivity | reflexivity].
  apply (Qle_not_lt _ _ E).
  apply Qlt_le_trans with (inject_Z 100); trivial.
  vm_compute. discriminate.
Qed.

Lemma formatPower_finite :
  (Qabs (exact x) < inject_Z 100)%Q ->
  E.formatPower x =
  String (if s then "-" else "+")%char
    (if lt (Math_abs x) (of_Z 10)
     then String "0" (fixed_digits (scaled_round m e 2) 2)
     else fixed_digits (scaled_round m e 2) 2).
Proof.
  intros Hq. unfold E.formatPower, toFixed.
  change (Math_abs x) with (S754_finite false m e) at 1.
  cbv iota beta.
  change (S754_finite false m e) with (Math_abs x).
  change (Math_abs (Math_abs x)) with (Math_abs x).
  rewrite (below_toFixed_limit Hq).
  replace (ge x (of_Z 0)) with (negb s) by (destruct s; reflexivity).
  destruct s, (lt (Math_abs x) (of_Z 10)); reflexivity.
Qed.

End FormatPower.

Lemma formatPower_components_agree (x : number) :
  isNaN x = false -> C.formatPower x = E.formatPower x.
Proof.
  intros Hx. unfold C.formatPower, E.formatPower.
  assert (Hs : (if gt x (of_Z 0) then "+"
                else if lt x (of_Z 0) then "-" else "+")%string =
               (if ge x (of_Z 0) then "+" else "-")%string).
  { destruct x as [[ | ] | [ | ] | | [ | ] m e]; try reflexivity; discriminate. }
  rewrite Hs. destruct (lt (Math_abs x) (of_Z 10)); reflexivity.
Qed.

Lemma formatPower_sign (x : number) :
  valid x = true -> is_finite x = true ->
  sign_of (E.formatPower x) =
  Some (if Qle_bool 0 (exact x) then "+" else "-")%char.
Proof.
  intros Vx Fx. unfold E.formatPower.
  pose proof (le_exact (of_Z 0) x eq_refl Vx eq_refl Fx) as H.
  change (exact (of_Z 0)) with 0%Q in H. rewrite <- Qle_bool_iff in H.
  change (ge x (of_Z 0)) with (le (of_Z 0) x).
  destruct (le (of_Z 0) x), (Qle_bool 0 (exact x)); try reflexivity.
  - destruct H as [H _]. discriminate (H eq_refl).
  - destruct H as [_ H]. discriminate (H eq_refl).
Qed.

(** C9 (as amended). On a finite [x], [formatPower] gives the same string
    in both classes, starting with ['+'] when [x >= 0] and with ['-'] when
    [x < 0]; the string has the shape sign, two digits, point, two digits
    when [|x| < 9.995] or [10 <= |x| < 99.995]; zero gives ["+00.00"]. *)
Theorem formatPower_spec (x : number)
  (Vx : valid x = true) (Fx : is_finite x = true) :
  sign_of (E.formatPower x) =
    Some (if Qle_bool 0 (exact x) then "+" else "-")%char /\
  C.formatPower x = E.formatPower x /\
  ((Qabs (exact x) < 9995 # 1000 \/
    10 # 1 <= Qabs (exact x) < 99995 # 1000)%Q ->
   power_pattern (E.formatPower x) = true) /\
  E.formatPower (of_Z 0) = "+00.00"%string /\
  C.formatPower (of_Z 0) = "+00.00"%string.
Proof.
  split; [now apply formatPower_sign |].
  split; [apply formatPower_components_agree; now destruct x |].
  split; [| split; reflexivity].
  intros Hdom.
  destruct x as [s | s | | s m e]; try discriminate.
  { destruct s; reflexivity. }
  assert (Hsign : is_sign (if s then "-" else "+")%char = true)
    by (destruct s; reflexivity).
  assert (H100 : (Qabs (exact (S754_finite s m e)) < inject_Z 100)%Q).
  { destruct Hdom as [H | [_ H]];
      (eapply Qlt_trans; [exact H | reflexivity]). }
  rewrite (formatPower_finite s m e Vx H100).
  destruct (of_Z_value 10 ltac:(vm_compute; reflexivity)) as (V10 & F10 & E10).
  pose proof (lt_exact (Math_abs (S754_finite s m e)) (of_Z 10)
                Vx V10 eq_refl F10) as Hlt.
  rewrite E10 in Hlt.
  rewrite <- exact_abs in Hdom.
  change (Math_abs (S754_finite s m e)) with (S754_finite false m e) in Hdom.
  destruct Hdom as [Hsmall | [Hlo Hhi]].
  - assert (Hten : lt (Math_abs (S754_finite s m e)) (of_Z 10) = true).
    { apply Hlt. eapply Qlt_trans; [exact Hsmall | reflexivity]. }
    rewrite Hten. apply padded_small; trivial.
    apply (scaled_round_below m e 1000).
    eapply Qlt_le_trans; [exact Hsmall | discriminate].
  - assert (Hten : lt (Math_abs (S754_finite s m e)) (of_Z 10) = false).
    { destruct (lt (Math_abs (S754_finite s m e)) (of_Z 10)); trivial.
      exfalso. apply (Qle_not_lt _ _ Hlo). now apply Hlt. }
    rewrite Hten. apply unpadded_large; trivial. split.
    + apply (scaled_round_above m e 1000).
      eapply Qle_trans; [| exact Hlo]. discriminate.
    + apply (scaled_round_below m e 10000).
      eapply Qlt_le_trans; [exact Hhi | discriminate].
Qed.

Lemma formatPower_spec_witness :
  power_pattern (E.formatPower (of_decimal (-975) (-2))) = true /\
  C.formatPower (of_decimal (-975) (-2)) = "-09.75"%string.
Proof.
  destruct (formatPower_spec (of_decimal (-975) (-2)))
    as (_ & Hagree & Hshape & _); [vm_compute; reflexivity .. |].
  split.
  - apply Hshape. left. vm_compute. reflexivity.
  - rewrite Hagree. vm_compute. reflexivity.
Defined.

(** *** Quadrupling and quartering *)

Section Quarters.

Lemma four_value : of_Z 4 = S754_finite false 4503599627370496 (-50).
Proof. reflexivity. Qed.

(** Multiplying by 4 is exact as long as it does not overflow. *)
Lemma mul_4_exact (x : number) :
  valid x = true -> is_finite x = true ->
  is_finite (mul x (of_Z 4)) = true ->
  valid (mul x (of_Z 4)) = true /\
  scaled (mul x (of_Z 4)) = 4 * scaled x.
Proof.
  destruct x as [s | s | | s m e]; try discriminate; intros Vx _.
  { intros _. split; reflexivity. }
  destruct (bounded_inv _ _ Vx) as (He & Hd & Hn).
  rewrite four_value. unfold mul. cbn [SFmul]. rewrite xorb_false_r.
  rewrite Pos2Z.inj_mul. change (Zpos 4503599627370496) with (2 ^ 52).
  assert (Hshape : exists k n,
            0 <= n /\ Zpos k * 2 ^ n = Zpos m * 2 ^ 52 /\
            fexp prec emax (Zpos (digits2_pos k) + n + (e + -50)) = e + -50 + n /\
            Zpos k * 2 ^ (e + -50 + n + 1074) = 4 * (Zpos m * 2 ^ (e + 1074))).
  { destruct (Z.eq_dec (Zpos (digits2_pos m)) 53) as [H53 | H53].
    - exists m, 52. rewrite fexp_value. repeat split; try lia.
      replace (e + -50 + 52 + 1074) with (2 + (e + 1074)) by lia.
      rewrite Z.pow_add_r by lia. change (2 ^ 2) with 4. ring.
    - assert (e = -1074) by lia. subst e.
      destruct (Z.eq_dec (Zpos (digits2_pos m)) 52) as [H52 | H52].
      + exists (m~0)%positive, 51. rewrite fexp_value. cbn [digits2_pos].
        rewrite Pos2Z.inj_succ. repeat split; lia.
      + exists (m~0~0)%positive, 50. rewrite fexp_value. cbn [digits2_pos].
        rewrite !Pos2Z.inj_succ. repeat split; lia. }
  destruct Hshape as (k & n & Hn0 & Hk & Hf & Hv).
  rewrite <- Hk, (binary_round_aux_exact s k n (e + -50) Hn0 Hf).
  destruct (e + -50 + n <=? 971) eqn:Hle; [| discriminate].
  intros _. split.
  - cbn [valid valid_binary]. unfold bounded, canonical_mantissa.
    replace (Zpos (digits2_pos k) + (e + -50 + n))
      with (Zpos (digits2_pos k) + n + (e + -50)) by lia.
    rewrite Hf, Z.eqb_refl. exact Hle.
  - cbn [scaled]. destruct s; cbn [signed cond_Zopp]; lia.
Qed.

Lemma div_eucl_exact (a b q : Z) :
  0 < b -> a = q * b -> Z.div_eucl a b = (q, 0).
Proof.
  intros Hb ->.
  assert (Hq : q * b / b = q) by (apply Z.div_mul; lia).
  assert (Hr : (q * b) mod b = 0) by (apply Z.mod_mul; lia).
  unfold Z.div, Z.modulo in Hq, Hr.
  destruct (Z.div_eucl (q * b) b) as [q' r']. congruence.
Qed.

(** Dividing a normal number by 4 is exact when the quotient is normal. *)
Lemma div_4_exact (s : bool) (m : positive) (e : Z) :
  bounded prec emax m e = true ->
  Zpos (digits2_pos m) = 53 -> -1071 <= e ->
  div (S754_finite s m e) (of_Z 4) = S754_finite s m (e - 2) /\
  bounded prec emax m (e - 2) = true.
Proof.
  intros Hb Hd He. destruct (bounded_inv _ _ Hb) as (Hr & _).
  rewrite four_value. unfold div. cbn [SFdiv]. rewrite xorb_false_r.
  unfold SFdiv_core_binary. cbn [Zdigits2]. rewrite Hd.
  change (Zpos (digits2_pos 4503599627370496)) with 53.
  rewrite fexp_value.
  replace (Z.min (Z.max (53 + e - (53 + -50) - 53) (-1074)) (e - -50))
    with (e - 3) by lia.
  replace (e - -50 - (e - 3)) with 53 by lia.
  rewrite (div_eucl_exact (Z.shiftl (Zpos m) 53) (Zpos 4503599627370496)
             (Zpos m * 2 ^ 1)) by
    (try reflexivity; rewrite Z.shiftl_mul_pow2 by lia;
     change (Zpos 4503599627370496) with (2 ^ 52);
     rewrite <- Z.mul_assoc, <- Z.pow_add_r by lia; reflexivity).
  change (new_location (Zpos 4503599627370496) 0) with loc_Exact.
  rewrite (binary_round_aux_exact s m 1 (e - 3)) by (rewrite ?fexp_value; lia).
  replace (e - 3 + 1) with (e - 2) by lia.
  assert (Hle : (e - 2 <=? 971) = true) by (apply Z.leb_le; lia).
  rewrite Hle. split; trivial.
  unfold bounded, canonical_mantissa. rewrite Hd, fexp_value.
  change (emax - prec) with 971. rewrite Hle.
  replace (Z.max (53 + (e - 2) - 53) (-1074)) with (e - 2) by lia.
  now rewrite Z.eqb_refl.
Qed.

(** A nonzero integer below [2 ^ 53] is a normal number. *)
Lemma of_Z_normal (n : Z) :
  n <> 0 -> Z.abs n < 2 ^ 53 ->
  exists m e,
    of_Z n = S754_finite (n <? 0) m e /\
    Zpos (digits2_pos m) = 53 /\ -52 <= e.
Proof.
  intros Hn Hb.
  assert (Hcase : forall s p, Zpos p < 2 ^ 53 ->
            exists m e, binary_round prec emax s p 0 = S754_finite s m e /\
                        Zpos (digits2_pos m) = 53 /\ -52 <= e).
  { intros s p Hp.
    pose proof (digits2_pos_le p 53 Hp) as Hd.
    destruct (binary_round_exact s p 0 Hd ltac:(lia)) as (mz & ez & Hr & Hv & Hbd & Hez).
    rewrite fexp_value in Hez.
    assert (Hle : (ez <=? 971) = true) by (apply Z.leb_le; lia).
    rewrite Hle in Hr, Hbd. exists mz, ez.
    apply bounded_inv in Hbd. repeat split; trivial; lia. }
  unfold of_Z, binary_normalize.
  destruct n as [ | p | p]; [congruence | |].
  - apply (Hcase false p). lia.
  - apply (Hcase true p). lia.
Qed.

End Quarters.

(** *** Rounding to a quarter *)

(** [Math.round] returns a zero or a normal number. *)
Lemma Math_round_shape (y : number) :
  valid y = true -> is_finite y = true ->
  (exists s, Math_round y = S754_zero s) \/
  (exists s m e,
     Math_round y = S754_finite s m e /\ bounded prec emax m e = true /\
     Zpos (digits2_pos m) = 53 /\ -1071 <= e).
Proof.
  destruct y as [s | s | | s m e]; try discriminate; intros Vy _.
  { left. now exists s. }
  destruct (bounded_inv _ _ Vy) as (He & Hd & Hn).
  pose proof (bounded_mantissa _ _ Vy) as Hm.
  unfold Math_round. destruct e as [ | k | k]; cbn [Z.leb Z.compare].
  - right. exists s, m, 0. repeat split; trivial; lia.
  - right. exists s, m, (Zpos k). repeat split; trivial; lia.
  - change (- Zneg k) with (Zpos k). change (1 - Zneg k) with (1 + Zpos k).
    rewrite (Z.pow_add_r 2 1 (Zpos k)) by lia. change (2 ^ 1) with 2.
    pose proof (nearest_integer_bound s m k Hm) as HN.
    destruct ((2 * signed s m + 2 ^ Zpos k) / (2 * 2 ^ Zpos k))
      as [ | p | p] eqn:EN.
    + left. now exists s.
    + right.
      destruct (of_Z_normal (Zpos p) ltac:(lia) HN) as (mz & ez & Ho & Hdz & Hez).
      destruct (of_Z_exact (Zpos p) ltac:(lia) HN) as (mz' & ez' & Ho' & Hb & _).
      rewrite Ho in Ho'. injection Ho' as <- <-.
      exists (Zpos p <? 0), mz, ez. repeat split; trivial; lia.
    + right.
      destruct (of_Z_normal (Zneg p) ltac:(lia) HN) as (mz & ez & Ho & Hdz & Hez).
      destruct (of_Z_exact (Zneg p) ltac:(lia) HN) as (mz' & ez' & Ho' & Hb & _).
      rewrite Ho in Ho'. injection Ho' as <- <-.
      exists (Zneg p <? 0), mz, ez. repeat split; trivial; lia.
Qed.

Lemma exact_mul_4 (x : number) :
  valid x = true -> is_finite x = true ->
  is_finite (mul x (of_Z 4)) = true ->
  exact (mul x (of_Z 4)) == exact x * inject_Z 4.
Proof.
  intros Vx Fx Hf. destruct (mul_4_exact x Vx Fx Hf) as [Vy Hs].
  rewrite (exact_scaled _ Vy), (exact_scaled _ Vx), Hs.
  unfold Qeq, Qmult, inject_Z. cbn [Qnum Qden]. rewrite Pos2Z.inj_mul. ring.
Qed.

(** C5 (as amended). For a finite [x] whose quadruple does not overflow,
    [roundToNearestQuarter(x)] is finite and equal to the integer nearest
    to [4 x], the larger one on a tie, divided by 4. So a tie goes toward
    +infinity: [roundToNearestQuarter(0.125)] is 0.25 and
    [roundToNearestQuarter(-0.125)] is [-0]. *)
Theorem roundToNearestQuarter_spec (x : number)
  (Vx : valid x = true) (Fx : is_finite x = true)
  (Hf : is_finite (mul x (of_Z 4)) = true) :
  is_finite (C.roundToNearestQuarter x) = true /\
  exact (C.roundToNearestQuarter x) ==
    round_half_up (exact x * inject_Z 4) # 4 /\
  C.roundToNearestQuarter (of_decimal 125 (-3)) = of_decimal 25 (-2) /\
  C.roundToNearestQuarter (of_decimal (-125) (-3)) = S754_zero true.
Proof.
  assert (Hmain :
    is_finite (C.roundToNearestQuarter x) = true /\
    exact (C.roundToNearestQuarter x) ==
      round_half_up (exact x * inject_Z 4) # 4).
  { destruct (mul_4_exact x Vx Fx Hf) as [Vy _].
    pose proof (exact_mul_4 x Vx Fx Hf) as Ey.
    destruct (Math_round_scaled _ (valid_representable _ Vy) Hf) as (_ & _ & Hs).
    unfold round_half_up in Hs. rewrite Ey in Hs. fold (round_half_up (exact x * inject_Z 4)) in Hs.
    unfold C.roundToNearestQuarter.
    destruct (Math_round_shape _ Vy Hf) as [[s Hz] | (s & m & e & Hr & Hb & Hd & He)].
    - rewrite Hz in *. cbn [scaled] in Hs.
      assert (HN : round_half_up (exact x * inject_Z 4) = 0).
      { pose proof (pow2_pos 1074 ltac:(lia)). nia. }
      rewrite HN. split; reflexivity.
    - rewrite Hr in *.
      destruct (div_4_exact s m e Hb Hd He) as [Hq Hbq].
      rewrite Hq. split; [reflexivity |].
      rewrite (exact_scaled (S754_finite s m (e - 2)) Hbq).
      unfold Qeq. cbn [Qnum Qden scaled] in *. rewrite Pos2Z.inj_pow.
      rewrite <- Hs.
      replace (e + 1074) with (2 + (e - 2 + 1074)) by lia.
      rewrite (Z.pow_add_r 2 2) by (destruct (bounded_inv _ _ Hbq); lia).
      change (2 ^ 2) with 4. change (Zpos 4) with 4. ring. }
  destruct Hmain as [H1 H2].
  repeat split; trivial; vm_compute; reflexivity.
Qed.

Lemma roundToNearestQuarter_spec_witness :
  exact (C.roundToNearestQuarter (of_decimal (-163) (-2))) == (-7) # 4.
Proof.
  destruct (roundToNearestQuarter_spec (of_decimal (-163) (-2)))
    as (_ & H & _); [vm_compute; reflexivity .. |].
  rewrite H. vm_compute. reflexivity.
Defined.

(** ** Further properties of the two classes *)

(** *** Uniqueness of the representation *)

Lemma valid_unique (x y : number) :
  valid x = true -> valid y = true ->
  is_finite x = true -> is_finite y = true ->
  scaled x = scaled y -> scaled x <> 0 -> x = y.
Proof.
  destruct x as [sx | sx | | sx mx ex], y as [sy | sy | | sy my ey];
    try discriminate; intros Vx Vy _ _; cbn [scaled]; intros Hs Hnz;
    try congruence.
  pose proof (bounded_inv _ _ Vx) as (Hex & _).
  pose proof (bounded_inv _ _ Vy) as (Hey & _).
  pose proof (pow2_pos (ex + 1074) ltac:(lia)).
  pose proof (pow2_pos (ey + 1074) ltac:(lia)).
  pose proof (compare_magnitude mx my ex ey Vx Vy) as Hc.
  assert (Hsign : sx = sy)
    by (destruct sx, sy; cbn [signed cond_Zopp] in Hs; trivial; nia).
  subst sy.
  assert (Hmag : Zpos mx * 2 ^ (ex + 1074) = Zpos my * 2 ^ (ey + 1074))
    by (destruct sx; cbn [signed cond_Zopp] in Hs; lia).
  rewrite Hmag, Z.compare_refl in Hc.
  destruct (Z.compare_spec ex ey) as [-> | | ]; try discriminate.
  apply Pos.compare_eq in Hc. now subst my.
Qed.

(** [Math.round] leaves an integer as it is. *)
Lemma Math_round_integer (r : number) (N : Z) :
  valid r = true -> is_finite r = true ->
  scaled r = N * 2 ^ 1074 -> Math_round r = r.
Proof.
  destruct r as [s | s | | s m e]; try discriminate; intros Vr _ Hs;
    try reflexivity.
  pose proof (bounded_inv _ _ Vr) as (He & _).
  pose proof (bounded_mantissa _ _ Vr) as Hm.
  unfold Math_round. destruct e as [ | k | k]; cbn [Z.leb Z.compare];
    try reflexivity.
  change (- Zneg k) with (Zpos k). change (1 - Zneg k) with (1 + Zpos k).
  rewrite (Z.pow_add_r 2 1 (Zpos k)) by lia. change (2 ^ 1) with 2.
  pose proof (pow2_pos (Zpos k) ltac:(lia)) as Hp.
  assert (Hv : signed s m = N * 2 ^ Zpos k).
  { cbn [scaled] in Hs.
    replace (2 ^ 1074) with (2 ^ Zpos k * 2 ^ (Zneg k + 1074)) in Hs
      by (rewrite <- Z.pow_add_r by lia; f_equal; lia).
    pose proof (pow2_pos (Zneg k + 1074) ltac:(lia)). nia. }
  assert (HN : (2 * signed s m + 2 ^ Zpos k) / (2 * 2 ^ Zpos k) = N).
  { rewrite Hv. symmetry. apply (Z.div_unique _ _ _ (2 ^ Zpos k)); lia. }
  rewrite HN.
  assert (Hnz : N <> 0) by (destruct s; cbn [signed cond_Zopp] in Hv; nia).
  assert (Hb : Z.abs N < 2 ^ 53).
  { destruct s; cbn [signed cond_Zopp] in Hv; nia. }
  destruct (of_Z_exact N Hnz Hb) as (mz & ez & Ho & Hbd & Hsz).
  assert (Heq : of_Z N = S754_finite s m (Zneg k)).
  { apply valid_unique; trivial.
    - rewrite Ho. exact Hbd.
    - now rewrite Ho.
    - now rewrite Hsz, Hs.
    - rewrite Hsz. pose proof (pow2_pos 1074 ltac:(lia)). nia. }
  destruct N; [congruence | exact Heq | exact Heq].
Qed.

Lemma Math_round_valid (y : number) :
  valid y = true -> is_finite y = true -> valid (Math_round y) = true.
Proof.
  intros Vy Fy.
  destruct (Math_round_shape y Vy Fy) as [[s ->] | (s & m & e & -> & Hb & _)];
    [reflexivity | exact Hb].
Qed.

Lemma Math_round_idempotent (y : number) :
  valid y = true -> Math_round (Math_round y) = Math_round y.
Proof.
  intros Vy. destruct (is_finite y) eqn:Fy.
  - destruct (Math_round_scaled y (valid_representable y Vy) Fy) as (Fr & _ & Hs).
    exact (Math_round_integer _ _ (Math_round_valid y Vy Fy) Fr Hs).
  - destruct y; try discriminate; reflexivity.
Qed.

Lemma exact_of_scaled (r : number) (N : Z) :
  valid r = true -> scaled r = N * 2 ^ 1074 -> exact r == inject_Z N.
Proof.
  intros Vr Hs. rewrite (exact_scaled r Vr), Hs.
  unfold Qeq, inject_Z. cbn [Qnum Qden]. rewrite Pos2Z.inj_pow. ring.
Qed.

Lemma exact_Math_round (y : number) :
  valid y = true -> is_finite y = true ->
  exact (Math_round y) == inject_Z (round_half_up (exact y)).
Proof.
  intros Vy Fy.
  destruct (Math_round_scaled y (valid_representable y Vy) Fy) as (_ & _ & Hs).
  exact (exact_of_scaled _ _ (Math_round_valid y Vy Fy) Hs).
Qed.

Lemma round_half_up_range (q : Q) (lo hi : Z) :
  (inject_Z lo <= q <= inject_Z hi)%Q -> lo <= round_half_up q <= hi.
Proof.
  intros [Hlo Hhi]. unfold round_half_up. split.
  - rewrite <- (Qfloor_Z lo). apply Qfloor_resp_le.
    apply Qle_trans with q; trivial.
    rewrite <- (Qplus_0_r q) at 1. apply Qplus_le_r. discriminate.
  - assert (H : Qfloor (inject_Z hi + (1 # 2)) = hi).
    { unfold Qfloor, Qplus, inject_Z. cbn [Qnum Qden].
      change (Zpos (1 * 2)) with 2. rewrite Z.mul_1_l. apply half_up_integer. }
    rewrite <- H. apply Qfloor_resp_le. now apply Qplus_le_l.
Qed.

(** *** The axis *)

(** X1. On a finite [x], [validateAxis(x)] is not null exactly when
    [0 <= x <= 180]; the value returned is then an integer of that range,
    the one nearest to [x] (the larger one on a tie). NaN is not caught by
    the range test and comes back as NaN; the infinities give null. *)
Theorem validateAxis_spec (x : number)
  (Vx : valid x = true) (Fx : is_finite x = true) :
  (E.validateAxis x <> None <-> (inject_Z 0 <= exact x <= inject_Z 180)%Q) /\
  (forall r, E.validateAxis x = Some r ->
     is_finite r = true /\
     exact r == inject_Z (round_half_up (exact x)) /\
     0 <= round_half_up (exact x) <= 180) /\
  E.validateAxis NaN = Some NaN /\
  E.validateAxis (S754_infinity false) = None /\
  E.validateAxis (S754_infinity true) = None.
Proof.
  pose proof (within_range x 0 180 Vx Fx ltac:(vm_compute; reflexivity)
                ltac:(vm_compute; reflexivity)) as Hr.
  split; [| split; [| repeat split]].
  - unfold E.validateAxis.
    destruct (lt x (of_Z 0) || gt x (of_Z 180)).
    + split; [congruence |]. intros H. apply Hr in H. discriminate.
    + split; [| congruence]. intros _. now apply Hr.
  - intros r. unfold E.validateAxis.
    destruct (lt x (of_Z 0) || gt x (of_Z 180)); [discriminate |].
    intros [= <-].
    destruct (Math_round_scaled x (valid_representable x Vx) Fx) as (Fr & _ & _).
    split; [exact Fr |]. split; [now apply exact_Math_round |].
    apply round_half_up_range. now apply Hr.
Qed.

Lemma validateAxis_spec_witness :
  E.validateAxis (of_decimal 52 (-1)) = Some (of_Z 5) /\
  round_half_up (exact (of_decimal 52 (-1))) = 5.
Proof.
  destruct (validateAxis_spec (of_decimal 52 (-1))) as (_ & H & _);
    [vm_compute; reflexivity .. |].
  split; [vm_compute; reflexivity |].
  destruct (H (of_Z 5)) as (_ & _ & _); vm_compute; reflexivity.
Defined.

(** X2. [validateAxis] is idempotent: a value it returns is returned
    unchanged when validated again. *)
Theorem validateAxis_idempotent (x r : number)
  (Vx : valid x = true) (Hr : E.validateAxis x = Some r) :
  E.validateAxis r = Some r.
Proof.
  destruct (is_finite x) eqn:Fx.
  - pose proof (within_range x 0 180 Vx Fx ltac:(vm_compute; reflexivity)
                  ltac:(vm_compute; reflexivity)) as Hx.
    unfold E.validateAxis in Hr.
    destruct (lt x (of_Z 0) || gt x (of_Z 180)) eqn:E; [discriminate |].
    injection Hr as <-.
    destruct (Math_round_scaled x (valid_representable x Vx) Fx) as (Fr & _ & _).
    pose proof (Math_round_valid x Vx Fx) as Vr.
    pose proof (within_range (Math_round x) 0 180 Vr Fr
                  ltac:(vm_compute; reflexivity)
                  ltac:(vm_compute; reflexivity)) as Hrr.
    unfold E.validateAxis.
    replace (lt (Math_round x) (of_Z 0) || gt (Math_round x) (of_Z 180))
      with false.
    + now rewrite Math_round_idempotent.
    + symmetry. apply Hrr. rewrite (exact_Math_round x Vx Fx).
      assert (H : 0 <= round_half_up (exact x) <= 180)
        by (apply round_half_up_range; now apply Hx).
      split; rewrite <- Zle_Qle; lia.
  - destruct x as [ | [ | ] | | ]; try discriminate;
      vm_compute in Hr; try discriminate.
    injection Hr as <-. reflexivity.
Qed.

Lemma validateAxis_idempotent_witness :
  E.validateAxis (of_Z 5) = Some (of_Z 5).
Proof.
  apply (validateAxis_idempotent (of_decimal 52 (-1)));
    vm_compute; reflexivity.
Defined.

(** *** Cylinder and addition *)

Lemma within_bounds (x a b : number) :
  valid x = true -> is_finite x = true ->
  valid a = true -> is_finite a = true ->
  valid b = true -> is_finite b = true ->
  lt x a || gt x b = false <-> (exact a <= exact x <= exact b)%Q.
Proof.
  intros Vx Fx Va Fa Vb Fb.
  pose proof (lt_exact x a Vx Va Fx Fa) as H1.
  pose proof (lt_exact b x Vb Vx Fb Fx) as H2.
  unfold gt. rewrite orb_false_iff. split.
  - intros [Ha Hb]. split; apply Qnot_lt_le; intros Hc.
    + apply H1 in Hc. congruence.
    + apply H2 in Hc. unfold lt in Hc. congruence.
  - intros [Ha Hb]. split.
    + destruct (lt x a); trivial.
      exfalso. apply (Qle_not_lt _ _ Ha). now apply H1.
    + destruct (SFltb b x) eqn:E; trivial.
      exfalso. apply (Qle_not_lt _ _ Hb). now apply H2.
Qed.

Lemma quarter_test_finite (x : number) :
  E.isMultipleOfQuarter x = true -> is_finite x = true.
Proof.
  intros H. apply validator_quarter_test in H as [Hf _].
  now apply mul_finite_l in Hf.
Qed.

(** X3. [validateCYL(x)] is not null exactly when
    [round(x * 100) mod 25 = 0] and [-15 <= x <= 15], and is then
    [formatPower(x)]. *)
Theorem validateCYL_spec (x : number) (Vx : valid x = true) :
  (E.validateCYL x <> None <->
     hundredths_divisible_by_25 x /\
     (inject_Z (-15) <= exact x <= inject_Z 15)%Q) /\
  (forall s, E.validateCYL x = Some s -> s = E.formatPower x).
Proof.
  split.
  - unfold E.validateCYL. rewrite <- validator_quarter_test.
    destruct (E.isMultipleOfQuarter x) eqn:HQ; cbn [negb].
    + pose proof (within_range x (-15) 15 Vx (quarter_test_finite x HQ)
                    ltac:(vm_compute; reflexivity)
                    ltac:(vm_compute; reflexivity)) as Hr.
      destruct (lt x (of_Z (-15)) || gt x (of_Z 15)).
      * split; [congruence |]. intros [_ H]. apply Hr in H. discriminate.
      * split; [| congruence]. intros _. split; trivial. now apply Hr.
    + split; [congruence |]. intros [H _]. discriminate.
  - intros s. unfold E.validateCYL.
    destruct (negb (E.isMultipleOfQuarter x)); [discriminate |].
    destruct (lt x (of_Z (-15)) || gt x (of_Z 15)); [discriminate |].
    congruence.
Qed.

Lemma validateCYL_spec_witness :
  E.validateCYL (of_decimal (-1475) (-2)) = Some "-14.75"%string /\
  hundredths_divisible_by_25 (of_decimal (-1475) (-2)).
Proof.
  destruct (validateCYL_spec (of_decimal (-1475) (-2))) as (H & _);
    [vm_compute; reflexivity |].
  split; [vm_compute; reflexivity |].
  apply H. vm_compute. discriminate.
Defined.

(** X4. [validateADD(x)] is not null exactly when
    [round(x * 100) mod 25 = 0] and [0.25 <= x <= 6], and is then
    [formatPower(x)]; so an addition of 0 is rejected. *)
Theorem validateADD_spec (x : number) (Vx : valid x = true) :
  (E.validateADD x <> None <->
     hundredths_divisible_by_25 x /\ (1 # 4 <= exact x <= inject_Z 6)%Q) /\
  (forall s, E.validateADD x = Some s -> s = E.formatPower x) /\
  E.validateADD (of_Z 0) = None.
Proof.
  split; [| split; [| reflexivity]].
  - unfold E.validateADD. rewrite <- validator_quarter_test.
    destruct (E.isMultipleOfQuarter x) eqn:HQ; cbn [negb].
    + pose proof (within_bounds x (of_decimal 25 (-2)) (of_Z 6) Vx
                    (quarter_test_finite x HQ)
                    ltac:(vm_compute; reflexivity) ltac:(reflexivity)
                    ltac:(vm_compute; reflexivity) ltac:(reflexivity)) as Hr.
      assert (Hlo : exact (of_decimal 25 (-2)) == 1 # 4)
        by (vm_compute; reflexivity).
      assert (Hhi : exact (of_Z 6) == inject_Z 6) by (vm_compute; reflexivity).
      rewrite Hlo, Hhi in Hr.
      destruct (lt x (of_decimal 25 (-2)) || gt x (of_Z 6)).
      * split; [congruence |]. intros [_ H]. apply Hr in H. discriminate.
      * split; [| congruence]. intros _. split; trivial. now apply Hr.
    + split; [congruence |]. intros [H _]. discriminate.
  - intros s. unfold E.validateADD.
    destruct (negb (E.isMultipleOfQuarter x)); [discriminate |].
    destruct (lt x (of_decimal 25 (-2)) || gt x (of_Z 6)); [discriminate |].
    congruence.
Qed.

Lemma validateADD_spec_witness :
  E.validateADD (of_decimal 25 (-1)) = Some "+02.50"%string /\
  (1 # 4 <= exact (of_decimal 25 (-1)) <= inject_Z 6)%Q.
Proof.
  destruct (validateADD_spec (of_decimal 25 (-1))) as (H & _);
    [vm_compute; reflexivity |].
  split; [vm_compute; reflexivity |].
  apply H. vm_compute. discriminate.
Defined.

(** *** Well-formed results *)

Lemma formatPower_shape (x : number) :
  valid x = true -> is_finite x = true ->
  (Qabs (exact x) < 9995 # 1000 \/
   10 # 1 <= Qabs (exact x) < 99995 # 1000)%Q ->
  power_pattern (E.formatPower x) = true.
Proof.
  intros Vx Fx Hdom.
  destruct x as [s | s | | s m e]; try discriminate.
  { destruct s; reflexivity. }
  assert (Hsign : is_sign (if s then "-" else "+")%char = true)
    by (destruct s; reflexivity).
  assert (H100 : (Qabs (exact (S754_finite s m e)) < inject_Z 100)%Q).
  { destruct Hdom as [H | [_ H]];
      (eapply Qlt_trans; [exact H | reflexivity]). }
  rewrite (formatPower_finite s m e Vx H100).
  destruct (of_Z_value 10 ltac:(vm_compute; reflexivity)) as (V10 & F10 & E10).
  pose proof (lt_exact (Math_abs (S754_finite s m e)) (of_Z 10)
                Vx V10 eq_refl F10) as Hlt.
  rewrite E10 in Hlt. rewrite <- exact_abs in Hdom.
  change (Math_abs (S754_finite s m e)) with (S754_finite false m e) in Hdom.
  destruct Hdom as [Hsmall | [Hlo Hhi]].
  - assert (Hten : lt (Math_abs (S754_finite s m e)) (of_Z 10) = true).
    { apply Hlt. eapply Qlt_trans; [exact Hsmall | reflexivity]. }
    rewrite Hten. apply padded_small; trivial.
    apply (scaled_round_below m e 1000).
    eapply Qlt_le_trans; [exact Hsmall | discriminate].
  - assert (Hten : lt (Math_abs (S754_finite s m e)) (of_Z 10) = false).
    { destruct (lt (Math_abs (S754_finite s m e)) (of_Z 10)); trivial.
      exfalso. apply (Qle_not_lt _ _ Hlo). now apply Hlt. }
    rewrite Hten. apply unpadded_large; trivial. split.
    + apply (scaled_round_above m e 1000).
      eapply Qle_trans; [| exact Hlo]. discriminate.
    + apply (scaled_round_below m e 10000).
      eapply Qlt_le_trans; [exact Hhi | discriminate].
Qed.

Lemma sphere_accepted (x : number) (s : string) :
  valid x = true -> E.validateSPH x = Some s ->
  is_finite x = true /\ s = E.formatPower x /\
  (inject_Z (-60) <= exact x <= inject_Z 60)%Q.
Proof.
  intros Vx. unfold E.validateSPH.
  destruct (E.isMultipleOfQuarter x) eqn:HQ; [| discriminate]. cbn [negb].
  pose proof (quarter_test_finite x HQ) as Fx.
  pose proof (within_range x (-60) 60 Vx Fx ltac:(vm_compute; reflexivity)
                ltac:(vm_compute; reflexivity)) as Hr.
  destruct (lt x (of_Z (-60)) || gt x (of_Z 60)); [discriminate |].
  intros [= <-]. repeat split; trivial; now apply Hr.
Qed.

Lemma cylinder_accepted (x : number) (s : string) :
  valid x = true -> E.validateCYL x = Some s ->
  is_finite x = true /\ s = E.formatPower x /\
  (inject_Z (-15) <= exact x <= inject_Z 15)%Q.
Proof.
  intros Vx. unfold E.validateCYL.
  destruct (E.isMultipleOfQuarter x) eqn:HQ; [| discriminate]. cbn [negb].
  pose proof (quarter_test_finite x HQ) as Fx.
  pose proof (within_range x (-15) 15 Vx Fx ltac:(vm_compute; reflexivity)
                ltac:(vm_compute; reflexivity)) as Hr.
  destruct (lt x (of_Z (-15)) || gt x (of_Z 15)); [discriminate |].
  intros [= <-]. repeat split; trivial; now apply Hr.
Qed.

Lemma addition_accepted (x : number) (s : string) :
  valid x = true -> E.validateADD x = Some s ->
  is_finite x = true /\ s = E.formatPower x /\
  (1 # 4 <= exact x <= inject_Z 6)%Q.
Proof.
  intros Vx. unfold E.validateADD.
  destruct (E.isMultipleOfQuarter x) eqn:HQ; [| discriminate]. cbn [negb].
  pose proof (quarter_test_finite x HQ) as Fx.
  pose proof (within_bounds x (of_decimal 25 (-2)) (of_Z 6) Vx Fx
                ltac:(vm_compute; reflexivity) ltac:(reflexivity)
                ltac:(vm_compute; reflexivity) ltac:(reflexivity)) as Hr.
  assert (Hlo : exact (of_decimal 25 (-2)) == 1 # 4) by (vm_compute; reflexivity).
  assert (Hhi : exact (of_Z 6) == inject_Z 6) by (vm_compute; reflexivity).
  rewrite Hlo, Hhi in Hr.
  destruct (lt x (of_decimal 25 (-2)) || gt x (of_Z 6)); [discriminate |].
  intros [= <-]. repeat split; trivial; now apply Hr.
Qed.

Lemma magnitude_domain (q : Q) (b : Z) :
  (inject_Z (- b) <= q <= inject_Z b)%Q -> b <= 99 ->
  (Qabs q < 9995 # 1000 \/ 10 # 1 <= Qabs q)%Q ->
  (Qabs q < 9995 # 1000 \/ 10 # 1 <= Qabs q < 99995 # 1000)%Q.
Proof.
  intros Hq Hb [H | H]; [now left | right].
  split; trivial.
  apply Qle_lt_trans with (inject_Z b).
  - apply Qabs_Qle_condition. now rewrite <- inject_Z_opp.
  - apply Qle_lt_trans with (inject_Z 99); [| reflexivity].
    now rewrite <- Zle_Qle.
Qed.

(** X5. A string returned by [validateADD] always has the shape sign, two
    digits, point, two digits. One returned by [validateSPH] or
    [validateCYL] has it unless [9.995 <= |x| < 10]: there the hundredths
    round to 1000, the value is accepted and the padding yields three
    integer digits, as for 9.996. *)
Theorem validated_power_shape (x : number) (s : string)
  (Vx : valid x = true) :
  (E.validateADD x = Some s -> power_pattern s = true) /\
  ((Qabs (exact x) < 9995 # 1000 \/ 10 # 1 <= Qabs (exact x))%Q ->
   E.validateSPH x = Some s \/ E.validateCYL x = Some s ->
   power_pattern s = true) /\
  E.validateSPH (of_decimal 9996 (-3)) = Some "+010.00"%string /\
  E.validateCYL (of_decimal 9996 (-3)) = Some "+010.00"%string.
Proof.
  split; [| split; [| split; vm_compute; reflexivity]].
  - intros H. apply (addition_accepted x s Vx) in H as (Fx & -> & Hlo & Hhi).
    apply formatPower_shape; trivial. left.
    rewrite Qabs_pos.
    + apply Qle_lt_trans with (inject_Z 6); [exact Hhi | reflexivity].
    + apply Qle_trans with (1 # 4); [discriminate | exact Hlo].
  - intros Hdom [H | H].
    + apply (sphere_accepted x s Vx) in H as (Fx & -> & Hr).
      apply formatPower_shape; trivial.
      apply (magnitude_domain _ 60); trivial. lia.
    + apply (cylinder_accepted x s Vx) in H as (Fx & -> & Hr).
      apply formatPower_shape; trivial.
      apply (magnitude_domain _ 15); trivial. lia.
Qed.

Lemma validated_power_shape_witness :
  power_pattern "-59.75" = true /\ power_pattern "+02.50" = true.
Proof.
  split.
  - destruct (validated_power_shape (of_decimal (-5975) (-2)) "-59.75")
      as (_ & H & _); [vm_compute; reflexivity |].
    apply H; [right | left]; vm_compute; (reflexivity || discriminate).
  - destruct (validated_power_shape (of_decimal 25 (-1)) "+02.50")
      as (H & _); [vm_compute; reflexivity |].
    apply H. vm_compute. reflexivity.
Defined.

(** *** Genuine quarter values *)

Lemma checked_between (P : Z -> bool) (lo : Z) (n : nat) :
  forallb (fun i => P (lo + Z.of_nat i)) (seq 0 n) = true ->
  forall k, lo <= k < lo + Z.of_nat n -> P k = true.
Proof.
  intros H k Hk. rewrite forallb_forall in H.
  replace k with (lo + Z.of_nat (Z.to_nat (k - lo))) by lia.
  apply H. apply in_seq. lia.
Qed.

Lemma quarter_scaled (x : number) (k : Z) :
  valid x = true -> exact x == k # 4 <-> scaled x = k * 2 ^ 1072.
Proof.
  intros Vx. rewrite (exact_scaled x Vx). unfold Qeq. cbn [Qnum Qden].
  rewrite Pos2Z.inj_pow. change (2 ^ 1074) with (2 ^ 1072 * 4). lia.
Qed.

(** A property checked on the quarters of a range holds of every number
    that is one of them. *)
Lemma on_quarters (P : number -> bool) (lo : Z) (n : nat) :
  forallb (fun i => quarter_checked P (lo + Z.of_nat i)) (seq 0 n) = true ->
  forall (x : number) (k : Z),
    valid x = true -> is_finite x = true ->
    exact x == k # 4 -> lo <= k < lo + Z.of_nat n -> P x = true.
Proof.
  intros H x k Vx Fx Hq Hk.
  pose proof (checked_between (quarter_checked P) lo n H k Hk) as Hc.
  unfold quarter_checked in Hc.
  apply andb_prop in Hc as [Hc Hz]. apply andb_prop in Hc as [Hc HP].
  apply andb_prop in Hc as [Hc Hs]. apply andb_prop in Hc as [Vy Fy].
  apply Z.eqb_eq in Hs. apply (quarter_scaled x k Vx) in Hq.
  destruct (Z.eq_dec k 0) as [-> | Hnz].
  - destruct x as [[ | ] | | | s m e]; try discriminate; trivial.
    exfalso. cbn [scaled] in Hq.
    pose proof (bounded_inv _ _ Vx) as (He & _).
    pose proof (pow2_pos (e + 1074) ltac:(lia)).
    destruct s; cbn [signed cond_Zopp] in Hq; nia.
  - replace x with (of_ratio k 4); trivial.
    symmetry. apply valid_unique; trivial; [congruence |].
    rewrite Hq. pose proof (pow2_pos 1072 ltac:(lia)). nia.
Qed.

Lemma sphere_quarters_checked :
  forallb (fun i => quarter_checked (accepted_well_formed E.validateSPH)
                      (-240 + Z.of_nat i)) (seq 0 481) = true.
Proof. vm_compute. reflexivity. Qed.

Lemma cylinder_quarters_checked :
  forallb (fun i => quarter_checked (accepted_well_formed E.validateCYL)
                      (-60 + Z.of_nat i)) (seq 0 121) = true.
Proof. vm_compute. reflexivity. Qed.

Lemma addition_quarters_checked :
  forallb (fun i => quarter_checked (accepted_well_formed E.validateADD)
                      (1 + Z.of_nat i)) (seq 0 24) = true.
Proof. vm_compute. reflexivity. Qed.

Lemma read_back_checked :
  forallb (fun i => quarter_checked reads_back (-240 + Z.of_nat i))
    (seq 0 481) = true.
Proof. vm_compute. reflexivity. Qed.

Lemma accepted_as (f : number -> option string) (x : number) :
  accepted_well_formed f x = true ->
  f x = Some (E.formatPower x) /\ power_pattern (E.formatPower x) = true.
Proof.
  unfold accepted_well_formed. destruct (f x) as [s | ]; [| discriminate].
  intros H. apply andb_prop in H as [H1 H2].
  apply String.eqb_eq in H1. subst s. now split.
Qed.

(** X6. Every number that is exactly a multiple of 0.25 is accepted in the
    range of its field: [validateSPH] on [-60, 60], [validateCYL] on
    [-15, 15], [validateADD] on [0.25, 6]; the result is [formatPower(x)]
    and has the shape sign, two digits, point, two digits. *)
Theorem quarter_values_accepted (x : number) (k : Z)
  (Vx : valid x = true) (Fx : is_finite x = true)
  (Hq : exact x == k # 4) :
  (-240 <= k <= 240 ->
   E.validateSPH x = Some (E.formatPower x) /\
   power_pattern (E.formatPower x) = true) /\
  (-60 <= k <= 60 ->
   E.validateCYL x = Some (E.formatPower x) /\
   power_pattern (E.formatPower x) = true) /\
  (1 <= k <= 24 ->
   E.validateADD x = Some (E.formatPower x) /\
   power_pattern (E.formatPower x) = true).
Proof.
  split; [| split]; intros Hk; apply accepted_as.
  - apply (on_quarters _ _ _ sphere_quarters_checked x k); trivial; lia.
  - apply (on_quarters _ _ _ cylinder_quarters_checked x k); trivial; lia.
  - apply (on_quarters _ _ _ addition_quarters_checked x k); trivial; lia.
Qed.

Lemma quarter_values_accepted_witness :
  E.validateSPH (of_decimal (-5975) (-2)) =
    Some (E.formatPower (of_decimal (-5975) (-2))) /\
  E.validateADD (of_decimal 25 (-1)) =
    Some (E.formatPower (of_decimal 25 (-1))).
Proof.
  assert (Q1 : exact (of_decimal (-5975) (-2)) == -239 # 4)
    by (vm_compute; reflexivity).
  assert (Q2 : exact (of_decimal 25 (-1)) == 10 # 4)
    by (vm_compute; reflexivity).
  assert (V1 : valid (of_decimal (-5975) (-2)) = true)
    by (vm_compute; reflexivity).
  assert (V2 : valid (of_decimal 25 (-1)) = true) by (vm_compute; reflexivity).
  split.
  - apply (quarter_values_accepted (of_decimal (-5975) (-2)) (-239) V1 eq_refl Q1).
    lia.
  - apply (quarter_values_accepted (of_decimal 25 (-1)) 10 V2 eq_refl Q2). lia.
Defined.

(** X7. The string [formatPower] gives for a multiple of 0.25 between -60
    and 60 reads back as the same number, through [Number] as through
    [parseFloat], and validates to the same string again. *)
Theorem formatted_power_reads_back (x : number) (k : Z)
  (Vx : valid x = true) (Fx : is_finite x = true)
  (Hq : exact x == k # 4) (Hk : -240 <= k <= 240) :
  strict_eq (StringToNumber (E.formatPower x)) x = true /\
  strict_eq (parseFloat (C.formatPower x)) x = true /\
  E.validateSPH (StringToNumber (E.formatPower x)) = Some (E.formatPower x).
Proof.
  pose proof (on_quarters _ _ _ read_back_checked x k Vx Fx Hq ltac:(lia)) as H.
  unfold reads_back in H.
  apply andb_prop in H as [H H3]. apply andb_prop in H as [H1 H2].
  repeat split; trivial.
  destruct (E.validateSPH (StringToNumber (E.formatPower x))); [| discriminate].
  apply String.eqb_eq in H3. now subst.
Qed.

Lemma formatted_power_reads_back_witness :
  E.validateSPH (StringToNumber (E.formatPower (of_decimal (-975) (-2)))) =
    Some (E.formatPower (of_decimal (-975) (-2))).
Proof.
  assert (Q : exact (of_decimal (-975) (-2)) == -39 # 4)
    by (vm_compute; reflexivity).
  assert (V : valid (of_decimal (-975) (-2)) = true)
    by (vm_compute; reflexivity).
  apply (formatted_power_reads_back (of_decimal (-975) (-2)) (-39) V eq_refl Q).
  lia.
Defined.

(** *** Plain range checks *)

Lemma range_check (x a b : number) :
  valid x = true ->
  valid a = true -> is_finite a = true ->
  valid b = true -> is_finite b = true ->
  negb (isNaN x) && ge x a && le x b = true <->
  is_finite x = true /\ (exact a <= exact x <= exact b)%Q.
Proof.
  intros Vx Va Fa Vb Fb. destruct (is_finite x) eqn:Fx.
  - assert (Hn : isNaN x = false) by (destruct x; try discriminate; reflexivity).
    rewrite Hn. cbn [negb andb]. unfold ge. fold (le a x).
    rewrite andb_true_iff, (le_exact a x Va Vx Fa Fx), (le_exact x b Vx Vb Fx Fb).
    tauto.
  - split; [| intros [? _]; discriminate].
    destruct x as [ | [ | ] | | ]; try discriminate;
      destruct a as [ | | | [ | ] ? ?], b as [ | | | [ | ] ? ?];
      discriminate.
Qed.

(** X8. [validateSG] and [validateVertexDistance] convert their argument
    with [Number] and return that number exactly when it is finite and in
    [7, 50], respectively [10, 15]; otherwise null. [validatePD] returns
    its argument or null, and never a value that is NaN or outside
    [19, 85]. *)
Theorem range_validators (v : value) (x : number)
  (Vv : valid (ToNumber v) = true) (Vx : valid x = true) :
  (forall n, E.validateSG v = Some n <->
     n = ToNumber v /\ is_finite n = true /\
     (inject_Z 7 <= exact n <= inject_Z 50)%Q) /\
  (forall n, E.validateVertexDistance v = Some n <->
     n = ToNumber v /\ is_finite n = true /\
     (inject_Z 10 <= exact n <= inject_Z 15)%Q) /\
  (forall n, E.validatePD x = Some n ->
     n = x /\ is_finite n = true /\
     (inject_Z 19 <= exact n <= inject_Z 85)%Q).
Proof.
  assert (Hgen : forall (y : number) (lo hi : Z),
            valid y = true -> Z.abs lo < 2 ^ 53 -> Z.abs hi < 2 ^ 53 ->
            forall n,
              (if negb (isNaN y) && ge y (of_Z lo) && le y (of_Z hi)
               then Some y else None) = Some n <->
              n = y /\ is_finite n = true /\
              (inject_Z lo <= exact n <= inject_Z hi)%Q).
  { intros y lo hi Vy Hlo Hhi n.
    destruct (of_Z_value lo Hlo) as (Vlo & Flo & Elo).
    destruct (of_Z_value hi Hhi) as (Vhi & Fhi & Ehi).
    pose proof (range_check y (of_Z lo) (of_Z hi) Vy Vlo Flo Vhi Fhi) as Hr.
    rewrite Elo, Ehi in Hr.
    destruct (negb (isNaN y) && ge y (of_Z lo) && le y (of_Z hi)).
    - split.
      + intros [= <-]. split; trivial. now apply Hr.
      + intros [-> _]. reflexivity.
    - split; [discriminate |].
      intros (-> & Hf & Hq). assert (false = true) by (apply Hr; now split).
      discriminate. }
  split; [| split].
  - intros n. apply (Hgen (ToNumber v) 7 50); trivial; vm_compute; reflexivity.
  - intros n. apply (Hgen (ToNumber v) 10 15); trivial; vm_compute; reflexivity.
  - intros n. apply (Hgen x 19 85); trivial; vm_compute; reflexivity.
Qed.

Lemma range_validators_witness :
  E.validateSG (VStr " 12.5 ") = Some (of_decimal 125 (-1)) /\
  E.validateVertexDistance (VStr "abc") = None.
Proof.
  assert (V1 : valid (ToNumber (VStr " 12.5 ")) = true)
    by (vm_compute; reflexivity).
  assert (V2 : valid (ToNumber (VStr "abc")) = true)
    by (vm_compute; reflexivity).
  split.
  - destruct (range_validators (VStr " 12.5 ") (of_Z 0) V1 eq_refl)
      as (H & _ & _).
    apply H. vm_compute. repeat split; discriminate.
  - destruct (range_validators (VStr "abc") (of_Z 0) V2 eq_refl)
      as (_ & H & _).
    destruct (E.validateVertexDistance (VStr "abc")) as [n | ]; trivial.
    destruct (proj1 (H n) eq_refl) as (-> & Hf & _).
    vm_compute in Hf. discriminate.
Defined.

(** *** The fields of a prescription *)

Lemma formatPower_nonempty (x : number) : E.formatPower x <> "".
Proof.
  unfold E.formatPower. destruct (ge x (of_Z 0)); cbv [String.append];
    discriminate.
Qed.

Lemma validated_nonempty (x : number) :
  E.validateSPH x <> Some "" /\ E.validateCYL x <> Some "" /\
  E.validateADD x <> Some "".
Proof.
  pose proof (formatPower_nonempty x) as H.
  unfold E.validateSPH, E.validateCYL, E.validateADD.
  destruct (negb (E.isMultipleOfQuarter x)); [repeat split; discriminate |].
  repeat split;
    match goal with |- (if ?c then _ else _) <> _ => destruct c end;
    congruence.
Qed.

Section Fields.

Variables (given : bool) (key msg : string) (a : E.acc).

Lemma string_field_errors (r : option string) :
  r <> Some "" ->
  fst ((if given then E.check_string key msg r else id) a) =
  fst a ++ reported given r msg.
Proof.
  intros H. unfold reported.
  destruct given, r as [[ | ] | ]; cbn; rewrite ?app_nil_r; congruence.
Qed.

Lemma number_field_errors (r : option number) :
  fst ((if given then E.check_number key msg r else id) a) =
  fst a ++ reported given r msg.
Proof.
  unfold reported. destruct given, r; cbn; now rewrite ?app_nil_r.
Qed.

Lemma string_field_other (r : option string) (k : string) :
  k <> key ->
  snd ((if given then E.check_string key msg r else id) a) !! k = snd a !! k.
Proof.
  intros H. destruct given, r as [[ | ] | ]; cbn; trivial.
  now apply lookup_insert_ne.
Qed.

Lemma number_field_other (r : option number) (k : string) :
  k <> key ->
  snd ((if given then E.check_number key msg r else id) a) !! k = snd a !! k.
Proof.
  intros H. destruct given, r; cbn; trivial.
  now apply lookup_insert_ne.
Qed.

Lemma string_field_own (r : option string) :
  r <> Some "" -> snd a !! key = None ->
  snd ((if given then E.check_string key msg r else id) a) !! key =
  if given then VStr <$> r else None.
Proof.
  intros H Ha. destruct given, r as [[ | ] | ]; cbn; trivial; [congruence |].
  now apply lookup_insert_eq.
Qed.

Lemma number_field_own (r : option number) :
  snd a !! key = None ->
  snd ((if given then E.check_number key msg r else id) a) !! key =
  if given then VNum <$> r else None.
Proof.
  intros Ha. destruct given, r; cbn; trivial.
  now apply lookup_insert_eq.
Qed.

End Fields.

(** Seven guarded updates in a row. *)
Lemma guarded_blocks {A B : Type} (g1 g2 g3 g4 g5 g6 g7 : bool)
  (c1 c2 c3 c4 c5 c6 c7 : A -> A) (a0 : A) (F : A -> B) :
  (let a := a0 in
   let a := if g1 then c1 a else a in
   let a := if g2 then c2 a else a in
   let a := if g3 then c3 a else a in
   let a := if g4 then c4 a else a in
   let a := if g5 then c5 a else a in
   let a := if g6 then c6 a else a in
   let a := if g7 then c7 a else a in
   F a) =
  F ((if g7 then c7 else id)
       ((if g6 then c6 else id)
          ((if g5 then c5 else id)
             ((if g4 then c4 else id)
                ((if g3 then c3 else id)
                   ((if g2 then c2 else id)
                      ((if g1 then c1 else id) a0))))))).
Proof. destruct g1, g2, g3, g4, g5, g6, g7; reflexivity. Qed.

(** The guarded blocks of [validatePrescription], one after the other. *)
Lemma validatePrescription_blocks (data : gmap string value) :
  E.checkSphCylAxisCombo
    (prop data "sphere") (prop data "cylinder") (prop data "axis") = true ->
  let given key := E.supplied (prop data key) in
  let number_of key := ToNumber (prop data key) in
  let a : E.acc := ([], ∅) in
  let a :=
    (if given "sphere"
     then E.check_string "sphere" E.sph_message
            (E.validateSPH (number_of "sphere")) else id) a in
  let a :=
    (if given "cylinder"
     then E.check_string "cylinder" E.cyl_message
            (E.validateCYL (number_of "cylinder")) else id) a in
  let a :=
    (if given "axis"
     then E.check_number "axis" E.axis_message
            (E.validateAxis (number_of "axis")) else id) a in
  let a :=
    (if given "add"
     then E.check_string "add" E.add_message
            (E.validateADD (number_of "add")) else id) a in
  let a :=
    (if given "pd"
     then E.check_number "pd" E.pd_message
            (E.validatePD (number_of "pd")) else id) a in
  let a :=
    (if given "sg"
     then E.check_number "sg" E.sg_message
            (E.validateSG (prop data "sg")) else id) a in
  let a :=
    (if given "vertexDistance"
     then E.check_number "vertexDistance" E.vd_message
            (E.validateVertexDistance (prop data "vertexDistance")) else id) a in
  E.validatePrescription data =
    {| E.valid := Nat.eqb (List.length (fst a)) 0;
       E.errors := fst a;
       E.formatted := snd a |}.
Proof.
  intros Hc given number_of. subst given number_of. cbv beta zeta.
  unfold E.validatePrescription. rewrite Hc.
  exact (guarded_blocks
           (E.supplied (prop data "sphere")) (E.supplied (prop data "cylinder"))
           (E.supplied (prop data "axis")) (E.supplied (prop data "add"))
           (E.supplied (prop data "pd")) (E.supplied (prop data "sg"))
           (E.supplied (prop data "vertexDistance"))
           (E.check_string "sphere" E.sph_message
              (E.validateSPH (ToNumber (prop data "sphere"))))
           (E.check_string "cylinder" E.cyl_message
              (E.validateCYL (ToNumber (prop data "cylinder"))))
           (E.check_number "axis" E.axis_message
              (E.validateAxis (ToNumber (prop data "axis"))))
           (E.check_string "add" E.add_message
              (E.validateADD (ToNumber (prop data "add"))))
           (E.check_number "pd" E.pd_message
              (E.validatePD (ToNumber (prop data "pd"))))
           (E.check_number "sg" E.sg_message (E.validateSG (prop data "sg")))
           (E.check_number "vertexDistance" E.vd_message
              (E.validateVertexDistance (prop data "vertexDistance")))
           ([], ∅)
           (fun a => {| E.valid := Nat.eqb (List.length (fst a)) 0;
                        E.errors := fst a;
                        E.formatted := snd a |})).
Qed.

Ltac prescription data Hc :=
  rewrite (validatePrescription_blocks data Hc); cbv zeta;
  cbn [E.valid E.errors E.formatted];
  destruct (validated_nonempty (ToNumber (prop data "sphere"))) as (Ns & _ & _);
  destruct (validated_nonempty (ToNumber (prop data "cylinder"))) as (_ & Nc & _);
  destruct (validated_nonempty (ToNumber (prop data "add"))) as (_ & _ & Na).

Ltac other_field :=
  first [ rewrite number_field_other by discriminate
        | rewrite string_field_other by discriminate ].

Ltac own_field :=
  first [ rewrite number_field_own | rewrite string_field_own ];
  [ reflexivity | .. ]; trivial; repeat other_field; apply lookup_empty.

Section Prescription.

Variable data : gmap string value.
Hypothesis Hc :
  E.checkSphCylAxisCombo
    (prop data "sphere") (prop data "cylinder") (prop data "axis") = true.

Let r := E.validatePrescription data.
Let given (key : string) : bool := E.supplied (prop data key).
Let number_of (key : string) : number := ToNumber (prop data key).

Lemma prescription_errors :
  E.errors r =
  reported (given "sphere") (E.validateSPH (number_of "sphere")) E.sph_message ++
  reported (given "cylinder") (E.validateCYL (number_of "cylinder")) E.cyl_message ++
  reported (given "axis") (E.validateAxis (number_of "axis")) E.axis_message ++
  reported (given "add") (E.validateADD (number_of "add")) E.add_message ++
  reported (given "pd") (E.validatePD (number_of "pd")) E.pd_message ++
  reported (given "sg") (E.validateSG (prop data "sg")) E.sg_message ++
  reported (given "vertexDistance")
    (E.validateVertexDistance (prop data "vertexDistance")) E.vd_message.
Proof.
  subst r given number_of. prescription data Hc.
  rewrite !number_field_errors, (string_field_errors _ _ _ _ _ Na),
    !number_field_errors, (string_field_errors _ _ _ _ _ Nc),
    (string_field_errors _ _ _ _ _ Ns).
  cbn [fst app]. now rewrite <- !app_assoc.
Qed.

Lemma prescription_formatted :
  E.formatted r !! "sphere" =
    (if given "sphere" then VStr <$> E.validateSPH (number_of "sphere") else None) /\
  E.formatted r !! "cylinder" =
    (if given "cylinder" then VStr <$> E.validateCYL (number_of "cylinder") else None) /\
  E.formatted r !! "axis" =
    (if given "axis" then VNum <$> E.validateAxis (number_of "axis") else None) /\
  E.formatted r !! "add" =
    (if given "add" then VStr <$> E.validateADD (number_of "add") else None) /\
  E.formatted r !! "pd" =
    (if given "pd" then VNum <$> E.validatePD (number_of "pd") else None) /\
  E.formatted r !! "sg" =
    (if given "sg" then VNum <$> E.validateSG (prop data "sg") else None) /\
  E.formatted r !! "vertexDistance" =
    (if given "vertexDistance"
     then VNum <$> E.validateVertexDistance (prop data "vertexDistance")
     else None) /\
  (forall key,
     ~ In key ["sphere"; "cylinder"; "axis"; "add"; "pd"; "sg"; "vertexDistance"] ->
     E.formatted r !! key = None).
Proof.
  subst r given number_of. prescription data Hc.
  repeat split; try (repeat other_field; own_field).
  intros key Hk. cbn [In] in Hk.
  repeat first [ rewrite number_field_other by (intros ->; tauto)
               | rewrite string_field_other by (intros ->; tauto) ].
  apply lookup_empty.
Qed.

End Prescription.

Lemma combo_cases (sph cyl axis : value) :
  E.checkSphCylAxisCombo sph cyl axis =
  let hasCyl := E.supplied cyl && negb (strict_eq (ToNumber cyl) (of_Z 0)) in
  hasCyl && E.supplied axis ||
  E.supplied sph && negb hasCyl && negb (E.supplied axis).
Proof.
  unfold E.checkSphCylAxisCombo.
  destruct (E.supplied sph), (E.supplied cyl), (E.supplied axis),
    (strict_eq (ToNumber cyl) (of_Z 0)); reflexivity.
Qed.

(** X9. [checkSphCylAxisCombo] passes exactly when a cylinder that is not
    zero comes with an axis, or a sphere comes with no axis and no cylinder
    other than zero. An axis without such a cylinder, a cylinder without an
    axis, and an input with none of the three all fail; a cylinder given as
    text that is not a number counts as present. *)
Theorem checkSphCylAxisCombo_spec (sph cyl axis : value) :
  let hasCyl := E.supplied cyl && negb (strict_eq (ToNumber cyl) (of_Z 0)) in
  (E.checkSphCylAxisCombo sph cyl axis = true <->
     hasCyl = true /\ E.supplied axis = true \/
     E.supplied sph = true /\ hasCyl = false /\ E.supplied axis = false) /\
  (E.supplied axis = true -> hasCyl = false ->
     E.checkSphCylAxisCombo sph cyl axis = false) /\
  (hasCyl = true -> E.supplied axis = false ->
     E.checkSphCylAxisCombo sph cyl axis = false) /\
  (E.supplied sph = false -> E.supplied axis = false ->
     E.checkSphCylAxisCombo sph cyl axis = false) /\
  (E.supplied cyl = true -> isNaN (ToNumber cyl) = true ->
     E.checkSphCylAxisCombo sph cyl axis = E.supplied axis).
Proof.
  intros hasCyl. rewrite combo_cases. cbv zeta. fold hasCyl.
  split; [| split; [| split; [| split]]].
  - destruct hasCyl, (E.supplied axis), (E.supplied sph); cbn;
      intuition congruence.
  - intros Ha Hh. rewrite Ha, Hh. now destruct (E.supplied sph).
  - intros Hh Ha. rewrite Ha, Hh. now destruct (E.supplied sph).
  - intros Hs Ha. rewrite Hs, Ha. now destruct hasCyl.
  - intros Hs Hn. subst hasCyl. rewrite Hs.
    destruct (ToNumber cyl); try discriminate. cbn.
    now destruct (E.supplied axis), (E.supplied sph).
Qed.

(** X10. When the combination check passes, [validatePrescription] treats
    the seven fields independently and in a fixed order: [errors] lists, in
    the order sphere, cylinder, axis, add, pd, sg, vertexDistance, the
    message of every supplied field whose validator returns null, and
    [formatted] holds under each supplied field's key what its validator
    returned, and nothing else. *)
Theorem validatePrescription_fields (data : gmap string value)
  (Hc : E.checkSphCylAxisCombo
          (prop data "sphere") (prop data "cylinder") (prop data "axis") = true) :
  let r := E.validatePrescription data in
  let given key := E.supplied (prop data key) in
  let number_of key := ToNumber (prop data key) in
  E.errors r =
    reported (given "sphere") (E.validateSPH (number_of "sphere")) E.sph_message ++
    reported (given "cylinder") (E.validateCYL (number_of "cylinder")) E.cyl_message ++
    reported (given "axis") (E.validateAxis (number_of "axis")) E.axis_message ++
    reported (given "add") (E.validateADD (number_of "add")) E.add_message ++
    reported (given "pd") (E.validatePD (number_of "pd")) E.pd_message ++
    reported (given "sg") (E.validateSG (prop data "sg")) E.sg_message ++
    reported (given "vertexDistance")
      (E.validateVertexDistance (prop data "vertexDistance")) E.vd_message /\
  E.formatted r !! "sphere" =
    (if given "sphere" then VStr <$> E.validateSPH (number_of "sphere") else None) /\
  E.formatted r !! "cylinder" =
    (if given "cylinder" then VStr <$> E.validateCYL (number_of "cylinder") else None) /\
  E.formatted r !! "axis" =
    (if given "axis" then VNum <$> E.validateAxis (number_of "axis") else None) /\
  E.formatted r !! "add" =
    (if given "add" then VStr <$> E.validateADD (number_of "add") else None) /\
  E.formatted r !! "pd" =
    (if given "pd" then VNum <$> E.validatePD (number_of "pd") else None) /\
  E.formatted r !! "sg" =
    (if given "sg" then VNum <$> E.validateSG (prop data "sg") else None) /\
  E.formatted r !! "vertexDistance" =
    (if given "vertexDistance"
     then VNum <$> E.validateVertexDistance (prop data "vertexDistance")
     else None) /\
  (forall key,
     ~ In key ["sphere"; "cylinder"; "axis"; "add"; "pd"; "sg"; "vertexDistance"] ->
     E.formatted r !! key = None) /\
  E.valid r = Nat.eqb (List.length (E.errors r)) 0.
Proof.
  intros r given number_of.
  split; [apply (prescription_errors data Hc) |].
  pose proof (prescription_formatted data Hc) as H. cbv beta zeta in H.
  destruct H as (H1 & H2 & H3 & H4 & H5 & H6 & H7 & H8).
  repeat (split; [assumption |]).
  subst r. now rewrite (validatePrescription_blocks data Hc).
Qed.

Lemma validatePrescription_fields_witness :
  let data := object [("sphere", VNum (of_decimal (-25) (-1)));
                      ("cylinder", VStr "-0.75"); ("axis", VNum (of_Z 90));
                      ("add", VNum (of_Z 7)); ("pd", VNum (of_Z 12))] in
  E.errors (E.validatePrescription data) = [E.add_message; E.pd_message] /\
  E.formatted (E.validatePrescription data) !! "cylinder" = Some (VStr "-00.75").
Proof.
  intros data.
  assert (Hc : E.checkSphCylAxisCombo
                 (prop data "sphere") (prop data "cylinder") (prop data "axis")
               = true) by (vm_compute; reflexivity).
  destruct (validatePrescription_fields data Hc) as (He & _ & Hcyl & _).
  rewrite He, Hcyl. split; vm_compute; reflexivity.
Defined.

Lemma reported_nil {A : Type} (g : bool) (r : option A) (msg : string) :
  reported g r msg = [] -> g = true -> is_Some r.
Proof. intros H ->. destruct r; [eauto | discriminate]. Qed.

Lemma reported_in {A : Type} (g : bool) (r : option A) (msg m : string) :
  In m (reported g r msg) -> m = msg /\ g = true /\ r = None.
Proof.
  destruct g, r; cbn; intros H; try tauto.
  destruct H as [<- | []]. auto.
Qed.

(** X11. In every result of [validatePrescription], [valid] holds exactly
    when [errors] is empty, and [formatted] has entries only for supplied
    fields among the seven known ones. In a valid result every supplied
    field has its entry, there is a sphere or both a cylinder and an axis,
    and an axis never comes without a cylinder. *)
Theorem validatePrescription_invariants (data : gmap string value) :
  let r := E.validatePrescription data in
  let known :=
    ["sphere"; "cylinder"; "axis"; "add"; "pd"; "sg"; "vertexDistance"] in
  (E.valid r = true <-> E.errors r = []) /\
  (forall key v, E.formatted r !! key = Some v ->
     In key known /\ E.supplied (prop data key) = true) /\
  (E.valid r = true ->
     (forall key, In key known -> E.supplied (prop data key) = true ->
        is_Some (E.formatted r !! key)) /\
     (is_Some (E.formatted r !! "sphere") \/
      is_Some (E.formatted r !! "cylinder") /\
      is_Some (E.formatted r !! "axis")) /\
     (is_Some (E.formatted r !! "axis") ->
      is_Some (E.formatted r !! "cylinder"))).
Proof.
  intros r known.
  destruct (E.checkSphCylAxisCombo (prop data "sphere")
              (prop data "cylinder") (prop data "axis")) eqn:Hc.
  - pose proof (prescription_errors data Hc) as He.
    pose proof (prescription_formatted data Hc) as Hf.
    pose proof (validatePrescription_blocks data Hc) as Hb.
    cbv beta zeta in He, Hf, Hb. fold r in He, Hf, Hb.
    destruct Hf as (H1 & H2 & H3 & H4 & H5 & H6 & H7 & H8).
    assert (Hv : E.valid r = true <-> E.errors r = []).
    { rewrite Hb. cbn [E.valid E.errors].
      match goal with |- (length ?l =? 0)%nat = true <-> _ =>
        destruct l; cbn; split; congruence end. }
    assert (Hin : forall key v, E.formatted r !! key = Some v ->
              In key known /\ E.supplied (prop data key) = true).
    { intros key v Hk.
      destruct (in_dec string_dec key known) as [Hi | Ho];
        [| rewrite (H8 key Ho) in Hk; discriminate].
      split; trivial. subst known. cbn [In] in Hi.
      repeat (destruct Hi as [<- | Hi];
        [match goal with
         | H : E.formatted r !! ?k = _, Hk : E.formatted r !! ?k = Some _ |- _ =>
             rewrite H in Hk; destruct (E.supplied (prop data k));
               [reflexivity | discriminate]
         end |]).
      destruct Hi. }
    split; [exact Hv |]. split; [exact Hin |].
    intros Hval. apply Hv in Hval. rewrite Hval in He. symmetry in He.
    repeat match type of He with
           | _ ++ _ = [] => apply app_eq_nil in He as [? He]
           end.
    assert (Hall : forall key, In key known ->
              E.supplied (prop data key) = true ->
              is_Some (E.formatted r !! key)).
    { intros key Hi Hs. subst known. cbn [In] in Hi.
      repeat (destruct Hi as [<- | Hi];
        [match goal with
         | H : E.formatted r !! ?k = _ |- is_Some (E.formatted r !! ?k) =>
             rewrite H, Hs; apply fmap_is_Some; eapply reported_nil; eauto
         end |]).
      destruct Hi. }
    split; [exact Hall |].
    rewrite combo_cases in Hc. cbv zeta in Hc.
    assert (Hcases :
      E.supplied (prop data "cylinder") = true /\
      E.supplied (prop data "axis") = true \/
      E.supplied (prop data "sphere") = true /\
      E.supplied (prop data "axis") = false).
    { destruct (E.supplied (prop data "sphere")),
        (E.supplied (prop data "cylinder")),
        (E.supplied (prop data "axis")),
        (strict_eq (ToNumber (prop data "cylinder")) (of_Z 0));
        cbn in Hc; auto; discriminate. }
    split.
    + destruct Hcases as [[Hcy Hax] | [Hsp _]].
      * right. split; apply Hall; subst known; cbn; tauto.
      * left. apply Hall; subst known; cbn; tauto.
    + intros [v Hax]. apply Hin in Hax as [_ Hax].
      destruct Hcases as [[Hcy _] | [_ Hno]]; [| congruence].
      apply Hall; subst known; cbn; tauto.
  - subst r. unfold E.validatePrescription. rewrite Hc.
    cbn [negb E.valid E.errors E.formatted app].
    split; [split; discriminate |].
    split; [| discriminate].
    intros key v H. rewrite lookup_empty in H. discriminate.
Qed.

Lemma not_a_number_outcomes (x : number) (v : value) :
  (isNaN x = true ->
   E.validateSPH x = None /\ E.validateCYL x = None /\
   E.validateADD x = None /\ E.validatePD x = None /\
   E.validateAxis x = Some NaN) /\
  (isNaN (ToNumber v) = true ->
   E.validateSG v = None /\ E.validateVertexDistance v = None).
Proof.
  split.
  - destruct x; try discriminate. intros _. repeat split.
  - intros H. unfold E.validateSG, E.validateVertexDistance.
    destruct (ToNumber v); try discriminate. split; reflexivity.
Qed.

(** X12. When the combination check passes, a supplied field whose text
    is not a number (so that [Number] gives NaN) is reported with its
    message and left out of [formatted] for sphere, cylinder, add, pd, sg
    and vertexDistance; for the axis no message is reported and
    [formatted.axis] is NaN. When the check fails, as for
    [{axis: "abc"}] and [{cylinder: "abc"}], the combination message is
    all there is. *)
Theorem validatePrescription_not_a_number (data : gmap string value)
  (Hc : E.checkSphCylAxisCombo
          (prop data "sphere") (prop data "cylinder") (prop data "axis") = true) :
  let r := E.validatePrescription data in
  (forall key msg,
     In (key, msg)
        [("sphere", E.sph_message); ("cylinder", E.cyl_message);
         ("add", E.add_message); ("pd", E.pd_message);
         ("sg", E.sg_message); ("vertexDistance", E.vd_message)] ->
     E.supplied (prop data key) = true ->
     isNaN (ToNumber (prop data key)) = true ->
     In msg (E.errors r) /\ E.formatted r !! key = None) /\
  (E.supplied (prop data "axis") = true ->
   isNaN (ToNumber (prop data "axis")) = true ->
   E.formatted r !! "axis" = Some (VNum NaN) /\
   ~ In E.axis_message (E.errors r)) /\
  E.validatePrescription (object [("axis", VStr "abc")]) =
    {| E.valid := false; E.errors := [E.combo_message]; E.formatted := ∅ |} /\
  E.validatePrescription (object [("cylinder", VStr "abc")]) =
    {| E.valid := false; E.errors := [E.combo_message]; E.formatted := ∅ |}.
Proof.
  intros r.
  assert (Hfail :
    E.validatePrescription (object [("axis", VStr "abc")]) =
      {| E.valid := false; E.errors := [E.combo_message]; E.formatted := ∅ |} /\
    E.validatePrescription (object [("cylinder", VStr "abc")]) =
      {| E.valid := false; E.errors := [E.combo_message]; E.formatted := ∅ |})
    by (split; vm_compute; reflexivity).
  pose proof (prescription_errors data Hc) as He.
  pose proof (prescription_formatted data Hc) as Hf.
  cbv beta zeta in He, Hf. fold r in He, Hf.
  destruct Hf as (H1 & H2 & H3 & H4 & H5 & H6 & H7 & _).
  split; [| split; [| exact Hfail]].
  - intros key msg Hi Hs Hn. cbn [In] in Hi.
    destruct (not_a_number_outcomes (ToNumber (prop data key)) (prop data key))
      as (Hx & Hv).
    destruct (Hx Hn) as (Esph & Ecyl & Eadd & Epd & _).
    destruct (Hv Hn) as (Esg & Evd).
    rewrite He, !in_app_iff.
    repeat (destruct Hi as [[= <- <-] | Hi];
      [match goal with
       | H : E.formatted r !! ?k = _ |- _ /\ E.formatted r !! ?k = None =>
           rewrite H, Hs, ?Esph, ?Ecyl, ?Eadd, ?Epd, ?Esg, ?Evd;
           cbn; tauto
       end |]).
    destruct Hi.
  - intros Hs Hn.
    destruct (not_a_number_outcomes (ToNumber (prop data "axis")) VNull)
      as (Hx & _).
    destruct (Hx Hn) as (_ & _ & _ & _ & Eax).
    rewrite H3, He, Hs, Eax. split; [reflexivity |].
    rewrite !in_app_iff.
    intros H.
    repeat (destruct H as [H | H];
            [apply reported_in in H as (Hm & _ & Hr); discriminate |]).
    apply reported_in in H as (Hm & _). discriminate.
Qed.

Lemma validatePrescription_not_a_number_witness :
  let data := object [("sphere", VNum (of_Z (-1)));
                      ("cylinder", VNum (of_decimal (-5) (-1)));
                      ("axis", VStr "abc"); ("pd", VStr "sixty")] in
  In E.pd_message (E.errors (E.validatePrescription data)) /\
  E.formatted (E.validatePrescription data) !! "axis" = Some (VNum NaN).
Proof.
  intros data.
  assert (Hc : E.checkSphCylAxisCombo
                 (prop data "sphere") (prop data "cylinder") (prop data "axis")
               = true) by (vm_compute; reflexivity).
  destruct (validatePrescription_not_a_number data Hc) as (Hrej & Hax & _).
  split.
  - apply (Hrej "pd" E.pd_message); [cbn; tauto | |]; vm_compute; reflexivity.
  - apply Hax; vm_compute; reflexivity.
Defined.

(** *** Quarters in the converter *)

(** Multiplying a normal number by 4 is exact below the overflow
    threshold. *)
Lemma mul_4_normal (s : bool) (m : positive) (e : Z) :
  Zpos (digits2_pos m) = 53 -> -1074 <= e -> e + 2 <= 971 ->
  mul (S754_finite s m e) (of_Z 4) = S754_finite s m (e + 2).
Proof.
  intros Hd He Hle.
  rewrite four_value. unfold mul. cbn [SFmul]. rewrite xorb_false_r.
  rewrite Pos2Z.inj_mul. change (Zpos 4503599627370496) with (2 ^ 52).
  rewrite (binary_round_aux_exact s m 52 (e + -50)) by
    (rewrite ?fexp_value; lia).
  replace (e + -50 + 52) with (e + 2) by lia.
  assert (H : (e + 2 <=? 971) = true) by (apply Z.leb_le; lia).
  now rewrite H.
Qed.

(** The two shapes of a rounded quarter: a zero, or the rounded quadruple
    with its exponent lowered by 2. *)
Lemma rounded_quarter_shape (x : number) :
  valid x = true -> is_finite x = true ->
  is_finite (mul x (of_Z 4)) = true ->
  (exists s,
     Math_round (mul x (of_Z 4)) = S754_zero s /\
     C.roundToNearestQuarter x = S754_zero s) \/
  (exists s m e,
     Math_round (mul x (of_Z 4)) = S754_finite s m e /\
     C.roundToNearestQuarter x = S754_finite s m (e - 2) /\
     bounded prec emax m e = true /\ bounded prec emax m (e - 2) = true /\
     Zpos (digits2_pos m) = 53 /\ -1071 <= e).
Proof.
  intros Vx Fx Hf. destruct (mul_4_exact x Vx Fx Hf) as [Vy _].
  unfold C.roundToNearestQuarter.
  destruct (Math_round_shape _ Vy Hf) as [[s Hz] | (s & m & e & Hr & Hb & Hd & He)].
  - left. exists s. rewrite Hz. split; trivial. now destruct s.
  - right. exists s, m, e. rewrite Hr.
    destruct (div_4_exact s m e Hb Hd He) as [Hq Hbq]. auto 10.
Qed.

Lemma rounded_quarter_value (x : number) :
  valid x = true -> is_finite x = true ->
  is_finite (mul x (of_Z 4)) = true ->
  valid (C.roundToNearestQuarter x) = true /\
  is_finite (C.roundToNearestQuarter x) = true /\
  exact (C.roundToNearestQuarter x) ==
    round_half_up (exact x * inject_Z 4) # 4.
Proof.
  intros Vx Fx Hf. destruct (mul_4_exact x Vx Fx Hf) as [Vy _].
  pose proof (exact_mul_4 x Vx Fx Hf) as Ey.
  destruct (Math_round_scaled _ (valid_representable _ Vy) Hf) as (_ & _ & Hs).
  unfold round_half_up in Hs. rewrite Ey in Hs.
  fold (round_half_up (exact x * inject_Z 4)) in Hs.
  destruct (rounded_quarter_shape x Vx Fx Hf)
    as [(s & Hz & ->) | (s & m & e & Hr & -> & Hb & Hbq & Hd & He)].
  - rewrite Hz in Hs. cbn [scaled] in Hs.
    assert (HN : round_half_up (exact x * inject_Z 4) = 0).
    { pose proof (pow2_pos 1074 ltac:(lia)). nia. }
    rewrite HN. repeat split.
  - rewrite Hr in Hs. split; [exact Hbq |]. split; [reflexivity |].
    rewrite (exact_scaled (S754_finite s m (e - 2)) Hbq).
    unfold Qeq. cbn [Qnum Qden scaled] in *. rewrite Pos2Z.inj_pow.
    rewrite <- Hs.
    replace (e + 1074) with (2 + (e - 2 + 1074)) by lia.
    rewrite (Z.pow_add_r 2 2) by (destruct (bounded_inv _ _ Hbq); lia).
    change (2 ^ 2) with 4. change (Zpos 4) with 4. ring.
Qed.

Lemma nearest_quarter_distance (q : Q) :
  (Qabs ((round_half_up (q * inject_Z 4) # 4) - q) <= 1 # 8)%Q.
Proof.
  unfold round_half_up.
  pose proof (Qfloor_le (q * inject_Z 4 + (1 # 2))) as Hlo.
  pose proof (Qlt_floor (q * inject_Z 4 + (1 # 2))) as Hhi.
  set (N := Qfloor (q * inject_Z 4 + (1 # 2))) in *. clearbody N.
  apply Qabs_Qle_condition.
  destruct q as [a b]. unfold Qminus.
  unfold Qle, Qlt, Qplus, Qmult, Qopp, inject_Z in *.
  cbn [Qnum Qden] in *.
  rewrite ?Pos2Z.inj_mul in *. pose proof (Pos2Z.is_pos b). split; nia.
Qed.

(** X13. For a finite [x] whose quadruple does not overflow,
    [roundToNearestQuarter(x)] is at most one eighth away from [x], passes
    the converter's own quarter test, so that [formatNumberCustom] prints
    it rather than a blank, and is left unchanged by a second rounding. *)
Theorem rounded_quarter_is_printed (x : number)
  (Vx : valid x = true) (Fx : is_finite x = true)
  (Hf : is_finite (mul x (of_Z 4)) = true) :
  let r := C.roundToNearestQuarter x in
  (Qabs (exact r - exact x) <= 1 # 8)%Q /\
  C.isMultipleOfQuarter r = true /\
  C.formatNumberCustom (VNum r) = VStr (C.formatPower r) /\
  C.roundToNearestQuarter r = r.
Proof.
  intros r. destruct (rounded_quarter_value x Vx Fx Hf) as (Vr & Fr & Er).
  fold r in Vr, Fr, Er.
  assert (Hq : C.isMultipleOfQuarter r = true).
  { apply (converter_quarter_test r Vr). split; trivial.
    now exists (round_half_up (exact x * inject_Z 4)). }
  split; [| split; [exact Hq | split]].
  - rewrite Er. apply nearest_quarter_distance.
  - unfold C.formatNumberCustom. now rewrite Hq.
  - destruct (rounded_quarter_shape x Vx Fx Hf)
      as [(s & Hz & Hr) | (s & m & e & Hm & Hr & Hb & Hbq & Hd & He)];
      fold r in Hr; rewrite Hr.
    + now destruct s.
    + destruct (bounded_inv _ _ Hb) as (Hmax & _).
      destruct (bounded_inv _ _ Hbq) as (Hmin & _).
      unfold C.roundToNearestQuarter.
      rewrite (mul_4_normal s m (e - 2)) by lia.
      replace (e - 2 + 2) with e by lia.
      rewrite <- Hm, Math_round_idempotent, Hm.
      * apply (div_4_exact s m e Hb Hd He).
      * apply (mul_4_exact x Vx Fx Hf).
Qed.

Lemma rounded_quarter_is_printed_witness :
  C.formatNumberCustom (VNum (C.roundToNearestQuarter (of_decimal (-688) (-2))))
  = VStr "-07.00".
Proof.
  destruct (rounded_quarter_is_printed (of_decimal (-688) (-2)))
    as (_ & _ & H & _); [vm_compute; reflexivity .. |].
  rewrite H. vm_compute. reflexivity.
Defined.

(** X14. When the quadruple of [x] is not finite ([x] is NaN, infinite or
    too large), [formatNumberCustom] turns [roundToNearestQuarter(x)] into
    the empty string. *)
Theorem unrounded_quarter_is_blank (x : number)
  (Hf : is_finite (mul x (of_Z 4)) = false) :
  C.formatNumberCustom (VNum (C.roundToNearestQuarter x)) = VStr "".
Proof.
  unfold C.formatNumberCustom, C.roundToNearestQuarter.
  destruct (mul x (of_Z 4)) as [s | s | | s m e]; try discriminate.
  - now destruct s.
  - reflexivity.
Qed.

Lemma unrounded_quarter_is_blank_witness :
  C.formatNumberCustom (VNum (C.roundToNearestQuarter (parseFloat "abc")))
  = VStr "".
Proof.
  apply (unrounded_quarter_is_blank (parseFloat "abc")).
  vm_compute. reflexivity.
Defined.

(** *** What the converters read and return *)

Lemma input_given (data : gmap string value) (key dflt : string) (z : number)
  (v : value) :
  prop data key = v -> v <> VNull -> v <> VUndefined ->
  input data key dflt z = C.parse_or (trim (ToString v)) z.
Proof.
  intros H Hn Hu. unfold input, C.field. rewrite H.
  destruct v; congruence.
Qed.

Lemma written_quarters_checked :
  forallb (fun i => quarter_checked read_as_written (-240 + Z.of_nat i))
          (seq 0 481) = true.
Proof. vm_compute. reflexivity. Qed.

(** X15. A field that is missing, null, or a blank string is read as its
    default: 0, and 12 for the vertex distance. A multiple of 0.25 between
    -60 and 60 that is given as a number, as its decimal text or as its
    formatted power is read as that number. *)
Theorem input_spec (data : gmap string value) (key : string) :
  ((prop data key = VUndefined \/ prop data key = VNull \/
    exists s, prop data key = VStr s /\ trim s = "") ->
   input data key "0" (of_Z 0) = of_Z 0 /\
   input data key "12" (of_Z 12) = of_Z 12) /\
  (forall (x : number) (k : Z) (dflt : string) (z : number),
     valid x = true -> is_finite x = true ->
     exact x == k # 4 -> -240 <= k <= 240 ->
     prop data key = VNum x \/ prop data key = VStr (toString x) \/
     prop data key = VStr (C.formatPower x) ->
     strict_eq (input data key dflt z) x = true).
Proof.
  split.
  - intros [H | [H | (s & H & Hs)]]; unfold input, C.field; rewrite H;
      cbn [ToString]; rewrite ?Hs; split; vm_compute; reflexivity.
  - intros x k dflt z Vx Fx Hq Hk Hv.
    pose proof (on_quarters read_as_written (-240) 481
                  written_quarters_checked x k Vx Fx Hq ltac:(lia)) as Hr.
    unfold read_as_written in Hr.
    apply andb_prop in Hr as [Hr H4]. apply andb_prop in Hr as [Hr H3].
    apply andb_prop in Hr as [H1 H2].
    destruct Hv as [H | [H | H]];
      rewrite (input_given data key dflt z _ H) by discriminate;
      unfold C.parse_or; cbn [ToString]; rewrite ?H1, ?H3; assumption.
Qed.

(** X16. The converters return exactly the keys SPH, ADD, Exact SPH, AX, BV
    (spheric) and SPH, CY, ADD, AX, Exact SPH, Exact CY, BV (toric). The
    ADD entry is the addition read from the input, printed by
    [formatNumberCustom]: blank unless it is a multiple of 0.25. *)
Theorem converter_result_shape (data : gmap string value) :
  dom (C.convertToSpheric data) =
    ({["SPH"; "ADD"; "Exact SPH"; "AX"; "BV"]} : gset string) /\
  dom (C.convertToToric data) =
    ({["SPH"; "CY"; "ADD"; "AX"; "Exact SPH"; "Exact CY"; "BV"]} : gset string) /\
  C.convertToSpheric data !! "ADD" =
    Some (C.formatNumberCustom (VNum (input data "ADD" "0" (of_Z 0)))) /\
  C.convertToToric data !! "ADD" =
    Some (C.formatNumberCustom (VNum (input data "ADD" "0" (of_Z 0)))) /\
  (valid (input data "ADD" "0" (of_Z 0)) = true ->
   C.formatNumberCustom (VNum (input data "ADD" "0" (of_Z 0))) =
     VStr (C.formatPower (input data "ADD" "0" (of_Z 0))) /\
   is_finite (input data "ADD" "0" (of_Z 0)) = true /\
   quarter_multiple (exact (input data "ADD" "0" (of_Z 0))) \/
   C.formatNumberCustom (VNum (input data "ADD" "0" (of_Z 0))) = VStr "" /\
   ~ (is_finite (input data "ADD" "0" (of_Z 0)) = true /\
      quarter_multiple (exact (input data "ADD" "0" (of_Z 0))))).
Proof.
  assert (Hs : C.convertToSpheric data !! "ADD" =
    Some (C.formatNumberCustom (VNum (input data "ADD" "0" (of_Z 0))))).
  { unfold C.convertToSpheric, C.formatResultToQuarter.
    rewrite !lookup_insert_ne by discriminate.
    rewrite lookup_fmap. now rewrite lookup_insert_eq. }
  assert (Ht : C.convertToToric data !! "ADD" =
    Some (C.formatNumberCustom (VNum (input data "ADD" "0" (of_Z 0))))).
  { unfold C.convertToToric, C.formatResultToQuarter.
    rewrite !lookup_insert_ne by discriminate.
    rewrite lookup_fmap. now rewrite lookup_insert_eq. }
  split; [| split; [| split; [exact Hs | split; [exact Ht |]]]].
  - unfold C.convertToSpheric, C.formatResultToQuarter.
    rewrite !dom_insert_L, dom_fmap_L, !dom_insert_L, dom_empty_L.
    set_solver.
  - unfold C.convertToToric, C.formatResultToQuarter.
    rewrite !dom_insert_L, dom_fmap_L, !dom_insert_L, dom_empty_L.
    set_solver.
  - intros Va. unfold C.formatNumberCustom.
    set (a := input data "ADD" "0" (of_Z 0)) in *.
    pose proof (converter_quarter_test a Va) as Hq.
    destruct (C.isMultipleOfQuarter a).
    + left. split; trivial. now apply Hq.
    + right. split; trivial. intros H. apply Hq in H. discriminate.
Qed.

(** *** A prescription without cylinder, converted as toric *)

Lemma sub_diag (p : number) : is_finite p = true -> sub p p = of_Z 0.
Proof.
  destruct p as [[ | ] | | | s m e]; try discriminate; intros _;
    try reflexivity.
  unfold sub. cbn [SFsub]. now rewrite Z.sub_diag.
Qed.

(** With a zero cylinder the two meridians are compensated alike. *)
Lemma equal_meridians (sph cyl bv : number) :
  strict_eq cyl (of_Z 0) = true ->
  is_finite (C.sphericWithoutVertexDistance sph bv) = true ->
  sub (C.sphericWithoutVertexDistance (add sph cyl) bv)
      (C.sphericWithoutVertexDistance sph bv) = of_Z 0.
Proof.
  intros Hz.
  destruct cyl as [[ | ] | [ | ] | | [ | ] ? ?]; try discriminate; clear Hz.
  - destruct sph as [[ | ] | | | s m e]; intros H; now apply sub_diag.
  - destruct sph as [[ | ] | | | s m e]; try (intros H; now apply sub_diag).
    unfold C.sphericWithoutVertexDistance.
    destruct (div bv (of_Z 1000)) as [[ | ] | [ | ] | | [ | ] m e];
      try discriminate; reflexivity.
Qed.

(** X17. When the cylinder read from the input is zero, of either sign,
    and the compensated sphere is finite, [convertToToric] returns the
    cylinder ["+00.00"], rounded and exact; when moreover [|SPH| > 4] its
    SPH and Exact SPH are those of [convertToSpheric]. Otherwise the
    Exact SPH of [convertToSpheric] is the sphere as read and that of
    [convertToToric] the compensated one, so that the two results may
    differ: for [{SPH: 4}] the toric SPH is ["+04.25"] and the spheric one
    ["+04.00"], while for [{SPH: 0}] both are ["+00.00"]. *)
Theorem toric_without_cylinder (data : gmap string value)
  (Hcyl : strict_eq (input data "CY" "0" (of_Z 0)) (of_Z 0) = true)
  (Hfin : is_finite (C.sphericWithoutVertexDistance
                       (input data "SPH" "0" (of_Z 0))
                       (input data "BV" "12" (of_Z 12))) = true) :
  let sph := input data "SPH" "0" (of_Z 0) in
  let bv := input data "BV" "12" (of_Z 12) in
  C.convertToToric data !! "CY" = Some (VStr "+00.00") /\
  C.convertToToric data !! "Exact CY" = Some (VStr "+00.00") /\
  (gt (Math_abs sph) (of_Z 4) = true ->
   C.convertToToric data !! "SPH" = C.convertToSpheric data !! "SPH" /\
   C.convertToToric data !! "Exact SPH" = C.convertToSpheric data !! "Exact SPH") /\
  (gt (Math_abs sph) (of_Z 4) = false ->
   C.convertToSpheric data !! "Exact SPH" = Some (VStr (C.formatPower sph)) /\
   C.convertToToric data !! "Exact SPH" =
     Some (VStr (C.formatPower (C.sphericWithoutVertexDistance sph bv)))) /\
  C.convertToToric (object [("SPH", VNum (of_Z 4))]) !! "SPH" =
    Some (VStr "+04.25") /\
  C.convertToSpheric (object [("SPH", VNum (of_Z 4))]) !! "SPH" =
    Some (VStr "+04.00") /\
  C.convertToToric (object [("SPH", VNum (of_Z 0))]) !! "SPH" =
    Some (VStr "+00.00") /\
  C.convertToSpheric (object [("SPH", VNum (of_Z 0))]) !! "SPH" =
    Some (VStr "+00.00").
Proof.
  intros sph bv.
  pose proof (equal_meridians sph _ bv Hcyl Hfin) as Hz.
  assert (Habs : strict_eq (Math_abs (input data "CY" "0" (of_Z 0))) (of_Z 0)
                 = true).
  { destruct (input data "CY" "0" (of_Z 0)) as [[ | ] | [ | ] | | [ | ] ? ?];
      try discriminate; reflexivity. }
  split; [| split; [| split; [| split;
    [| repeat split; vm_compute; reflexivity]]]].
  - unfold C.convertToToric, C.formatResultToQuarter.
    fold (input data "SPH" "0" (of_Z 0)) (input data "CY" "0" (of_Z 0))
         (input data "BV" "12" (of_Z 12)).
    fold sph bv. rewrite Hz.
    rewrite !lookup_insert_ne by discriminate.
    rewrite lookup_fmap, lookup_insert_ne by discriminate.
    now rewrite lookup_insert_eq.
  - unfold C.convertToToric, C.formatResultToQuarter.
    fold (input data "SPH" "0" (of_Z 0)) (input data "CY" "0" (of_Z 0))
         (input data "BV" "12" (of_Z 12)).
    fold sph bv. rewrite Hz.
    rewrite lookup_insert_ne by discriminate. now rewrite lookup_insert_eq.
  - intros Hgt.
    unfold C.convertToToric, C.convertToSpheric, C.formatResultToQuarter.
    fold (input data "SPH" "0" (of_Z 0)) (input data "CY" "0" (of_Z 0))
         (input data "BV" "12" (of_Z 12)).
    fold sph bv. rewrite Habs. cbn [negb]. rewrite Hgt. split.
    + rewrite !lookup_insert_ne by discriminate.
      rewrite !lookup_fmap, !lookup_insert_ne by discriminate.
      now rewrite !lookup_insert_eq.
    + rewrite !lookup_insert_ne by discriminate.
      now rewrite !lookup_insert_eq.
  - intros Hle.
    unfold C.convertToToric, C.convertToSpheric, C.formatResultToQuarter.
    fold (input data "SPH" "0" (of_Z 0)) (input data "CY" "0" (of_Z 0))
         (input data "BV" "12" (of_Z 12)).
    fold sph bv. rewrite Habs. cbn [negb]. rewrite Hle. split.
    + rewrite !lookup_insert_ne by discriminate.
      now rewrite !lookup_insert_eq.
    + rewrite !lookup_insert_ne by discriminate.
      now rewrite !lookup_insert_eq.
Qed.

Lemma toric_without_cylinder_witness :
  let data := object [("SPH", VStr "-6.50"); ("CY", VStr "-0.00");
                      ("BV", VNum (of_Z 14))] in
  C.convertToToric data !! "CY" = Some (VStr "+00.00") /\
  C.convertToToric data !! "SPH" = C.convertToSpheric data !! "SPH".
Proof.
  intros data.
  assert (Hcyl : strict_eq (input data "CY" "0" (of_Z 0)) (of_Z 0) = true)
    by (vm_compute; reflexivity).
  assert (Hfin : is_finite (C.sphericWithoutVertexDistance
                              (input data "SPH" "0" (of_Z 0))
                              (input data "BV" "12" (of_Z 12))) = true)
    by (vm_compute; reflexivity).
  destruct (toric_without_cylinder data Hcyl Hfin) as (H1 & _ & H3 & _).
  split; [exact H1 |]. apply H3. vm_compute. reflexivity.
Defined.

(** *** Sums that need no rounding *)

Lemma shl_align_value (m : positive) (e e' : Z) :
  e' <= e -> Zpos (fst (shl_align m e e')) = Zpos m * 2 ^ (e - e').
Proof.
  intros H. unfold shl_align. destruct (e' - e) as [ | d | d] eqn:E; try lia.
  - cbn [fst]. replace (e - e') with 0 by lia. lia.
  - cbn [fst]. rewrite iter_xO_value. f_equal. f_equal. lia.
Qed.

(** Normalising a mantissa whose value fits 53 bits is exact. *)
Lemma binary_round_representable (s : bool) (p : positive) (e J u : Z) :
  -1074 <= e <= 971 -> 0 <= u -> 0 < J < 2 ^ 53 ->
  Zpos p * 2 ^ (e + 1074) = J * 2 ^ u ->
  exists mz ez,
    binary_round prec emax s p e =
      (if ez <=? 971 then S754_finite s mz ez else S754_infinity s) /\
    Zpos mz * 2 ^ (ez + 1074) = Zpos p * 2 ^ (e + 1074) /\
    canonical_mantissa prec emax mz ez = true /\ -1074 <= ez.
Proof.
  intros He Hu HJ Hv.
  destruct (Z.le_gt_cases (Zpos (digits2_pos p)) 53) as [Hd | Hd].
  - destruct (binary_round_exact s p e Hd ltac:(lia))
      as (mz & ez & Hr & Hval & Hb & Hez).
    rewrite fexp_value in Hez.
    assert (Hle : (ez <=? 971) = true) by (apply Z.leb_le; lia).
    exists mz, ez. rewrite Hle in Hb. unfold bounded in Hb.
    apply andb_prop in Hb as [Hc _]. repeat split; trivial; lia.
  - assert (Ht : e + 1074 <= u).
    { destruct (Z.le_gt_cases (e + 1074) u) as [ | Hlt]; trivial. exfalso.
      replace (e + 1074) with (u + (e + 1074 - u)) in Hv by lia.
      rewrite (Z.pow_add_r 2 u (e + 1074 - u)), Z.mul_assoc in Hv by lia.
      pose proof (pow2_pos u Hu). pose proof (pow2_pos (e + 1074 - u) ltac:(lia)).
      assert (Zpos p * 2 ^ (e + 1074 - u) = J) by nia.
      assert (Zpos p < 2 ^ 53) by nia.
      pose proof (digits2_pos_le p 53 ltac:(lia)). lia. }
    set (t := u - (e + 1074)).
    assert (Hp : Zpos p = J * 2 ^ t).
    { replace u with (t + (e + 1074)) in Hv by (subst t; lia).
      rewrite (Z.pow_add_r 2 t (e + 1074)), Z.mul_assoc in Hv
        by (subst t; lia).
      pose proof (pow2_pos (e + 1074) ltac:(lia)).
      apply (Z.mul_reg_r _ _ (2 ^ (e + 1074))); lia. }
    destruct J as [ | Jp | Jp]; try lia.
    pose proof (digits2_pos_le Jp 53 ltac:(lia)) as HdJ.
    assert (Hdp : Zpos (digits2_pos p) = Zpos (digits2_pos Jp) + t).
    { rewrite <- (Zdigits2_shift Jp t) by (subst t; lia). now rewrite <- Hp. }
    set (n := Zpos (digits2_pos p) - 53).
    assert (Hn : 0 < n <= t) by (subst n; lia).
    pose proof (pow2_pos (t - n) ltac:(lia)) as Hpow.
    set (k := Z.to_pos (Zpos Jp * 2 ^ (t - n))).
    assert (Hk : Zpos k = Zpos Jp * 2 ^ (t - n)) by (subst k; rewrite Z2Pos.id; lia).
    assert (Hdk : Zpos (digits2_pos k) = 53).
    { change (Zpos (digits2_pos k)) with (Zdigits2 (Zpos k)).
      rewrite Hk, Zdigits2_shift by lia. lia. }
    assert (Hpk : Zpos p = Zpos k * 2 ^ n).
    { rewrite Hp, Hk, <- Z.mul_assoc, <- Z.pow_add_r by lia.
      f_equal. f_equal. lia. }
    unfold binary_round, shl_align. rewrite fexp_value.
    replace (Z.max (Zpos (digits2_pos p) + e - 53) (-1074) - e) with n
      by (subst n; lia).
    destruct n as [ | np | np] eqn:En; try lia.
    rewrite Hpk, <- En.
    rewrite (binary_round_aux_exact s k n e) by (rewrite ?fexp_value; lia).
    exists k, (e + n). repeat split; try lia.
    + replace (e + n + 1074) with (n + (e + 1074)) by lia.
      rewrite (Z.pow_add_r 2 n (e + 1074)) by lia. ring.
    + unfold canonical_mantissa. rewrite Hdk, fexp_value.
      apply Z.eqb_eq. lia.
Qed.

(** A sum whose value fits 53 bits is formed without rounding. *)
Lemma add_exact (x y : number) (J u : Z) :
  valid x = true -> valid y = true ->
  is_finite x = true -> is_finite y = true ->
  scaled x + scaled y = J * 2 ^ u -> 0 <= u <= 2045 -> Z.abs J < 2 ^ 53 ->
  valid (add x y) = true /\ is_finite (add x y) = true /\
  scaled (add x y) = J * 2 ^ u /\
  (J = 0 -> scaled x <> 0 -> add x y = S754_zero false).
Proof.
  intros Vx Vy Fx Fy Hs Hu HJ.
  pose proof (pow2_pos u ltac:(lia)) as Hpu.
  destruct x as [sx | sx | | sx mx ex], y as [sy | sy | | sy my ey];
    try discriminate.
  - cbn [scaled] in Hs. repeat split; now destruct sx, sy.
  - cbn [scaled] in *. repeat split; trivial. cbn [scaled]. congruence.
  - cbn [scaled] in *. rewrite Z.add_0_r in Hs. repeat split; trivial.
    intros -> Hnz. lia.
  - pose proof (bounded_inv _ _ Vx) as (Hex & _).
    pose proof (bounded_inv _ _ Vy) as (Hey & _).
    unfold add. cbn [SFadd]. cbv zeta.
    set (ez := Z.min ex ey).
    assert (Hez : -1074 <= ez <= 971) by (subst ez; lia).
    rewrite (shl_align_value mx ex ez), (shl_align_value my ey ez)
      by (subst ez; lia).
    set (M := cond_Zopp sx (Zpos mx * 2 ^ (ex - ez)) +
              cond_Zopp sy (Zpos my * 2 ^ (ey - ez))).
    assert (HM : M * 2 ^ (ez + 1074) = J * 2 ^ u).
    { rewrite <- Hs. cbn [scaled]. subst M.
      replace (ex + 1074) with (ex - ez + (ez + 1074)) by lia.
      replace (ey + 1074) with (ey - ez + (ez + 1074)) by lia.
      rewrite !(Z.pow_add_r 2 _ (ez + 1074)) by (subst ez; lia).
      destruct sx, sy; cbn [signed cond_Zopp]; ring. }
    clearbody M. pose proof (pow2_pos (ez + 1074) ltac:(lia)) as Hpe.
    assert (Hround : forall s p,
              Zpos p * 2 ^ (ez + 1074) = Z.abs J * 2 ^ u ->
              J <> 0 ->
              exists mz e',
                binary_round prec emax s p ez = S754_finite s mz e' /\
                bounded prec emax mz e' = true /\
                Zpos mz * 2 ^ (e' + 1074) = Zpos p * 2 ^ (ez + 1074)).
    { intros s p Hp Hnz.
      destruct (binary_round_representable s p ez (Z.abs J) u Hez ltac:(lia)
                  ltac:(lia) Hp) as (mz & e' & Hr & Hval & Hc & Hlo).
      assert (Hle : e' <= 971).
      { destruct (Z.le_gt_cases e' 971) as [ | Hgt]; trivial. exfalso.
        unfold canonical_mantissa in Hc. rewrite fexp_value in Hc.
        apply Z.eqb_eq in Hc.
        assert (Hd : Zpos (digits2_pos mz) = 53) by lia.
        pose proof (digits2_pos_bounds mz) as [Hlow _]. rewrite Hd in Hlow.
        change (2 ^ (53 - 1)) with (2 ^ 52) in Hlow.
        assert (HP : 2 ^ 52 * 2 ^ (e' + 1074) = 2 ^ (52 + (e' + 1074)))
          by (rewrite (Z.pow_add_r 2 52 (e' + 1074)) by lia; reflexivity).
        assert (HQ : 2 ^ 53 * 2 ^ u = 2 ^ (53 + u))
          by (rewrite (Z.pow_add_r 2 53 u) by lia; reflexivity).
        assert (HPQ : 2 ^ (53 + u) <= 2 ^ (52 + (e' + 1074)))
          by (apply Z.pow_le_mono_r; lia).
        pose proof (pow2_pos (e' + 1074) ltac:(lia)) as HA.
        revert HP HQ HPQ HA Hval Hp Hlow HJ Hpu.
        generalize (2 ^ (52 + (e' + 1074))) (2 ^ (53 + u)) (2 ^ (e' + 1074))
          (2 ^ u) (2 ^ (ez + 1074)).
        intros P Q A B E. nia. }
      apply Z.leb_le in Hle. rewrite Hle in Hr.
      exists mz, e'. repeat split; trivial.
      unfold bounded. change (emax - prec) with 971. now rewrite Hc, Hle. }
    destruct M as [ | p | p]; cbn [binary_normalize].
    + assert (J = 0) by nia. subst J. repeat split.
    + assert (Hnz : J <> 0) by nia.
      destruct (Hround false p ltac:(nia) Hnz) as (mz & e' & -> & Hb & Hval).
      repeat split; trivial.
      * cbn [scaled signed cond_Zopp]. lia.
      * intros. lia.
    + assert (Hnz : J <> 0) by nia.
      destruct (Hround true p ltac:(nia) Hnz) as (mz & e' & -> & Hb & Hval).
      repeat split; trivial.
      * cbn [scaled signed cond_Zopp]. lia.
      * intros. lia.
Qed.

(** *** Transposition of whole axes and quarter powers *)

(** A property checked on the integers of a range holds of every number
    that is one of them. *)
Lemma on_integers (P : Z -> number -> bool) (lo : Z) (n : nat) :
  forallb (fun i => integer_checked P (lo + Z.of_nat i)) (seq 0 n) = true ->
  forall (x : number) (k : Z),
    valid x = true -> is_finite x = true ->
    exact x == inject_Z k -> lo <= k < lo + Z.of_nat n -> P k x = true.
Proof.
  intros H x k Vx Fx Hq Hk.
  pose proof (checked_between (integer_checked P) lo n H k Hk) as Hc.
  unfold integer_checked in Hc.
  apply andb_prop in Hc as [Hc Hz]. apply andb_prop in Hc as [Hc HP].
  apply andb_prop in Hc as [Hc Hs]. apply andb_prop in Hc as [Vy Fy].
  apply Z.eqb_eq in Hs.
  assert (Hx : scaled x = k * 2 ^ 1074).
  { rewrite (exact_scaled x Vx) in Hq. unfold Qeq, inject_Z in Hq.
    cbn [Qnum Qden] in Hq. rewrite Pos2Z.inj_pow in Hq. lia. }
  destruct (Z.eq_dec k 0) as [-> | Hnz].
  - destruct x as [[ | ] | | | s m e]; try discriminate; trivial.
    exfalso. cbn [scaled] in Hx.
    pose proof (bounded_inv _ _ Vx) as (He & _).
    pose proof (pow2_pos (e + 1074) ltac:(lia)).
    destruct s; cbn [signed cond_Zopp] in Hx; nia.
  - replace x with (of_Z k); trivial.
    symmetry. apply valid_unique; trivial; [congruence |].
    rewrite Hx. pose proof (pow2_pos 1074 ltac:(lia)). nia.
Qed.

Lemma turned_axes_checked :
  forallb (fun i => integer_checked turned_axis_checked (0 + Z.of_nat i))
          (seq 0 181) = true.
Proof. vm_compute. reflexivity. Qed.

(** X18. For an axis that is a whole number of degrees between 0 and 180,
    the axis [transformSphCylAxis] returns is that number plus 90 when it
    is at most 90 and minus 90 otherwise, hence between 1 and 180. *)
Theorem transposed_axis (sph cyl x : number) (n : Z) (r : E.transformed)
  (Vx : valid x = true) (Fx : is_finite x = true)
  (Hx : exact x == inject_Z n) (Hn : 0 <= n <= 180)
  (Hr : E.transformSphCylAxis sph cyl x = Some r) :
  E.axis r = of_Z (if n <=? 90 then n + 90 else n - 90).
Proof.
  pose proof (on_integers turned_axis_checked 0 181 turned_axes_checked
                x n Vx Fx Hx ltac:(lia)) as Hc.
  unfold turned_axis_checked in Hc.
  apply andb_prop in Hc as [Hc He]. apply andb_prop in Hc as [Hc Hz].
  apply andb_prop in Hc as [Va Fa].
  apply Z.eqb_eq in He. apply negb_true_iff, Z.eqb_neq in Hz.
  unfold E.transformSphCylAxis in Hr.
  destruct (negb (truthy cyl) || le cyl (of_Z 0)); [discriminate |].
  injection Hr as <-. cbn [E.axis].
  assert (Hb : Z.abs (if n <=? 90 then n + 90 else n - 90) < 2 ^ 53).
  { assert (2 ^ 10 <= 2 ^ 53) by (apply Z.pow_le_mono_r; lia).
    change (2 ^ 10) with 1024 in *. destruct (n <=? 90); lia. }
  destruct (of_Z_value _ Hb) as (Vo & Fo & _).
  apply valid_unique; trivial.
Qed.

Lemma transposed_axis_witness :
  E.axis {| E.sph := "-01.00"; E.cyl := "-01.00"; E.axis := of_Z 45 |} =
  of_Z 45.
Proof.
  assert (V : valid (of_Z 135) = true) by (vm_compute; reflexivity).
  assert (Q : exact (of_Z 135) == inject_Z 135) by (vm_compute; reflexivity).
  assert (R : E.transformSphCylAxis (of_Z (-2)) (of_Z 1) (of_Z 135) =
              Some {| E.sph := "-01.00"; E.cyl := "-01.00"; E.axis := of_Z 45 |})
    by (vm_compute; reflexivity).
  apply (transposed_axis (of_Z (-2)) (of_Z 1) (of_Z 135) 135 _ V eq_refl Q
           ltac:(lia) R).
Defined.

Lemma same_eq (a b : number) : same a b = true -> a = b.
Proof.
  destruct a as [s | s | | s m e], b as [t | t | | t n f]; try discriminate;
    cbn [same]; intros H; trivial.
  - now apply eqb_prop in H as ->.
  - now apply eqb_prop in H as ->.
  - apply andb_prop in H as [H He]. apply andb_prop in H as [Hs Hm].
    apply eqb_prop in Hs as ->. apply Pos.eqb_eq in Hm as ->.
    now apply Z.eqb_eq in He as ->.
Qed.

Lemma quarters_proper :
  forallb (fun i => quarter_checked (fun _ => true) (-300 + Z.of_nat i))
          (seq 0 601) = true.
Proof. vm_compute. reflexivity. Qed.

(** A number that is [k] quarters is the binary64 value of [k / 4], or the
    negative zero. *)
Lemma quarter_cases (x : number) (k : Z) :
  valid x = true -> is_finite x = true ->
  exact x == k # 4 -> -300 <= k <= 300 ->
  (x = of_ratio k 4 \/ k = 0 /\ x = S754_zero true) /\
  valid (of_ratio k 4) = true /\ is_finite (of_ratio k 4) = true /\
  scaled (of_ratio k 4) = k * 2 ^ 1072.
Proof.
  intros Vx Fx Hq Hk.
  pose proof (checked_between (quarter_checked (fun _ => true)) (-300) 601
                quarters_proper k ltac:(lia)) as Hc.
  unfold quarter_checked in Hc.
  apply andb_prop in Hc as [Hc _]. apply andb_prop in Hc as [Hc _].
  apply andb_prop in Hc as [Hc Hs]. apply andb_prop in Hc as [Vy Fy].
  apply Z.eqb_eq in Hs. apply (quarter_scaled x k Vx) in Hq.
  split; [| auto].
  destruct (Z.eq_dec k 0) as [-> | Hnz].
  - destruct x as [[ | ] | | | s m e]; try discriminate; auto.
    exfalso. cbn [scaled] in Hq.
    pose proof (bounded_inv _ _ Vx) as (He & _).
    pose proof (pow2_pos (e + 1074) ltac:(lia)).
    destruct s; cbn [signed cond_Zopp] in Hq; nia.
  - left. apply valid_unique; trivial; [congruence |].
    rewrite Hq. pose proof (pow2_pos 1072 ltac:(lia)). nia.
Qed.

(** Quarter powers add without rounding. *)
Lemma quarter_sum (x y : number) (k1 k2 : Z) :
  valid x = true -> is_finite x = true -> exact x == k1 # 4 ->
  valid y = true -> is_finite y = true -> exact y == k2 # 4 ->
  -240 <= k1 <= 240 -> 1 <= k2 <= 60 ->
  valid (add x y) = true /\ is_finite (add x y) = true /\
  scaled (add x y) = (k1 + k2) * 2 ^ 1072.
Proof.
  intros Vx Fx Hx Vy Fy Hy H1 H2.
  apply (quarter_scaled x k1 Vx) in Hx. apply (quarter_scaled y k2 Vy) in Hy.
  assert (Hb : Z.abs (k1 + k2) < 2 ^ 53).
  { assert (2 ^ 10 <= 2 ^ 53) by (apply Z.pow_le_mono_r; lia).
    change (2 ^ 10) with 1024 in *. lia. }
  destruct (add_exact x y (k1 + k2) 1072 Vx Vy Fx Fy) as (V & F & S & _);
    auto; lia.
Qed.

Lemma powers_parsed_back :
  forallb (fun i => quarter_checked parsed_back (-300 + Z.of_nat i))
          (seq 0 601) = true.
Proof. vm_compute. reflexivity. Qed.

Lemma minus_magnitude (x : number) :
  valid (neg (Math_abs x)) = valid x /\
  is_finite (neg (Math_abs x)) = is_finite x /\
  scaled (neg (Math_abs x)) = - Z.abs (scaled x).
Proof.
  destruct x as [s | s | | s m e]; repeat split.
  cbn [Math_abs SFabs neg SFopp scaled signed cond_Zopp negb].
  pose proof (Z.pow_nonneg 2 (e + 1074) ltac:(lia)).
  destruct s; cbn [signed cond_Zopp]; nia.
Qed.

Lemma formatted_quarter_read (z : number) (k : Z) :
  valid z = true -> is_finite z = true ->
  scaled z = k * 2 ^ 1072 -> -300 <= k <= 300 ->
  exact (StringToNumber (E.formatPower z)) == k # 4.
Proof.
  intros Vz Fz Hz Hk.
  pose proof (on_quarters parsed_back (-300) 601 powers_parsed_back z k Vz Fz
                (proj2 (quarter_scaled z k Vz) Hz) ltac:(lia)) as Hp.
  unfold parsed_back in Hp.
  apply andb_prop in Hp as [Hp He]. apply andb_prop in Hp as [Vn Fn].
  apply Z.eqb_eq in He.
  apply (quarter_scaled _ k Vn). congruence.
Qed.

(** X19. Transposition describes the same lens. For a sphere that is a
    multiple of 0.25 between -60 and 60 and a cylinder that is a multiple
    of 0.25 between 0.25 and 15, [transformSphCylAxis] returns a result
    whose sphere reads as the old sphere plus the old cylinder and whose
    cylinder reads as the old cylinder negated. *)
Theorem transposition_preserves_lens (sph cyl axis : number) (k1 k2 : Z)
  (Vs : valid sph = true) (Fs : is_finite sph = true)
  (Hs : exact sph == k1 # 4) (H1 : -240 <= k1 <= 240)
  (Vc : valid cyl = true) (Fc : is_finite cyl = true)
  (Hc : exact cyl == k2 # 4) (H2 : 1 <= k2 <= 60) :
  exists r,
    E.transformSphCylAxis sph cyl axis = Some r /\
    exact (StringToNumber (E.sph r)) == k1 + k2 # 4 /\
    exact (StringToNumber (E.cyl r)) == - k2 # 4 /\
    exact (StringToNumber (E.sph r)) + exact (StringToNumber (E.cyl r)) ==
      exact sph.
Proof.
  pose proof (pow2_pos 1072 ltac:(lia)) as Hpow.
  pose proof (proj1 (quarter_scaled sph k1 Vs) Hs) as Ss.
  pose proof (proj1 (quarter_scaled cyl k2 Vc) Hc) as Sc.
  destruct (quarter_sum sph cyl k1 k2 Vs Fs Hs Vc Fc Hc H1 H2)
    as (Vz & Fz & Ez).
  destruct (minus_magnitude cyl) as (Vw & Fw & Ew).
  rewrite Vc in Vw. rewrite Fc in Fw.
  assert (Hgo : negb (truthy cyl) || le cyl (of_Z 0) = false).
  { apply orb_false_intro.
    - destruct cyl as [s | s | | s m e]; try discriminate; trivial.
      cbn [scaled] in Sc. nia.
    - destruct (le cyl (of_Z 0)) eqn:Hle; trivial.
      apply (le_exact cyl (of_Z 0) Vc eq_refl Fc eq_refl) in Hle.
      rewrite Hc in Hle. unfold Qle in Hle. cbn in Hle. lia. }
  unfold E.transformSphCylAxis. rewrite Hgo.
  eexists. split; [reflexivity |]. cbn [E.sph E.cyl].
  assert (R1 : exact (StringToNumber (E.formatPower (add sph cyl))) ==
               k1 + k2 # 4).
  { apply formatted_quarter_read; trivial; lia. }
  assert (R2 : exact (StringToNumber (E.formatPower (neg (Math_abs cyl)))) ==
               - k2 # 4).
  { apply formatted_quarter_read; trivial; [| lia]. rewrite Ew, Sc. nia. }
  split; [exact R1 | split; [exact R2 |]].
  rewrite R1, R2, Hs. unfold Qeq, Qplus. cbn [Qnum Qden]. lia.
Qed.

Lemma transposition_preserves_lens_witness :
  exists r,
    E.transformSphCylAxis (of_Z (-2)) (of_decimal 75 (-2)) (of_Z 20) = Some r /\
    exact (StringToNumber (E.sph r)) == (-5) # 4.
Proof.
  assert (Vs : valid (of_Z (-2)) = true) by (vm_compute; reflexivity).
  assert (Hs : exact (of_Z (-2)) == (-8) # 4) by (vm_compute; reflexivity).
  assert (Vc : valid (of_decimal 75 (-2)) = true) by (vm_compute; reflexivity).
  assert (Hc : exact (of_decimal 75 (-2)) == 3 # 4) by (vm_compute; reflexivity).
  destruct (transposition_preserves_lens (of_Z (-2)) (of_decimal 75 (-2))
              (of_Z 20) (-8) 3 Vs eq_refl Hs ltac:(lia) Vc eq_refl Hc ltac:(lia))
    as (r & Hr & H1 & _).
  exists r. split; [exact Hr | exact H1].
Defined.

(** *** Vertex compensation *)

Lemma all_compensations_checked :
  forallb (fun j => integer_checked compensations_checked (10 + Z.of_nat j))
          (seq 0 6) = true.
Proof. vm_compute. reflexivity. Qed.

(** X20. For a power that is a multiple of 0.25 between -60 and 60 and a
    vertex distance of a whole number of millimetres from 10 to 15 (the
    range [validateVertexDistance] accepts), [sphericWithoutVertexDistance]
    returns a finite power that lies strictly between the given power and
    zero for a minus lens, is strictly larger than the given power for a
    plus lens, and is zero for a zero power. Beyond [1000 / bv] the sign
    flips: for the power 60 at 20 mm the result is negative. *)
Theorem vertex_compensation (D bv : number) (k n : Z)
  (VD : valid D = true) (FD : is_finite D = true)
  (HD : exact D == k # 4) (Hk : -240 <= k <= 240)
  (Vb : valid bv = true) (Fb : is_finite bv = true)
  (Hb : exact bv == inject_Z n) (Hn : 10 <= n <= 15) :
  let p := C.sphericWithoutVertexDistance D bv in
  is_finite p = true /\
  (k < 0 -> (exact D < exact p)%Q /\ (exact p < 0)%Q) /\
  (0 < k -> (exact D < exact p)%Q) /\
  (k = 0 -> exact p == 0) /\
  lt (C.sphericWithoutVertexDistance (of_Z 60) (of_Z 20)) (of_Z 0) = true.
Proof.
  intros p.
  pose proof (on_integers compensations_checked 10 6 all_compensations_checked
                bv n Vb Fb Hb ltac:(lia)) as Hall.
  unfold compensations_checked in Hall.
  pose proof (checked_between
                (fun k => compensation_checked bv (of_ratio k 4) &&
                          (negb (k =? 0) ||
                           compensation_checked bv (S754_zero true)))
                (-240) 481 Hall k ltac:(lia)) as Hc.
  cbv beta in Hc. apply andb_prop in Hc as [Hq Hz].
  destruct (quarter_cases D k VD FD HD ltac:(lia)) as (Cases & _).
  assert (Hp : compensation_checked bv D = true).
  { destruct Cases as [-> | [-> ->]]; trivial. }
  clear Hq Hz Hall. unfold compensation_checked in Hp. fold p in Hp.
  apply andb_prop in Hp as [Hp Hdir]. apply andb_prop in Hp as [Vp Fp].
  assert (Hlt : lt D (of_Z 0) = true <-> k < 0).
  { rewrite (lt_exact D (of_Z 0) VD eq_refl FD eq_refl), HD.
    unfold Qlt. cbn. lia. }
  assert (Hgt : gt D (of_Z 0) = true <-> 0 < k).
  { unfold gt. rewrite (lt_exact (of_Z 0) D eq_refl VD eq_refl FD), HD.
    unfold Qlt. cbn. lia. }
  split; [exact Fp |]. split; [| split; [| split]].
  4: vm_compute; reflexivity.
  - intros Hneg. apply Hlt in Hneg. rewrite Hneg in Hdir.
    apply andb_prop in Hdir as [H1 H2].
    apply (lt_exact D p VD Vp FD Fp) in H1.
    apply (lt_exact p (of_Z 0) Vp eq_refl Fp eq_refl) in H2. auto.
  - intros Hpos.
    destruct (lt D (of_Z 0)); [pose proof (proj1 Hlt eq_refl); lia |].
    apply Hgt in Hpos. rewrite Hpos in Hdir.
    now apply (lt_exact D p VD Vp FD Fp) in Hdir.
  - intros ->.
    destruct (lt D (of_Z 0)); [pose proof (proj1 Hlt eq_refl); lia |].
    destruct (gt D (of_Z 0)); [pose proof (proj1 Hgt eq_refl); lia |].
    destruct p as [s | s | | [ | ] m e]; try discriminate; reflexivity.
Qed.

Lemma vertex_compensation_witness :
  (exact (of_Z (-7)) <
   exact (C.sphericWithoutVertexDistance (of_Z (-7)) (of_Z 12)))%Q.
Proof.
  assert (VD : valid (of_Z (-7)) = true) by (vm_compute; reflexivity).
  assert (HD : exact (of_Z (-7)) == (-28) # 4) by (vm_compute; reflexivity).
  assert (Vb : valid (of_Z 12) = true) by (vm_compute; reflexivity).
  assert (Hb : exact (of_Z 12) == inject_Z 12) by (vm_compute; reflexivity).
  destruct (vertex_compensation (of_Z (-7)) (of_Z 12) (-28) 12
              VD eq_refl HD ltac:(lia) Vb eq_refl Hb ltac:(lia))
    as (_ & H & _).
  apply H. lia.
Defined.

(** *** The spherical equivalent *)

Lemma halves_checked :
  forallb (fun i => half_checked (-60 + Z.of_nat i)) (seq 0 121) = true.
Proof. vm_compute. reflexivity. Qed.

Lemma equivalents_checked :
  forallb (fun i => equivalent_checked (-540 + Z.of_nat i)) (seq 0 1081) = true.
Proof. vm_compute. reflexivity. Qed.

(** X21. For a sphere that is a multiple of 0.25 between -60 and 60 and a
    cylinder that is a non-zero multiple of 0.25 between -15 and 15,
    [sphericalEquivalent] is the binary64 value of the hundredths nearest
    to [sph + cyl / 2], the ones away from zero when that sum ends in an
    odd eighth. Rounding it with [roundToNearestQuarter] therefore gives
    the quarter nearest to [sph + cyl / 2], away from zero on a tie. *)
Theorem sphericalEquivalent_spec (sph cyl : number) (k1 k2 : Z)
  (Vs : valid sph = true) (Fs : is_finite sph = true)
  (Hs : exact sph == k1 # 4) (H1 : -240 <= k1 <= 240)
  (Vc : valid cyl = true) (Fc : is_finite cyl = true)
  (Hc : exact cyl == k2 # 4) (H2 : -60 <= k2 <= 60) (Hnz : k2 <> 0) :
  let j := 2 * k1 + k2 in
  C.sphericalEquivalent sph cyl = of_ratio (round_half_away (25 * j # 2)) 100 /\
  exact (C.roundToNearestQuarter (C.sphericalEquivalent sph cyl)) ==
    round_half_away (j # 2) # 4.
Proof.
  intros j. assert (Hj : -540 <= j <= 540) by (subst j; lia).
  assert (Ej : j = 2 * k1 + k2) by reflexivity. clearbody j.
  destruct (quarter_cases cyl k2 Vc Fc Hc ltac:(lia)) as (Cc & _).
  destruct Cc as [Ec | [? _]]; [| lia].
  pose proof (checked_between half_checked (-60) 121 halves_checked k2
                ltac:(lia)) as Hh.
  unfold half_checked in Hh. cbv zeta in Hh. rewrite <- Ec in Hh.
  apply andb_prop in Hh as [Hh Sh]. apply andb_prop in Hh as [Vh Fh].
  apply Z.eqb_eq in Sh.
  pose proof (proj1 (quarter_scaled sph k1 Vs) Hs) as Ss.
  assert (HJ : Z.abs j < 2 ^ 53).
  { assert (2 ^ 10 <= 2 ^ 53) by (apply Z.pow_le_mono_r; lia).
    change (2 ^ 10) with 1024 in *. lia. }
  destruct (add_exact sph (div cyl (of_Z 2)) j 1071 Vs Vh Fs Fh)
    as (Vz & Fz & Sz & Zz); try lia.
  pose proof (checked_between equivalent_checked (-540) 1081
                equivalents_checked j ltac:(lia)) as He.
  unfold equivalent_checked in He. cbv zeta in He.
  apply andb_prop in He as [He Hr]. apply andb_prop in He as [He Hv].
  apply andb_prop in He as [He Se]. apply andb_prop in He as [Ve Fe].
  apply Z.eqb_eq in Se. apply same_eq in Hv. apply same_eq in Hr.
  assert (Hadd : add sph (div cyl (of_Z 2)) = of_ratio j 8).
  { destruct (Z.eq_dec j 0) as [Hj0 | Hj0].
    - rewrite Hj0. apply Zz; trivial. rewrite Ss.
      pose proof (pow2_pos 1072 ltac:(lia)). nia.
    - apply valid_unique; trivial; [congruence |].
      rewrite Sz. pose proof (pow2_pos 1071 ltac:(lia)). nia. }
  unfold C.sphericalEquivalent. rewrite Hadd. split; [exact Hv |].
  rewrite Hr.
  assert (Hb : -300 <= round_half_away (j # 2) <= 300).
  { unfold round_half_away.
    destruct (Qle_bool 0 (j # 2)).
    - pose proof (round_half_up_range (j # 2) (-270) 270) as Hq.
      unfold round_half_up in Hq.
      assert (-270 <= Qfloor ((j # 2) + (1 # 2)) <= 270); [| lia].
      apply Hq. unfold Qle, inject_Z. cbn [Qnum Qden]. lia.
    - pose proof (round_half_up_range (- (j # 2)) (-270) 270) as Hq.
      unfold round_half_up in Hq.
      assert (-270 <= Qfloor (- (j # 2) + (1 # 2)) <= 270); [| lia].
      apply Hq. unfold Qle, Qopp, inject_Z. cbn [Qnum Qden]. lia. }
  pose proof (checked_between (quarter_checked (fun _ => true)) (-300) 601
                quarters_proper (round_half_away (j # 2)) ltac:(lia)) as Hc'.
  unfold quarter_checked in Hc'.
  apply andb_prop in Hc' as [Hc' _]. apply andb_prop in Hc' as [Hc' _].
  apply andb_prop in Hc' as [Hc' Hsc]. apply andb_prop in Hc' as [Vq Fq].
  apply Z.eqb_eq in Hsc. now apply (quarter_scaled _ _ Vq).
Qed.

Lemma sphericalEquivalent_spec_witness :
  exact (C.roundToNearestQuarter
           (C.sphericalEquivalent (of_Z (-1)) (of_decimal (-25) (-2)))) ==
  (-5) # 4.
Proof.
  assert (Vs : valid (of_Z (-1)) = true) by (vm_compute; reflexivity).
  assert (Hs : exact (of_Z (-1)) == (-4) # 4) by (vm_compute; reflexivity).
  assert (Vc : valid (of_decimal (-25) (-2)) = true) by (vm_compute; reflexivity).
  assert (Hc : exact (of_decimal (-25) (-2)) == (-1) # 4)
    by (vm_compute; reflexivity).
  destruct (sphericalEquivalent_spec (of_Z (-1)) (of_decimal (-25) (-2))
              (-4) (-1) Vs eq_refl Hs ltac:(lia) Vc eq_refl Hc ltac:(lia)
              ltac:(lia)) as (_ & H).
  exact H.
Defined.

